(** * SABBAR lead qualification: extraction, scoring and conversation lifecycle

    A shallow embedding of [app/ai/agent.py], [app/ai/tools.py],
    [app/ai/state.py] and [app/ai/workflow.py].

    Conventions.
    - A Python [str] is a list of Unicode code points ([str := list N]);
      [u "..."] decodes a UTF-8 literal of this file into code points.
    - A Python [int] is a [Z].
    - A Python [dict] with string keys is a [gmap string value].
    - The Python runtime's Unicode tables ([str.lower], the character classes
      of [re], [int]) form a record [unicode_db]; [latin1] is its restriction
      to U+0000..U+00FF, used to run the code on concrete texts.
    - Code that can raise returns [exn + A]; code that mutates objects and
      talks to the store or the language model passes the state explicitly. *)

From Stdlib Require Import ZArith NArith Ascii String List Bool Lia DecimalString.
From stdpp Require Import base option list gmap strings fin_maps.

Open Scope Z_scope.

(** ** Python strings *)

Definition str := list N.

Fixpoint bytes_of (s : string) : list N :=
  match s with
  | EmptyString => []
  | String a r => N_of_ascii a :: bytes_of r
  end.

Fixpoint utf8_decode (bs : list N) : str :=
  match bs with
  | [] => []
  | b0 :: r0 =>
      if (b0 <? 128)%N then b0 :: utf8_decode r0 else
      match r0 with
      | [] => []
      | b1 :: r1 =>
          if (b0 <? 224)%N
          then ((b0 - 192) * 64 + (b1 - 128))%N :: utf8_decode r1 else
          match r1 with
          | [] => []
          | b2 :: r2 =>
              if (b0 <? 240)%N
              then ((b0 - 224) * 4096 + (b1 - 128) * 64 + (b2 - 128))%N
                     :: utf8_decode r2 else
              match r2 with
              | [] => []
              | b3 :: r3 =>
                  ((b0 - 240) * 262144 + (b1 - 128) * 4096
                   + (b2 - 128) * 64 + (b3 - 128))%N :: utf8_decode r3
              end
          end
      end
  end.

(** [u "fès"] is the Python literal ["fès"]. *)
Definition u (s : string) : str := utf8_decode (bytes_of s).

Fixpoint starts_with (p s : str) : bool :=
  match p, s with
  | [], _ => true
  | _ :: _, [] => false
  | a :: p', b :: s' => (a =? b)%N && starts_with p' s'
  end.

(** [sub in s] *)
Fixpoint contains (sub s : str) : bool :=
  starts_with sub s ||
  match s with
  | [] => false
  | _ :: s' => contains sub s'
  end.

(** [any(kw in s for kw in kws)] *)
Definition any_in (kws : list str) (s : str) : bool :=
  existsb (fun kw => contains kw s) kws.

Fixpoint find_from (sub s : str) (i : Z) : Z :=
  if starts_with sub s then i else
  match s with
  | [] => -1
  | _ :: s' => find_from sub s' (i + 1)
  end.

(** [s.find(sub)]: lowest index of [sub] in [s], or [-1]. *)
Definition find (s sub : str) : Z := find_from sub s 0.

Definition slice_bound (len i : Z) : Z :=
  if i <? 0 then Z.max (i + len) 0 else Z.min i len.

(** [s[a:b]] *)
Definition slice (s : str) (a b : Z) : str :=
  let len := Z.of_nat (length s) in
  let a' := slice_bound len a in
  let b' := slice_bound len b in
  take (Z.to_nat (b' - a')) (drop (Z.to_nat a') s).

Fixpoint replace_go (old new : str) (s : str) (skip : nat) : str :=
  match s with
  | [] => []
  | c :: s' =>
      match skip with
      | S n => replace_go old new s' n
      | O =>
          if starts_with old s
          then new ++ replace_go old new s' (length old - 1)
          else c :: replace_go old new s' 0
      end
  end.

(** [s.replace(old, new)] *)
Definition replace (s old new : str) : str :=
  match old with
  | [] => new ++ concat (map (fun c => c :: new) s)
  | _ => replace_go old new s 0
  end.

(** [sep.join(parts)] *)
Fixpoint join (sep : str) (parts : list str) : str :=
  match parts with
  | [] => []
  | [p] => p
  | p :: rest => p ++ sep ++ join sep rest
  end.

(** ** The runtime's Unicode tables *)

Record unicode_db := {
  str_lower : str -> str;        (* str.lower() *)
  decimal : N -> option Z;       (* value of a decimal digit (category Nd) *)
  isspace : N -> bool;           (* str.isspace() of one character *)
  isalnum : N -> bool;           (* str.isalnum() of one character *)
  tolower : N -> N;              (* simple lower-case mapping used by re *)
  case_fixes : N -> list N       (* re's extra case equivalents of a lower-case letter *)
}.

Definition in_range (lo hi c : N) : bool := (lo <=? c)%N && (c <=? hi)%N.

Definition latin1_tolower (c : N) : N :=
  if in_range 65 90 c || (in_range 192 222 c && negb (c =? 215)%N)
  then (c + 32)%N else c.

Definition latin1_isspace (c : N) : bool :=
  in_range 9 13 c || in_range 28 32 c || (c =? 133)%N || (c =? 160)%N.

Definition latin1_isalnum (c : N) : bool :=
  in_range 48 57 c || in_range 65 90 c || in_range 97 122 c
  || (c =? 170)%N || (c =? 178)%N || (c =? 179)%N || (c =? 181)%N
  || (c =? 185)%N || (c =? 186)%N || in_range 188 190 c
  || in_range 192 214 c || in_range 216 246 c || in_range 248 255 c.

Definition latin1_decimal (c : N) : option Z :=
  if in_range 48 57 c then Some (Z.of_N c - 48) else None.

Definition latin1_case_fixes (c : N) : list N :=
  if (c =? 105)%N then [305%N]
  else if (c =? 115)%N then [383%N]
  else if (c =? 181)%N then [956%N]
  else [].

(** The tables of CPython on the Basic Latin and Latin-1 Supplement blocks.
    Code points above U+00FF are left unclassified: the instance is meant for
    texts written in these two blocks. *)
Definition latin1 : unicode_db := {|
  str_lower := map latin1_tolower;
  decimal := latin1_decimal;
  isspace := latin1_isspace;
  isalnum := latin1_isalnum;
  tolower := latin1_tolower;
  case_fixes := latin1_case_fixes
|}.

(** ** Exceptions *)

Inductive exn :=
| ValueError
| KeyError
| TypeError
| OverflowError.

Definition ret {A} (a : A) : exn + A := inr a.

Definition bind {A B} (m : exn + A) (f : A -> exn + B) : exn + B :=
  match m with
  | inl e => inl e
  | inr a => f a
  end.

Notation "'let?' x ':=' m 'in' k" := (bind m (fun x => k))
  (at level 10, x name, m at level 100, k at level 200).

(** ** [int(s)] *)

Section Int.
Variable db : unicode_db.

Definition is_digit (c : N) : bool :=
  match decimal db c with Some _ => true | None => false end.

Fixpoint lstrip (s : str) : str :=
  match s with
  | c :: s' => if isspace db c then lstrip s' else s
  | [] => []
  end.

(** [s.strip()] *)
Definition strip (s : str) : str := reverse (lstrip (reverse (lstrip s))).

(** Digits with single underscores between them; the result is the number
    of digits and their value. *)
Fixpoint digits_value (s : str) (count : nat) (acc : Z) (after_digit : bool)
  : option (nat * Z) :=
  match s with
  | [] => if after_digit then Some (count, acc) else None
  | c :: s' =>
      match decimal db c with
      | Some d => digits_value s' (S count) (acc * 10 + d) true
      | None =>
          if (c =? 95)%N && after_digit
          then digits_value s' count acc false
          else None
      end
  end.

(** The default of [sys.get_int_max_str_digits()]. *)
Definition int_max_str_digits : nat := 4300.

(** [int(s)] for a [str] argument in base 10: surrounding white space and a
    sign are accepted, and a literal of more than [int_max_str_digits]
    digits raises [ValueError] as every other malformed literal does. *)
Definition py_int (s : str) : exn + Z :=
  let s1 := strip s in
  let '(sign, body) :=
    match s1 with
    | 45%N :: r => (-1, r)
    | 43%N :: r => (1, r)
    | _ => (1, s1)
    end in
  match digits_value body 0 0 false with
  | Some (n, v) =>
      if (int_max_str_digits <? n)%nat then inl ValueError else inr (sign * v)
  | None => inl ValueError
  end.
End Int.

(** ** The regular expressions of [re]

    A backtracking matcher with the priorities of [re]: alternatives from
    left to right, repetitions greedy. *)

Inductive cset_item :=
| CChar (c : N)
| CRange (lo hi : N)
| CWord.                                   (* \w inside a class *)

Inductive regex :=
| REmpty
| RChar (c : N)
| RSet (items : list cset_item)            (* [...] *)
| RDigit                                   (* \d *)
| RSpace                                   (* \s *)
| RWord                                    (* \w *)
| RBoundary                                (* \b *)
| RSeq (r1 r2 : regex)
| RAlt (r1 r2 : regex)
| RRepeat (lo : nat) (hi : option nat) (r : regex)
| RGroup (r : regex).                      (* ( ... ), capturing *)

Definition RStar := RRepeat 0 None.
Definition RPlus := RRepeat 1 None.
Definition ROpt := RRepeat 0 (Some 1%nat).
Definition RTimes (n : nat) := RRepeat n (Some n).

Fixpoint RLit (s : str) : regex :=
  match s with
  | [] => REmpty
  | [c] => RChar c
  | c :: s' => RSeq (RChar c) (RLit s')
  end.

Fixpoint RSeqs (rs : list regex) : regex :=
  match rs with
  | [] => REmpty
  | [r] => r
  | r :: rs' => RSeq r (RSeqs rs')
  end.

Fixpoint count_groups (r : regex) : nat :=
  match r with
  | RSeq a b | RAlt a b => (count_groups a + count_groups b)%nat
  | RRepeat _ _ a => count_groups a
  | RGroup a => S (count_groups a)
  | _ => O
  end.

Fixpoint N_range (lo : N) (n : nat) : list N :=
  match n with
  | O => []
  | S n' => lo :: N_range (lo + 1)%N n'
  end.

Section Regex.
Variable db : unicode_db.
Variable ignorecase : bool.              (* re.IGNORECASE *)

Definition is_word (c : N) : bool := isalnum db c || (c =? 95)%N.

Definition is_word_opt (c : option N) : bool :=
  match c with Some c => is_word c | None => false end.

(** A pattern character [c] against a text character [x]. *)
Definition char_matches (c x : N) : bool :=
  if ignorecase
  then let x' := tolower db x in
       let c' := tolower db c in
       (x' =? c')%N || existsb (N.eqb x') (case_fixes db c')
  else (x =? c)%N.

Definition item_matches (it : cset_item) (x : N) : bool :=
  match it with
  | CChar c => char_matches c x
  | CRange lo hi =>
      if ignorecase
      then existsb (fun c => char_matches c x)
             (N_range lo (N.to_nat (hi + 1 - lo)))
      else in_range lo hi x
  | CWord => is_word (if ignorecase then tolower db x else x)
  end.

(** A position in the text: the character before it, the text from it on,
    its index. *)
Record cursor := { prev : option N; rest : str; pos : N }.

Definition advance (x : N) (s : str) (c : cursor) : cursor :=
  {| prev := Some x; rest := s; pos := (pos c + 1)%N |}.

(** The span of group 1, when it took part in the match. *)
Definition capture := option (N * N).

Definition cont := cursor -> capture -> option (cursor * capture).

Definition one_char (p : N -> bool) (k : cont) : cont :=
  fun c cap =>
    match rest c with
    | x :: s' => if p x then k (advance x s' c) cap else None
    | [] => None
    end.

(** [lo] to [hi] repetitions of [body], as many as possible first. An
    optional repetition that consumes nothing is not taken. *)
Fixpoint rep (body : cont -> cont) (fuel lo : nat) (hi : option nat)
    (k : cont) : cont :=
  fun c cap =>
    match fuel with
    | O => None
    | S f =>
        let more :=
          match hi with
          | Some O => None
          | _ =>
              body (fun c' cap' =>
                      if (0 <? lo)%nat || (pos c <? pos c')%N
                      then rep body f (pred lo) (pred <$> hi) k c' cap'
                      else None) c cap
          end in
        match more with
        | Some r => Some r
        | None => if (lo =? 0)%nat then k c cap else None
        end
    end.

(** [size] bounds the number of characters left in the text. *)
Fixpoint exec (size : nat) (r : regex) (k : cont) {struct r} : cont :=
  match r with
  | REmpty => k
  | RChar c => one_char (char_matches c) k
  | RSet items => one_char (fun x => existsb (fun it => item_matches it x) items) k
  | RDigit => one_char (is_digit db) k
  | RSpace => one_char (isspace db) k
  | RWord => one_char is_word k
  | RBoundary =>
      fun c cap =>
        if xorb (is_word_opt (prev c)) (is_word_opt (head (rest c)))
        then k c cap else None
  | RSeq a b => exec size a (exec size b k)
  | RAlt a b =>
      fun c cap =>
        match exec size a k c cap with
        | Some r => Some r
        | None => exec size b k c cap
        end
  | RRepeat lo hi a => rep (exec size a) (lo + S size) lo hi k
  | RGroup a =>
      fun c cap =>
        exec size a (fun c' _ => k c' (Some (pos c, pos c'))) c cap
  end.

Definition match_at (size : nat) (r : regex) (c : cursor)
  : option (cursor * capture) :=
  exec size r (fun c' cap => Some (c', cap)) c None.

(** The text between two indices, read from the cursor [c]. *)
Definition span (c : cursor) (a b : N) : str :=
  take (N.to_nat (b - a)) (drop (N.to_nat (a - pos c)) (rest c)).

Fixpoint findall_from (fuel : nat) (r : regex) (c : cursor) : list str :=
  match fuel with
  | O => []
  | S f =>
      let skip (_ : unit) :=
        match rest c with
        | [] => []
        | x :: t => findall_from f r (advance x t c)
        end in
      match match_at fuel r c with
      | None => skip tt
      | Some (c', cap) =>
          let item :=
            if (0 <? count_groups r)%nat
            then match cap with Some (a, b) => span c a b | None => [] end
            else span c (pos c) (pos c') in
          if (pos c <? pos c')%N
          then item :: findall_from f r c'
          else item :: skip tt
      end
  end.

(** [re.findall(r, s)] for a pattern with at most one group. *)
Definition findall (r : regex) (s : str) : list str :=
  findall_from (length s + 2) r {| prev := None; rest := s; pos := 0 |}.

Fixpoint search_from (fuel : nat) (r : regex) (c : cursor) : bool :=
  match fuel with
  | O => false
  | S f =>
      match match_at fuel r c with
      | Some _ => true
      | None =>
          match rest c with
          | [] => false
          | x :: t => search_from f r (advance x t c)
          end
      end
  end.

(** [bool(re.search(r, s))] *)
Definition search (r : regex) (s : str) : bool :=
  search_from (length s + 2) r {| prev := None; rest := s; pos := 0 |}.
End Regex.

(** ** Python values and dictionaries *)

Inductive value :=
| VNone
| VBool (b : bool)
| VInt (n : Z)
| VStr (s : str)
| VList (l : list str).

#[global] Instance value_eq_dec : EqDecision value.
Proof. solve_decision. Defined.

(** [bool(v)] *)
Definition truthy (v : value) : bool :=
  match v with
  | VNone => false
  | VBool b => b
  | VInt n => negb (n =? 0)
  | VStr s => match s with [] => false | _ => true end
  | VList l => match l with [] => false | _ => true end
  end.

(** [a and b], [a or b] *)
Definition py_and (a b : value) : value := if truthy a then b else a.
Definition py_or (a b : value) : value := if truthy a then a else b.

Abbreviation dict := (gmap string value).

(** [d.get(k)] *)
Definition dget (d : dict) (k : string) : value := default VNone (d !! k).

(** [d[k]] *)
Definition dindex (d : dict) (k : string) : exn + value :=
  match d !! k with
  | Some v => inr v
  | None => inl KeyError
  end.

(** [d.update(e)]: the entries of [e] win. *)
Definition dupdate (d e : dict) : dict := e ∪ d.

(** ** [QualificationAgent._extract_criteria] and [_extract_contact_info] *)

Module Agent.

Definition cities_map : list (str * list str) :=
  [ (u "Casablanca", [u "casablanca"; u "casa"]);
    (u "Rabat", [u "rabat"]);
    (u "Marrakech", [u "marrakech"; u "marrakesh"]);
    (u "Fès", [u "fès"; u "fes"]);
    (u "Tanger", [u "tanger"; u "tangier"]);
    (u "Agadir", [u "agadir"]);
    (u "Meknès", [u "meknès"; u "meknes"]);
    (u "Oujda", [u "oujda"]);
    (u "Tétouan", [u "tétouan"; u "tetouan"]);
    (u "Kénitra", [u "kénitra"; u "kenitra"]) ].

Definition types_map : list (str * list str) :=
  [ (u "appartement", [u "appartement"; u "appart"]);
    (u "villa", [u "villa"]);
    (u "maison", [u "maison"]);
    (u "riad", [u "riad"]);
    (u "terrain", [u "terrain"]);
    (u "bureau", [u "bureau"]);
    (u "local_commercial", [u "local commercial"; u "local"; u "commerce"]) ].

(** [[key for key, keywords in table.items() if any(kw in text for kw in keywords)]] *)
Definition detect (table : list (str * list str)) (text : str) : list str :=
  map fst (filter (fun e => Is_true (any_in (snd e) text)) table).

(** [(\d+)\s*(?:millions?|m\b)] *)
Definition budget_pattern_millions : regex :=
  RSeqs [ RGroup (RPlus RDigit); RStar RSpace;
          RAlt (RSeq (RLit (u "million")) (ROpt (RChar 115)))
               (RSeq (RChar 109) RBoundary) ].

(** [(\d{1,3}(?:\s?\d{3}){2,})] *)
Definition budget_pattern_grouped : regex :=
  RGroup (RSeq (RRepeat 1 (Some 3%nat) RDigit)
               (RRepeat 2 None (RSeq (ROpt RSpace) (RTimes 3 RDigit)))).

(** [(\d{7,})] *)
Definition budget_pattern_bare : regex := RGroup (RRepeat 7 None RDigit).

Definition budget_patterns : list regex :=
  [budget_pattern_millions; budget_pattern_grouped; budget_pattern_bare].

(** [\d+\s*m\b] *)
Definition m_suffix_pattern : regex :=
  RSeqs [RPlus RDigit; RStar RSpace; RChar 109; RBoundary].

(** [(\d+)\s*chambres?] *)
Definition rooms_pattern : regex :=
  RSeqs [RGroup (RPlus RDigit); RStar RSpace; RLit (u "chambre"); ROpt (RChar 115)].

(** [(\d+)\s*m[²2]] *)
Definition area_pattern : regex :=
  RSeqs [RGroup (RPlus RDigit); RStar RSpace; RChar 109;
         RSet [CChar 178; CChar 50]].

(** [(\+212|0)[5-7]\d{8}] *)
Definition phone_pattern_ma : regex :=
  RSeqs [RGroup (RAlt (RLit (u "+212")) (RChar 48));
         RSet [CRange 53 55]; RTimes 8 RDigit].

(** [(\d{10})] *)
Definition phone_pattern_bare : regex := RGroup (RTimes 10 RDigit).

Definition phone_patterns : list regex := [phone_pattern_ma; phone_pattern_bare].

(** [\b[\w\.-]+@[\w\.-]+\.\w+\b] *)
Definition email_pattern : regex :=
  let local := RSet [CWord; CChar 46; CChar 45] in
  RSeqs [RBoundary; RPlus local; RChar 64; RPlus local; RChar 46;
         RPlus RWord; RBoundary].

(** [(?:je m'appelle|mon nom est|je suis)\s+([A-ZÀ-Ÿ][a-zà-ÿ]+(?:\s+[A-ZÀ-Ÿ][a-zà-ÿ]+)?)] *)
Definition name_pattern : regex :=
  let upper := RSet [CRange 65 90; CRange 192 376] in
  let lower := RSet [CRange 97 122; CRange 224 255] in
  let word := RSeq upper (RPlus lower) in
  RSeqs [ RAlt (RLit (u "je m'appelle"))
               (RAlt (RLit (u "mon nom est")) (RLit (u "je suis")));
          RPlus RSpace;
          RGroup (RSeq word (ROpt (RSeq (RPlus RSpace) word))) ].

Definition name_patterns : list regex := [name_pattern].

Section Extraction.
Variable db : unicode_db.

(** The body of the [try] block of the budget loop, for the first match
    [m0] of the current pattern. *)
Definition budget_try (text_lower m0 : str) (criteria : dict) : exn + dict :=
  let amount_str :=
    replace (replace (replace m0 (u " ") []) (u "millions") []) (u "m") [] in
  let? amount := py_int db amount_str in
  let amount :=
    if (if contains (u "million") text_lower then true
        else search db false m_suffix_pattern text_lower)
    then amount * 1000000 else amount in
  let context :=
    slice text_lower (Z.max 0 (find text_lower m0 - 50))
          (find text_lower m0 + 50) in
  if any_in [u "max"; u "jusqu'à"; u "pas plus"] context
  then ret (<["budget_max" := VInt amount]> criteria)
  else if any_in [u "min"; u "au moins"; u "partir"] context
  then ret (<["budget_min" := VInt amount]> criteria)
  else ret (<["budget_max" := VInt amount]> criteria).

(** [for pattern in budget_patterns: ...]; a successful [try] ends in
    [break], a failed one in [pass]. *)
Fixpoint budget_loop (patterns : list regex) (text_lower : str)
    (criteria : dict) : dict :=
  match patterns with
  | [] => criteria
  | pattern :: rest =>
      match findall db true pattern text_lower with
      | [] => budget_loop rest text_lower criteria
      | m0 :: _ =>
          match budget_try text_lower m0 criteria with
          | inr criteria' => criteria'
          | inl _ => budget_loop rest text_lower criteria
          end
      end
  end.

Definition _extract_criteria (conversation_text : str) : exn + dict :=
  let criteria : dict := ∅ in
  let text_lower := str_lower db conversation_text in
  let detected_cities := detect cities_map text_lower in
  let criteria :=
    match detected_cities with
    | [] => criteria
    | _ => <["preferred_cities" := VList detected_cities]> criteria
    end in
  let detected_types := detect types_map text_lower in
  let criteria :=
    match detected_types with
    | [] => criteria
    | _ => <["preferred_types" := VList detected_types]> criteria
    end in
  let criteria :=
    if any_in [u "vente"; u "acheter"; u "achat"; u "achète"] text_lower
    then <["transaction_type" := VStr (u "vente")]> criteria
    else if any_in [u "location"; u "louer"; u "loue"] text_lower
    then <["transaction_type" := VStr (u "location")]> criteria
    else criteria in
  let criteria := budget_loop budget_patterns text_lower criteria in
  let? criteria :=
    match findall db false rooms_pattern text_lower with
    | [] => ret criteria
    | m0 :: _ => let? n := py_int db m0 in ret (<["rooms" := VInt n]> criteria)
    end in
  let? criteria :=
    match findall db false area_pattern text_lower with
    | [] => ret criteria
    | m0 :: _ => let? n := py_int db m0 in ret (<["area" := VInt n]> criteria)
    end in
  ret criteria.

(** [for pattern in patterns: matches = re.findall(...); if matches: ...; break] *)
Fixpoint first_match (icase : bool) (patterns : list regex) (text : str)
  : option str :=
  match patterns with
  | [] => None
  | pattern :: rest =>
      match findall db icase pattern text with
      | [] => first_match icase rest text
      | m0 :: _ => Some m0
      end
  end.

Definition _extract_contact_info (conversation_text : str) : dict :=
  let contact : dict :=
    <["name" := VNone]> (<["phone" := VNone]> (<["email" := VNone]> ∅)) in
  let contact :=
    match first_match false phone_patterns conversation_text with
    | Some m0 => <["phone" := VStr m0]> contact
    | None => contact
    end in
  let contact :=
    match findall db false email_pattern conversation_text with
    | [] => contact
    | m0 :: _ => <["email" := VStr m0]> contact
    end in
  let contact :=
    match first_match true name_patterns conversation_text with
    | Some m0 => <["name" := VStr (strip db m0)]> contact
    | None => contact
    end in
  contact.
End Extraction.

(** ** Scoring *)

Definition _calculate_score (criteria contact_info : dict) : Z :=
  let score := 0 in
  let score :=
    if truthy (py_or (dget criteria "budget_min") (dget criteria "budget_max"))
    then score + 25 else score in
  let score := if truthy (dget criteria "preferred_cities") then score + 20 else score in
  let score := if truthy (dget criteria "preferred_types") then score + 15 else score in
  let score := if truthy (dget criteria "transaction_type") then score + 10 else score in
  let score := if truthy (dget criteria "rooms") then score + 5 else score in
  let score := if truthy (dget criteria "area") then score + 5 else score in
  let score := if truthy (dget contact_info "name") then score + 5 else score in
  let score := if truthy (dget contact_info "phone") then score + 10 else score in
  let score := if truthy (dget contact_info "email") then score + 5 else score in
  Z.min score 100.

Definition _determine_lead_quality (score : Z) : string :=
  if 70 <=? score then "hot"
  else if 40 <=? score then "warm"
  else "cold".


(** ** Conversation state *)

Inductive Role := User | Assistant.

Definition role_str (r : Role) : str :=
  match r with
  | User => u "user"
  | Assistant => u "assistant"
  end.

Record Message := {
  role : Role;
  content : str;
  timestamp : nat
}.

(** The [conversation_state] dictionary; [ended_at] and [end_reason] are the
    keys that only [end_conversation] adds. *)
Record ConversationState := {
  conversation_id : string;
  messages : list Message;
  criteria : dict;
  contact_info : dict;
  qualification_score : Z;
  lead_quality : string;
  status : string;
  lead_id : option string;
  created_at : nat;
  user_id : option string;
  ended_at : option nat;
  end_reason : option string
}.

Definition set_messages (v : list Message) (s : ConversationState) :=
  {| conversation_id := conversation_id s; messages := v; criteria := criteria s;
     contact_info := contact_info s; qualification_score := qualification_score s;
     lead_quality := lead_quality s; status := status s; lead_id := lead_id s;
     created_at := created_at s; user_id := user_id s; ended_at := ended_at s;
     end_reason := end_reason s |}.

Definition set_criteria (v : dict) (s : ConversationState) :=
  {| conversation_id := conversation_id s; messages := messages s; criteria := v;
     contact_info := contact_info s; qualification_score := qualification_score s;
     lead_quality := lead_quality s; status := status s; lead_id := lead_id s;
     created_at := created_at s; user_id := user_id s; ended_at := ended_at s;
     end_reason := end_reason s |}.

Definition set_contact_info (v : dict) (s : ConversationState) :=
  {| conversation_id := conversation_id s; messages := messages s;
     criteria := criteria s; contact_info := v;
     qualification_score := qualification_score s;
     lead_quality := lead_quality s; status := status s; lead_id := lead_id s;
     created_at := created_at s; user_id := user_id s; ended_at := ended_at s;
     end_reason := end_reason s |}.

Definition set_score (v : Z) (q : string) (s : ConversationState) :=
  {| conversation_id := conversation_id s; messages := messages s;
     criteria := criteria s; contact_info := contact_info s;
     qualification_score := v; lead_quality := q; status := status s;
     lead_id := lead_id s; created_at := created_at s; user_id := user_id s;
     ended_at := ended_at s; end_reason := end_reason s |}.

Definition set_lead_id (v : option string) (s : ConversationState) :=
  {| conversation_id := conversation_id s; messages := messages s;
     criteria := criteria s; contact_info := contact_info s;
     qualification_score := qualification_score s;
     lead_quality := lead_quality s; status := status s; lead_id := v;
     created_at := created_at s; user_id := user_id s; ended_at := ended_at s;
     end_reason := end_reason s |}.

Definition set_ended (st : string) (at_ : nat) (reason : string)
    (s : ConversationState) :=
  {| conversation_id := conversation_id s; messages := messages s;
     criteria := criteria s; contact_info := contact_info s;
     qualification_score := qualification_score s;
     lead_quality := lead_quality s; status := st; lead_id := lead_id s;
     created_at := created_at s; user_id := user_id s; ended_at := Some at_;
     end_reason := Some reason |}.

(** [bool(x)] for an optional identifier. *)
Definition id_truthy (x : option string) : bool :=
  match x with
  | Some EmptyString | None => false
  | Some _ => true
  end.

(** [bool(d)] for a dictionary. *)
Definition dict_truthy (d : dict) : bool := negb (bool_decide (d = ∅)).

(** ** The store and the language model *)

(** A filter of a query on the [properties] table. *)
Inductive Filter :=
| in_ (column : string) (v : value)
| eq_ (column : string) (v : value)
| lte (column : string) (v : value)
| gte (column : string) (v : value)
| ilike (column : string) (pattern : str).

Record LeadData := {
  lead_name : value;
  lead_phone : value;
  lead_email : value;
  lead_preferred_cities : value;
  lead_preferred_types : value;
  lead_budget_min : value;
  lead_budget_max : value;
  lead_qualification_score : Z;
  lead_source : string;
  lead_status : string
}.

(** The [data] passed to [upsert] by [_save_conversation_to_db]. *)
Record ConversationRow := {
  row_id : string;
  row_state : ConversationState;
  row_qualification_score : Z;
  row_status : string;
  row_lead_id : option string;
  row_updated_at : nat
}.

(** What lies outside the agent: its cache, the three tables of the store (the
    [properties] table through the queries it received), and the number of
    readings of the clock and of the random source so far. Whether the
    [conversations] table answers a request is told by the collaborators. *)
Record World := {
  cache : gmap string ConversationState;
  conversations : gmap string ConversationRow;
  leads : list LeadData;
  property_queries : list (list Filter);
  ticks : nat
}.

Definition set_cache (v : gmap string ConversationState) (w : World) :=
  {| cache := v; conversations := conversations w; leads := leads w;
     property_queries := property_queries w; ticks := ticks w |}.

Definition set_conversations (v : gmap string ConversationRow) (w : World) :=
  {| cache := cache w; conversations := v; leads := leads w;
     property_queries := property_queries w; ticks := ticks w |}.

Definition set_leads (v : list LeadData) (w : World) :=
  {| cache := cache w; conversations := conversations w; leads := v;
     property_queries := property_queries w; ticks := ticks w |}.

Definition set_property_queries (v : list (list Filter)) (w : World) :=
  {| cache := cache w; conversations := conversations w; leads := leads w;
     property_queries := v; ticks := ticks w |}.

(** [datetime.utcnow()] *)
Definition utcnow (w : World) : nat * World :=
  (ticks w,
   {| cache := cache w; conversations := conversations w; leads := leads w;
      property_queries := property_queries w; ticks := S (ticks w) |}).

(** The answers of the collaborators.
    - [generate_ai_response] stands for [_generate_ai_response]: the reply of
      the Hugging Face endpoint or one of the fallback sentences; building the
      prompt formats prices as floating-point numbers and can raise.
    - [generate_summary] stands for [_generate_summary], which formats the
      budget as a floating-point number and can raise.
    - [execute_properties] answers a query of at most five rows on the
      [properties] table, [None] when the request fails.
    - [insert_lead] gives the identifier of an inserted lead, [None] when the
      insertion fails.
    - [select_conversation table id] tells whether the [conversations] table
      answers the select of [_get_conversation]; when it does not, the
      request raises and the exception is logged.
    - [upsert_conversation table row] tells whether the [conversations] table
      accepts the upsert of [_save_conversation_to_db]; when it does not, the
      request raises, the exception is logged and the table is left as it
      was. *)
Record Env := {
  unicode : unicode_db;
  uuid4 : nat -> string;
  generate_ai_response : ConversationState -> list dict -> exn + str;
  generate_summary : ConversationState -> exn + str;
  execute_properties : list Filter -> option (list dict);
  insert_lead : list LeadData -> LeadData -> option string;
  select_conversation : gmap string ConversationRow -> string -> bool;
  upsert_conversation : gmap string ConversationRow -> ConversationRow -> bool
}.

Definition WELCOME_MESSAGE : str :=
  u "Bonjour ! 👋 Je suis l'assistant SABBAR, votre aide pour trouver la propriété idéale au Maroc.

Je peux vous aider à trouver un bien qui correspond parfaitement à vos besoins.

Parlez-moi de ce que vous recherchez : budget, ville, type de bien... 🏡".

(** The result dictionary of [_process_message]. *)
Record TurnResult := {
  response : str;
  turn_score : Z;
  turn_quality : string;
  should_create_lead : value;
  conversation_complete : bool;
  properties_shown : bool;
  matched_properties_count : nat;
  extracted_budget : bool;
  extracted_location : bool;
  extracted_property_type : bool;
  extracted_contact : bool
}.

(** The result dictionary of [continue_conversation]. *)
Record ContinueResult := {
  cont_turn : TurnResult;
  cont_lead_id : option string
}.

(** The result dictionary of [end_conversation]. *)
Record EndResult := {
  end_status : string;
  end_score : Z;
  end_quality : string;
  lead_created : bool;
  end_lead_id : option string;
  messages_count : nat;
  summary : str
}.

(** The result dictionary of [start_conversation]. *)
Record StartResult := {
  start_conversation_id : string;
  start_response : str;
  start_status : string;
  start_score : Z
}.

(** The dictionary returned by [get_conversation_state]. *)
Record StateView := {
  view_conversation_id : string;
  view_messages : list Message;
  view_qualification_score : Z;
  view_lead_quality : string;
  view_criteria : dict;
  view_contact_info : dict;
  view_status : string;
  view_lead_id : option string
}.

Section Lifecycle.
Variable env : Env.

Definition add_filter (criteria : dict) (key : string)
    (f : value -> Filter) (query : list Filter) : list Filter :=
  if truthy (dget criteria key) then query ++ [f (dget criteria key)] else query.

(** The filters put on [table("properties").select("*")]. *)
Definition properties_query (criteria : dict) : list Filter :=
  let query := [] in
  let query := add_filter criteria "preferred_cities" (in_ "city") query in
  let query := add_filter criteria "preferred_types" (in_ "property_type") query in
  let query := add_filter criteria "transaction_type" (eq_ "transaction_type") query in
  let query := add_filter criteria "budget_max" (lte "price") query in
  let query := add_filter criteria "budget_min" (gte "price") query in
  let query := add_filter criteria "rooms" (gte "bedrooms") query in
  query.

Definition _match_properties (criteria : dict) (w : World)
  : list dict * World :=
  let query := properties_query criteria in
  let w := set_property_queries (property_queries w ++ [query]) w in
  match execute_properties env query with
  | Some rows => (rows, w)
  | None => ([], w)
  end.

(** [score >= 50 and contact_info["name"] and contact_info["phone"]] *)
Definition should_create_lead_value (score : Z) (contact_info : dict)
  : exn + value :=
  if 50 <=? score then
    let? name := dindex contact_info "name" in
    if truthy name then dindex contact_info "phone" else ret name
  else ret (VBool false).

Definition conversation_text_of (msgs : list Message) : str :=
  join [10%N] (map (fun msg => role_str (role msg) ++ u ": " ++ content msg) msgs).

(** The state is the dictionary the caller passed: what was written to it
    before an exception stays written. *)
Definition _process_message (conversation_state : ConversationState)
    (user_message : str) (w : World)
  : (exn + TurnResult) * ConversationState * World :=
  let '(now, w) := utcnow w in
  let st := set_messages
              (messages conversation_state
               ++ [{| role := User; content := user_message; timestamp := now |}])
              conversation_state in
  let conversation_text := conversation_text_of (messages st) in
  match _extract_criteria (unicode env) conversation_text with
  | inl e => (inl e, st, w)
  | inr new_criteria =>
  let st := set_criteria (dupdate (criteria st) new_criteria) st in
  let contact := _extract_contact_info (unicode env) conversation_text in
  let st := set_contact_info (dupdate (contact_info st) contact) st in
  let score := _calculate_score (criteria st) (contact_info st) in
  let quality := _determine_lead_quality score in
  let st := set_score score quality st in
  let '(matched_properties, w) :=
    if dict_truthy (criteria st)
    then _match_properties (criteria st) w
    else ([], w) in
  match generate_ai_response env st matched_properties with
  | inl e => (inl e, st, w)
  | inr response_text =>
  let '(now, w) := utcnow w in
  let st := set_messages
              (messages st
               ++ [{| role := Assistant; content := response_text; timestamp := now |}])
              st in
  match should_create_lead_value score (contact_info st) with
  | inl e => (inl e, st, w)
  | inr create =>
  let complete := (70 <=? score) || (20 <? length (messages st))%nat in
  match dindex (contact_info st) "phone" with
  | inl e => (inl e, st, w)
  | inr phone =>
      (inr {| response := response_text;
              turn_score := score;
              turn_quality := quality;
              should_create_lead := create;
              conversation_complete := complete;
              properties_shown := (0 <? length matched_properties)%nat;
              matched_properties_count := length matched_properties;
              extracted_budget :=
                truthy (py_or (dget (criteria st) "budget_min")
                              (dget (criteria st) "budget_max"));
              extracted_location := truthy (dget (criteria st) "preferred_cities");
              extracted_property_type := truthy (dget (criteria st) "preferred_types");
              extracted_contact := truthy phone |},
       st, w)
  end end end end.

(** A select that raises is logged and gives [None], as a select that finds
    no row does. *)
Definition _get_conversation (id : string) (w : World)
  : option ConversationState * World :=
  match cache w !! id with
  | Some st => (Some st, w)
  | None =>
      if select_conversation env (conversations w) id then
        match conversations w !! id with
        | Some row =>
            (Some (row_state row),
             set_cache (<[id := row_state row]> (cache w)) w)
        | None => (None, w)
        end
      else (None, w)
  end.

(** An upsert that raises is logged: the caller goes on, the table
    unwritten. *)
Definition _save_conversation_to_db (st : ConversationState) (w : World)
  : World :=
  let '(now, w) := utcnow w in
  let data := {| row_id := conversation_id st;
                 row_state := st;
                 row_qualification_score := qualification_score st;
                 row_status := status st;
                 row_lead_id := lead_id st;
                 row_updated_at := now |} in
  if upsert_conversation env (conversations w) data
  then set_conversations (<[conversation_id st := data]> (conversations w)) w
  else w.

Definition lead_data_of (st : ConversationState) : exn + LeadData :=
  let? name := dindex (contact_info st) "name" in
  let? phone := dindex (contact_info st) "phone" in
  let? email := dindex (contact_info st) "email" in
  ret {| lead_name := py_or name (VStr (u "Prospect"));
         lead_phone := phone;
         lead_email := email;
         lead_preferred_cities :=
           default (VList []) (criteria st !! "preferred_cities");
         lead_preferred_types :=
           default (VList []) (criteria st !! "preferred_types");
         lead_budget_min := dget (criteria st) "budget_min";
         lead_budget_max := dget (criteria st) "budget_max";
         lead_qualification_score := qualification_score st;
         lead_source := "chatbot";
         lead_status := "nouveau" |}.

(** Every failure inside [_create_lead] is caught and gives [None]. *)
Definition _create_lead (st : ConversationState) (w : World)
  : option string * World :=
  match lead_data_of st with
  | inl _ => (None, w)
  | inr lead_data =>
      match insert_lead env (leads w) lead_data with
      | Some id => (Some id, set_leads (leads w ++ [lead_data]) w)
      | None => (None, w)
      end
  end.

Definition start_conversation (initial_message : option str)
    (user : option string) (w : World) : (exn + StartResult) * World :=
  let '(seed, w) := utcnow w in
  let id := uuid4 env seed in
  let '(now, w) := utcnow w in
  let st := {| conversation_id := id; messages := []; criteria := ∅;
               contact_info :=
                 <["name" := VNone]> (<["phone" := VNone]> (<["email" := VNone]> ∅));
               qualification_score := 0; lead_quality := "cold";
               status := "active"; lead_id := None; created_at := now;
               user_id := user; ended_at := None; end_reason := None |} in
  let '(r, st, w) :=
    match initial_message with
    | None | Some [] =>
        let '(now, w) := utcnow w in
        (inr WELCOME_MESSAGE : exn + str,
         set_messages
           (messages st
            ++ [{| role := Assistant; content := WELCOME_MESSAGE; timestamp := now |}])
           st,
         w)
    | Some msg =>
        let '(r, st, w) := _process_message st msg w in
        (let? result := r in ret (response result), st, w)
    end in
  match r with
  | inl e => (inl e, w)
  | inr response_text =>
      let w := set_cache (<[id := st]> (cache w)) w in
      let w := _save_conversation_to_db st w in
      (inr {| start_conversation_id := id;
              start_response := response_text;
              start_status := "active";
              start_score := qualification_score st |}, w)
  end.

(** The state found by [_get_conversation] is the object held by the cache:
    each in-place update of it is an update of the cache entry. *)
Definition continue_conversation (id : string) (user_message : str)
    (w : World) : (exn + ContinueResult) * World :=
  match _get_conversation id w with
  | (None, w) => (inl ValueError, w)
  | (Some st, w) =>
      let '(r, st, w) := _process_message st user_message w in
      let w := set_cache (<[id := st]> (cache w)) w in
      match r with
      | inl e => (inl e, w)
      | inr result =>
          let w := _save_conversation_to_db st w in
          let '(new_lead, st, w) :=
            if truthy (should_create_lead result) && negb (id_truthy (lead_id st))
            then
              let '(new_lead, w) := _create_lead st w in
              let st := set_lead_id new_lead st in
              let w := set_cache (<[id := st]> (cache w)) w in
              (new_lead, st, _save_conversation_to_db st w)
            else (None, st, w) in
          (inr {| cont_turn := result;
                  cont_lead_id :=
                    if id_truthy new_lead then new_lead else lead_id st |}, w)
      end
  end.

(** [None] is the [{"error": ...}] dictionary returned for an unknown
    conversation. *)
Definition end_conversation (id : string) (reason : string) (w : World)
  : (exn + option EndResult) * World :=
  match _get_conversation id w with
  | (None, w) => (inr None, w)
  | (Some st, w) =>
      let '(created, new_lead, w) :=
        if negb (id_truthy (lead_id st)) && (50 <=? qualification_score st)
        then let '(l, w) := _create_lead st w in (true, l, w)
        else (false, lead_id st, w) in
      match generate_summary env st with
      | inl e => (inl e, w)
      | inr text =>
          let '(now, w) := utcnow w in
          let st := set_ended "completed" now reason st in
          let w := set_cache (<[id := st]> (cache w)) w in
          let w := _save_conversation_to_db st w in
          let w := set_cache (delete id (cache w)) w in
          (inr (Some {| end_status := "completed";
                        end_score := qualification_score st;
                        end_quality := lead_quality st;
                        lead_created := created;
                        end_lead_id := new_lead;
                        messages_count := length (messages st);
                        summary := text |}), w)
      end
  end.

Definition get_conversation_state (id : string) (w : World)
  : option StateView * World :=
  match _get_conversation id w with
  | (None, w) => (None, w)
  | (Some st, w) =>
      (Some {| view_conversation_id := id;
               view_messages := messages st;
               view_qualification_score := qualification_score st;
               view_lead_quality := lead_quality st;
               view_criteria := criteria st;
               view_contact_info := contact_info st;
               view_status := status st;
               view_lead_id := lead_id st |}, w)
  end.
End Lifecycle.

(** [len(self._conversations_cache)] *)
Definition get_active_conversations_count (w : World) : nat := size (cache w).

(** ** [QualificationAgent._build_mistral_prompt]

    A message is read through its role and its content. *)

Definition is_role (name : string) (m : str * str) : bool :=
  bool_decide (fst m = u name).

(** [for i, msg in enumerate(user_messages): ...], [n] being
    [len(user_messages)]. *)
Fixpoint prompt_loop (user_messages : list (str * str)) (i n : nat)
    (prompt : str) : str :=
  match user_messages with
  | [] => prompt
  | msg :: rest =>
      let prompt :=
        if is_role "user" msg then
          if (i =? n - 1)%nat
          then prompt ++ snd msg ++ u " [/INST]"
          else prompt ++ snd msg ++ u " [/INST] "
        else if is_role "assistant" msg then
          let prompt := prompt ++ snd msg ++ u "</s>" in
          if (i <? n - 1)%nat then prompt ++ u "<s>[INST] " else prompt
        else prompt in
      prompt_loop rest (S i) n prompt
  end.

Definition _build_mistral_prompt (messages : list (str * str)) : str :=
  let system_msg :=
    match List.filter (is_role "system") messages with
    | m :: _ => snd m
    | [] => []
    end in
  let user_messages :=
    List.filter (fun m => negb (is_role "system" m)) messages in
  let prompt := u "<s>[INST] " ++ system_msg ++ [10; 10]%N in
  prompt_loop user_messages 0 (length user_messages) prompt.

End Agent.

(** ** [app/ai/tools.py] *)

Module Tools.

(** [engagement_level / 2] is a floating-point division and [int] truncates
    it: the quotient rounded towards zero. *)
Definition calculate_qualification_score
    (budget_defined location_defined property_type_defined
     timeframe_defined contact_info_complete : bool)
    (specific_criteria_count engagement_level : Z) : Z :=
  let score := 0 in
  let score := if budget_defined then score + 25 else score in
  let score := if location_defined then score + 20 else score in
  let score := if property_type_defined then score + 15 else score in
  let score := if timeframe_defined then score + 10 else score in
  let score := if contact_info_complete then score + 15 else score in
  let criteria_points := Z.min (specific_criteria_count * 5) 10 in
  let score := score + criteria_points in
  let engagement_points := Z.min (Z.quot engagement_level 2) 5 in
  let score := score + engagement_points in
  score.

Definition classify_lead_quality (score : Z) : string :=
  if 70 <=? score then "hot"
  else if 50 <=? score then "warm"
  else "cold".

Record PropertySearchCriteria := {
  transaction_type : option str;
  property_type : option str;
  city : option str;
  neighborhood : option str;
  min_price : option Z;
  max_price : option Z;
  min_bedrooms : option Z;
  min_surface : option Z
}.

Definition str_truthy (x : option str) : bool :=
  match x with
  | Some (_ :: _) => true
  | _ => false
  end.

Definition num_truthy (x : option Z) : bool :=
  match x with
  | Some n => negb (n =? 0)
  | None => false
  end.

Definition list_truthy {A} (l : list A) : bool :=
  match l with
  | [] => false
  | _ => true
  end.

Definition str_filter (x : option str) (f : value -> Agent.Filter)
    (query : list Agent.Filter) : list Agent.Filter :=
  match x with
  | Some s => if str_truthy x then query ++ [f (VStr s)] else query
  | None => query
  end.

Definition num_filter (x : option Z) (f : value -> Agent.Filter)
    (query : list Agent.Filter) : list Agent.Filter :=
  match x with
  | Some n => if num_truthy x then query ++ [f (VInt n)] else query
  | None => query
  end.

Definition like_filter (x : option str) (column : string)
    (query : list Agent.Filter) : list Agent.Filter :=
  match x with
  | Some s =>
      if str_truthy x then query ++ [Agent.ilike column (u "%" ++ s ++ u "%")]
      else query
  | None => query
  end.

(** [PropertySearchTool.search]; [execute query limit] is the answer of the
    store, [None] when the request fails. *)
Definition search (execute : list Agent.Filter -> nat -> option (list dict))
    (criteria : PropertySearchCriteria) (limit : nat) : list dict :=
  let query := [] in
  let query := str_filter (transaction_type criteria) (Agent.eq_ "transaction_type") query in
  let query := str_filter (property_type criteria) (Agent.eq_ "property_type") query in
  let query := like_filter (city criteria) "city" query in
  let query := like_filter (neighborhood criteria) "neighborhood" query in
  let query := num_filter (min_price criteria) (Agent.gte "price") query in
  let query := num_filter (max_price criteria) (Agent.lte "price") query in
  let query := num_filter (min_bedrooms criteria) (Agent.gte "bedrooms") query in
  let query := num_filter (min_surface criteria) (Agent.gte "surface") query in
  let query := query ++ [Agent.eq_ "status" (VStr (u "available"))] in
  match execute query limit with
  | Some rows => rows
  | None => []
  end.

End Tools.

(** ** [app/ai/state.py] *)

Module State.
Import Tools.

Record Message := {
  role : str;
  content : str;
  timestamp : option nat
}.

Record ConversationState := {
  messages : list Message;
  current_user_message : str;
  assistant_response : str;
  full_name : option str;
  phone : option str;
  email : option str;
  transaction_type : option str;
  property_type : option str;
  cities : list str;
  neighborhoods : list str;
  budget_min : option Z;
  budget_max : option Z;
  bedrooms : option Z;
  surface_min : option Z;
  amenities : list str;
  timeframe : option str;
  motivation : option str;
  budget_defined : bool;
  location_defined : bool;
  property_type_defined : bool;
  timeframe_defined : bool;
  contact_info_complete : bool;
  specific_criteria_count : Z;
  engagement_level : Z;
  qualification_score : Z;
  lead_quality : string;
  matched_properties : list dict;
  properties_shown : bool;
  conversation_complete : bool;
  should_create_lead : bool;
  lead_id : option string;
  conversation_notes : str;
  conversation_summary : str
}.

Definition create_initial_state : ConversationState := {|
  messages := [];
  current_user_message := [];
  assistant_response := [];
  full_name := None;
  phone := None;
  email := None;
  transaction_type := None;
  property_type := None;
  cities := [];
  neighborhoods := [];
  budget_min := None;
  budget_max := None;
  bedrooms := None;
  surface_min := None;
  amenities := [];
  timeframe := None;
  motivation := None;
  budget_defined := false;
  location_defined := false;
  property_type_defined := false;
  timeframe_defined := false;
  contact_info_complete := false;
  specific_criteria_count := 0;
  engagement_level := 0;
  qualification_score := 0;
  lead_quality := "cold";
  matched_properties := [];
  properties_shown := false;
  conversation_complete := false;
  should_create_lead := false;
  lead_id := None;
  conversation_notes := [];
  conversation_summary := []
|}.

(** The JSON object asked of the model by the extraction prompt, numbers
    being read as integers. *)
Record Extracted := {
  x_budget_min : option Z;
  x_budget_max : option Z;
  x_cities : list str;
  x_property_type : option str;
  x_transaction_type : option str;
  x_bedrooms : option Z;
  x_surface_min : option Z;
  x_amenities : list str;
  x_neighborhoods : list str;
  x_full_name : option str;
  x_phone : option str;
  x_email : option str;
  x_timeframe : option str
}.

(** [list(set(a + b))], up to the order of the result, which Python leaves
    unspecified. *)
Definition merge (a b : list str) : list str := remove_dups (a ++ b).

Definition update_state_with_criteria (state : ConversationState)
    (criteria : Extracted) : ConversationState :=
  let transaction_type' :=
    if str_truthy (x_transaction_type criteria)
    then x_transaction_type criteria else transaction_type state in
  let property_type' :=
    if str_truthy (x_property_type criteria)
    then x_property_type criteria else property_type state in
  let cities' :=
    if list_truthy (x_cities criteria)
    then merge (cities state) (x_cities criteria) else cities state in
  let neighborhoods' :=
    if list_truthy (x_neighborhoods criteria)
    then merge (neighborhoods state) (x_neighborhoods criteria)
    else neighborhoods state in
  let budget_min' :=
    if num_truthy (x_budget_min criteria)
    then x_budget_min criteria else budget_min state in
  let budget_max' :=
    if num_truthy (x_budget_max criteria)
    then x_budget_max criteria else budget_max state in
  let bedrooms' :=
    if num_truthy (x_bedrooms criteria)
    then x_bedrooms criteria else bedrooms state in
  let surface_min' :=
    if num_truthy (x_surface_min criteria)
    then x_surface_min criteria else surface_min state in
  let amenities' :=
    if list_truthy (x_amenities criteria)
    then merge (amenities state) (x_amenities criteria) else amenities state in
  let criteria_count := 0 in
  let criteria_count :=
    if num_truthy bedrooms' then criteria_count + 1 else criteria_count in
  let criteria_count :=
    if num_truthy surface_min' then criteria_count + 1 else criteria_count in
  let criteria_count :=
    if list_truthy amenities'
    then criteria_count + Z.of_nat (length amenities') else criteria_count in
  {| messages := messages state;
     current_user_message := current_user_message state;
     assistant_response := assistant_response state;
     full_name := full_name state;
     phone := phone state;
     email := email state;
     transaction_type := transaction_type';
     property_type := property_type';
     cities := cities';
     neighborhoods := neighborhoods';
     budget_min := budget_min';
     budget_max := budget_max';
     bedrooms := bedrooms';
     surface_min := surface_min';
     amenities := amenities';
     timeframe := timeframe state;
     motivation := motivation state;
     budget_defined := num_truthy budget_min' || num_truthy budget_max';
     location_defined := list_truthy cities' || list_truthy neighborhoods';
     property_type_defined := str_truthy property_type';
     timeframe_defined := timeframe_defined state;
     contact_info_complete := contact_info_complete state;
     specific_criteria_count := criteria_count;
     engagement_level := engagement_level state;
     qualification_score := qualification_score state;
     lead_quality := lead_quality state;
     matched_properties := matched_properties state;
     properties_shown := properties_shown state;
     conversation_complete := conversation_complete state;
     should_create_lead := should_create_lead state;
     lead_id := lead_id state;
     conversation_notes := conversation_notes state;
     conversation_summary := conversation_summary state |}.

(** [sum([has_budget, has_location, has_property_type]) >= 2] *)
Definition is_ready_for_property_search (state : ConversationState) : bool :=
  let has_budget := budget_defined state in
  let has_location := location_defined state in
  let has_property_type := property_type_defined state in
  let criteria_count :=
    Z.b2z has_budget + Z.b2z has_location + Z.b2z has_property_type in
  2 <=? criteria_count.

Definition is_lead_qualified (state : ConversationState) : bool :=
  50 <=? qualification_score state.

End State.

(** ** [app/ai/workflow.py] *)

Module Workflow.
Import Tools State.

(** The collaborators of the graph.
    - [extract state]: the JSON object the model returns for the extraction
      prompt, [None] when the call or the parsing fails.
    - [respond state]: the reply of the model, [inr None] when the call
      fails; formatting the matched properties comes first and can raise.
    - [summarize state]: the summary written by the model, [None] when the
      call fails.
    - [execute]: the answer of the [properties] table.
    - [clock state]: the reading of the clock when a node stamps a message. *)
Record Env := {
  unicode : unicode_db;
  extract : ConversationState -> option Extracted;
  respond : ConversationState -> exn + option str;
  summarize : ConversationState -> option str;
  execute : list Agent.Filter -> nat -> option (list dict);
  clock : ConversationState -> nat
}.

(** [str(n)] *)
Definition str_of_Z (n : Z) : str :=
  u (DecimalString.NilEmpty.string_of_int (Z.to_int n)).

Section Graph.
Variable env : Env.

Definition _process_user_input (state : ConversationState) : ConversationState :=
  {| messages :=
       messages state
       ++ [{| role := u "user"; content := current_user_message state;
              timestamp := Some (clock env state) |}];
     current_user_message := current_user_message state;
     assistant_response := assistant_response state;
     full_name := full_name state; phone := phone state; email := email state;
     transaction_type := transaction_type state;
     property_type := property_type state;
     cities := cities state; neighborhoods := neighborhoods state;
     budget_min := budget_min state; budget_max := budget_max state;
     bedrooms := bedrooms state; surface_min := surface_min state;
     amenities := amenities state;
     timeframe := timeframe state; motivation := motivation state;
     budget_defined := budget_defined state;
     location_defined := location_defined state;
     property_type_defined := property_type_defined state;
     timeframe_defined := timeframe_defined state;
     contact_info_complete := contact_info_complete state;
     specific_criteria_count := specific_criteria_count state;
     engagement_level := Z.min (engagement_level state + 1) 10;
     qualification_score := qualification_score state;
     lead_quality := lead_quality state;
     matched_properties := matched_properties state;
     properties_shown := properties_shown state;
     conversation_complete := conversation_complete state;
     should_create_lead := should_create_lead state;
     lead_id := lead_id state;
     conversation_notes := conversation_notes state;
     conversation_summary := conversation_summary state |}.

(** The updates that follow [update_state_with_criteria] in the node. *)
Definition with_personal_info (state : ConversationState)
    (extracted : Extracted) : ConversationState :=
  let full_name' :=
    if str_truthy (x_full_name extracted)
    then x_full_name extracted else full_name state in
  let phone' :=
    if str_truthy (x_phone extracted) then x_phone extracted else phone state in
  let email' :=
    if str_truthy (x_email extracted) then x_email extracted else email state in
  {| messages := messages state;
     current_user_message := current_user_message state;
     assistant_response := assistant_response state;
     full_name := full_name'; phone := phone'; email := email';
     transaction_type := transaction_type state;
     property_type := property_type state;
     cities := cities state; neighborhoods := neighborhoods state;
     budget_min := budget_min state; budget_max := budget_max state;
     bedrooms := bedrooms state; surface_min := surface_min state;
     amenities := amenities state;
     timeframe :=
       if str_truthy (x_timeframe extracted)
       then x_timeframe extracted else timeframe state;
     motivation := motivation state;
     budget_defined := budget_defined state;
     location_defined := location_defined state;
     property_type_defined := property_type_defined state;
     timeframe_defined :=
       if str_truthy (x_timeframe extracted)
       then true else timeframe_defined state;
     contact_info_complete := str_truthy full_name' && str_truthy phone';
     specific_criteria_count := specific_criteria_count state;
     engagement_level := engagement_level state;
     qualification_score := qualification_score state;
     lead_quality := lead_quality state;
     matched_properties := matched_properties state;
     properties_shown := properties_shown state;
     conversation_complete := conversation_complete state;
     should_create_lead := should_create_lead state;
     lead_id := lead_id state;
     conversation_notes := conversation_notes state;
     conversation_summary := conversation_summary state |}.

Definition _extract_criteria (state : ConversationState) : ConversationState :=
  match extract env state with
  | Some extracted =>
      with_personal_info (update_state_with_criteria state extracted) extracted
  | None => state
  end.

Definition with_should_create_lead (state : ConversationState) (v : bool)
  : ConversationState :=
  {| messages := messages state;
     current_user_message := current_user_message state;
     assistant_response := assistant_response state;
     full_name := full_name state; phone := phone state; email := email state;
     transaction_type := transaction_type state;
     property_type := property_type state;
     cities := cities state; neighborhoods := neighborhoods state;
     budget_min := budget_min state; budget_max := budget_max state;
     bedrooms := bedrooms state; surface_min := surface_min state;
     amenities := amenities state;
     timeframe := timeframe state; motivation := motivation state;
     budget_defined := budget_defined state;
     location_defined := location_defined state;
     property_type_defined := property_type_defined state;
     timeframe_defined := timeframe_defined state;
     contact_info_complete := contact_info_complete state;
     specific_criteria_count := specific_criteria_count state;
     engagement_level := engagement_level state;
     qualification_score := qualification_score state;
     lead_quality := lead_quality state;
     matched_properties := matched_properties state;
     properties_shown := properties_shown state;
     conversation_complete := conversation_complete state;
     should_create_lead := v;
     lead_id := lead_id state;
     conversation_notes := conversation_notes state;
     conversation_summary := conversation_summary state |}.

Definition _calculate_score (state : ConversationState) : ConversationState :=
  let score :=
    calculate_qualification_score
      (budget_defined state) (location_defined state)
      (property_type_defined state) (timeframe_defined state)
      (contact_info_complete state) (specific_criteria_count state)
      (engagement_level state) in
  let state :=
    {| messages := messages state;
       current_user_message := current_user_message state;
       assistant_response := assistant_response state;
       full_name := full_name state; phone := phone state; email := email state;
       transaction_type := transaction_type state;
       property_type := property_type state;
       cities := cities state; neighborhoods := neighborhoods state;
       budget_min := budget_min state; budget_max := budget_max state;
       bedrooms := bedrooms state; surface_min := surface_min state;
       amenities := amenities state;
       timeframe := timeframe state; motivation := motivation state;
       budget_defined := budget_defined state;
       location_defined := location_defined state;
       property_type_defined := property_type_defined state;
       timeframe_defined := timeframe_defined state;
       contact_info_complete := contact_info_complete state;
       specific_criteria_count := specific_criteria_count state;
       engagement_level := engagement_level state;
       qualification_score := score;
       lead_quality := classify_lead_quality score;
       matched_properties := matched_properties state;
       properties_shown := properties_shown state;
       conversation_complete := conversation_complete state;
       should_create_lead := should_create_lead state;
       lead_id := lead_id state;
       conversation_notes := conversation_notes state;
       conversation_summary := conversation_summary state |} in
  with_should_create_lead state
    (is_lead_qualified state && contact_info_complete state).

Definition message_lower (state : ConversationState) : str :=
  str_lower (unicode env) (current_user_message state).

Definition _should_search_properties (state : ConversationState) : string :=
  let should_search :=
    is_ready_for_property_search state
    && (negb (properties_shown state)
        || contains (u "propriété") (message_lower state)
        || contains (u "bien") (message_lower state)) in
  if should_search then "search" else "skip".

Definition _search_properties (state : ConversationState) : ConversationState :=
  let criteria :=
    {| Tools.transaction_type := transaction_type state;
       Tools.property_type := property_type state;
       city := head (cities state);
       neighborhood := head (neighborhoods state);
       min_price := budget_min state;
       max_price := budget_max state;
       min_bedrooms := bedrooms state;
       min_surface := surface_min state |} in
  let properties := search (execute env) criteria 5 in
  {| messages := messages state;
     current_user_message := current_user_message state;
     assistant_response := assistant_response state;
     full_name := full_name state; phone := phone state; email := email state;
     transaction_type := transaction_type state;
     property_type := property_type state;
     cities := cities state; neighborhoods := neighborhoods state;
     budget_min := budget_min state; budget_max := budget_max state;
     bedrooms := bedrooms state; surface_min := surface_min state;
     amenities := amenities state;
     timeframe := timeframe state; motivation := motivation state;
     budget_defined := budget_defined state;
     location_defined := location_defined state;
     property_type_defined := property_type_defined state;
     timeframe_defined := timeframe_defined state;
     contact_info_complete := contact_info_complete state;
     specific_criteria_count := specific_criteria_count state;
     engagement_level := engagement_level state;
     qualification_score := qualification_score state;
     lead_quality := lead_quality state;
     matched_properties := properties;
     properties_shown := true;
     conversation_complete := conversation_complete state;
     should_create_lead := should_create_lead state;
     lead_id := lead_id state;
     conversation_notes := conversation_notes state;
     conversation_summary := conversation_summary state |}.

Definition with_response (state : ConversationState) (text : str)
    (msgs : list Message) : ConversationState :=
  {| messages := msgs;
     current_user_message := current_user_message state;
     assistant_response := text;
     full_name := full_name state; phone := phone state; email := email state;
     transaction_type := transaction_type state;
     property_type := property_type state;
     cities := cities state; neighborhoods := neighborhoods state;
     budget_min := budget_min state; budget_max := budget_max state;
     bedrooms := bedrooms state; surface_min := surface_min state;
     amenities := amenities state;
     timeframe := timeframe state; motivation := motivation state;
     budget_defined := budget_defined state;
     location_defined := location_defined state;
     property_type_defined := property_type_defined state;
     timeframe_defined := timeframe_defined state;
     contact_info_complete := contact_info_complete state;
     specific_criteria_count := specific_criteria_count state;
     engagement_level := engagement_level state;
     qualification_score := qualification_score state;
     lead_quality := lead_quality state;
     matched_properties := matched_properties state;
     properties_shown := properties_shown state;
     conversation_complete := conversation_complete state;
     should_create_lead := should_create_lead state;
     lead_id := lead_id state;
     conversation_notes := conversation_notes state;
     conversation_summary := conversation_summary state |}.

Definition _generate_response (state : ConversationState)
  : exn + ConversationState :=
  let? reply := respond env state in
  match reply with
  | Some assistant_message =>
      ret (with_response state assistant_message
             (messages state
              ++ [{| role := u "assistant"; content := assistant_message;
                     timestamp := Some (clock env state) |}]))
  | None =>
      ret (with_response state
             (u "Je suis désolé, j'ai rencontré un problème technique. Pouvez-vous reformuler votre message ?")
             (messages state))
  end.

Definition farewell_words : list str :=
  [u "merci"; u "au revoir"; u "bye"; u "stop"; u "terminé"; u "fini";
   u "ça suffit"].

Definition user_wants_to_end (state : ConversationState) : bool :=
  any_in farewell_words (message_lower state).

Definition _should_continue_conversation (state : ConversationState) : string :=
  let should_finalize :=
    (should_create_lead state && contact_info_complete state)
    || user_wants_to_end state in
  if should_finalize then "finalize" else "continue".

Definition _finalize_conversation (state : ConversationState) : ConversationState :=
  let text :=
    match summarize env state with
    | Some text => text
    | None =>
        u "Conversation de qualification - Score: "
        ++ str_of_Z (qualification_score state) ++ u "/100"
    end in
  {| messages := messages state;
     current_user_message := current_user_message state;
     assistant_response := assistant_response state;
     full_name := full_name state; phone := phone state; email := email state;
     transaction_type := transaction_type state;
     property_type := property_type state;
     cities := cities state; neighborhoods := neighborhoods state;
     budget_min := budget_min state; budget_max := budget_max state;
     bedrooms := bedrooms state; surface_min := surface_min state;
     amenities := amenities state;
     timeframe := timeframe state; motivation := motivation state;
     budget_defined := budget_defined state;
     location_defined := location_defined state;
     property_type_defined := property_type_defined state;
     timeframe_defined := timeframe_defined state;
     contact_info_complete := contact_info_complete state;
     specific_criteria_count := specific_criteria_count state;
     engagement_level := engagement_level state;
     qualification_score := qualification_score state;
     lead_quality := lead_quality state;
     matched_properties := matched_properties state;
     properties_shown := properties_shown state;
     conversation_complete := true;
     should_create_lead := should_create_lead state;
     lead_id := lead_id state;
     conversation_notes := conversation_notes state;
     conversation_summary := text |}.

Definition with_user_message (state : ConversationState) (msg : str)
  : ConversationState :=
  let s := state in
  {| messages := messages s;
     current_user_message := msg;
     assistant_response := assistant_response s;
     full_name := full_name s; phone := phone s; email := email s;
     transaction_type := transaction_type s;
     property_type := property_type s;
     cities := cities s; neighborhoods := neighborhoods s;
     budget_min := budget_min s; budget_max := budget_max s;
     bedrooms := bedrooms s; surface_min := surface_min s;
     amenities := amenities s;
     timeframe := timeframe s; motivation := motivation s;
     budget_defined := budget_defined s;
     location_defined := location_defined s;
     property_type_defined := property_type_defined s;
     timeframe_defined := timeframe_defined s;
     contact_info_complete := contact_info_complete s;
     specific_criteria_count := specific_criteria_count s;
     engagement_level := engagement_level s;
     qualification_score := qualification_score s;
     lead_quality := lead_quality s;
     matched_properties := matched_properties s;
     properties_shown := properties_shown s;
     conversation_complete := conversation_complete s;
     should_create_lead := should_create_lead s;
     lead_id := lead_id s;
     conversation_notes := conversation_notes s;
     conversation_summary := conversation_summary s |}.

(** The state when the node [calculate_score] has run: the entry point
    [process_user_input], then the edges to [extract_criteria] and
    [calculate_score]. *)
Definition scored (user_message : str)
    (existing_state : option ConversationState) : ConversationState :=
  let state := default create_initial_state existing_state in
  let state := with_user_message state user_message in
  _calculate_score (_extract_criteria (_process_user_input state)).

(** The conditional edge after [calculate_score]. *)
Definition searched (state : ConversationState) : ConversationState :=
  if String.eqb (_should_search_properties state) "search"
  then _search_properties state else state.

(** The conditional edge after [generate_response]. *)
Definition finalized (state : ConversationState) : ConversationState :=
  if String.eqb (_should_continue_conversation state) "finalize"
  then _finalize_conversation state else state.

(** [QualificationWorkflow.run]: the nodes of the graph along its edges. Each
    node works on the state dictionary it is given and returns it; how the
    graph runtime merges what a node returns is not part of the model. *)
Definition run (user_message : str)
    (existing_state : option ConversationState) : exn + ConversationState :=
  let? state := _generate_response (searched (scored user_message existing_state)) in
  ret (finalized state).
End Graph.

End Workflow.

(** * Vocabulary of the properties *)

Definition pts (n : Z) (b : bool) : Z := if b then n else 0.

(** A key is present when the mapping gives it a value other than [None]. *)
Definition present (d : dict) (k : string) : bool :=
  match d !! k with
  | Some VNone | None => false
  | Some _ => true
  end.

(** The turn score in the words of the specification. *)
Definition specified_turn_score (criteria contact : dict) : Z :=
  Z.min
    (pts 25 (present criteria "budget_min" || present criteria "budget_max")
     + pts 20 (present criteria "preferred_cities")
     + pts 15 (present criteria "preferred_types")
     + pts 10 (present criteria "transaction_type")
     + pts 5 (present criteria "rooms")
     + pts 5 (present criteria "area")
     + pts 5 (present contact "name")
     + pts 10 (present contact "phone")
     + pts 5 (present contact "email"))
    100.

(** The sum of the points of the signals that hold, a signal holding when its
    value is true in Python's sense. *)
Definition turn_points (criteria contact : dict) : Z :=
  pts 25 (truthy (dget criteria "budget_min") || truthy (dget criteria "budget_max"))
  + pts 20 (truthy (dget criteria "preferred_cities"))
  + pts 15 (truthy (dget criteria "preferred_types"))
  + pts 10 (truthy (dget criteria "transaction_type"))
  + pts 5 (truthy (dget criteria "rooms"))
  + pts 5 (truthy (dget criteria "area"))
  + pts 5 (truthy (dget contact "name"))
  + pts 10 (truthy (dget contact "phone"))
  + pts 5 (truthy (dget contact "email")).

(** Every signal that holds in [d] holds in [d']. *)
Definition signals_le (d d' : dict) : Prop :=
  forall k, truthy (dget d k) = true -> truthy (dget d' k) = true.

Definition bool_le (b b' : bool) : Prop := b = true -> b' = true.

Definition no_budget (c : dict) : Prop :=
  c !! "budget_min" = None /\ c !! "budget_max" = None.

Definition one_budget (c : dict) : Prop :=
  ~ (is_Some (c !! "budget_min") /\ is_Some (c !! "budget_max")).

Definition no_none (c : dict) : Prop := forall k, c !! k <> Some VNone.

(** The criteria just before the budget loop: cities, types and the
    transaction type. *)
Definition criteria_before_budget (text_lower : str) : dict :=
  let criteria : dict := ∅ in
  let criteria :=
    match Agent.detect Agent.cities_map text_lower with
    | [] => criteria
    | cs => <["preferred_cities" := VList cs]> criteria
    end in
  let criteria :=
    match Agent.detect Agent.types_map text_lower with
    | [] => criteria
    | ts => <["preferred_types" := VList ts]> criteria
    end in
  if any_in [u "vente"; u "acheter"; u "achat"; u "achète"] text_lower
  then <["transaction_type" := VStr (u "vente")]> criteria
  else if any_in [u "location"; u "louer"; u "loue"] text_lower
  then <["transaction_type" := VStr (u "location")]> criteria
  else criteria.


(** The [conversations] table accepts every upsert. *)
Definition accepts_upserts (env : Agent.Env) : Prop :=
  forall table row, Agent.upsert_conversation env table row = true.

(** ** A concrete run

    Collaborators that always answer: the model replies "D'accord.", the
    store finds no property, files every lead as [lead-1], answers every
    select and accepts every upsert. *)

Definition env0 : Agent.Env := {|
  Agent.unicode := latin1;
  Agent.uuid4 := fun _ => "c1"%string;
  Agent.generate_ai_response := fun _ _ => inr (u "D'accord.");
  Agent.generate_summary := fun _ => inr (u "Prospect");
  Agent.execute_properties := fun _ => Some [];
  Agent.insert_lead := fun _ _ => Some "lead-1"%string;
  Agent.select_conversation := fun _ _ => true;
  Agent.upsert_conversation := fun _ _ => true
|}.

Definition world0 : Agent.World := {|
  Agent.cache := ∅;
  Agent.conversations := ∅;
  Agent.leads := [];
  Agent.property_queries := [];
  Agent.ticks := 0
|}.

(** The world once conversation [c1] has been started. *)
Definition started (initial_message : option str) : Agent.World :=
  snd (Agent.start_conversation env0 initial_message None world0).

(** The world once conversation [c1] has been started and ended. *)
Definition ended (initial_message : option str) : Agent.World :=
  snd (Agent.end_conversation env0 "c1" "completed" (started initial_message)).

(** A prospect who gives a type, a city and a budget, and no contact. *)
Definition anonymous_request : str :=
  u "Je cherche un appartement à Casablanca, budget max 2 millions".

(** A fresh workflow state and collaborators for the graph. *)
Definition wenv0 : Workflow.Env := {|
  Workflow.unicode := latin1;
  Workflow.extract := fun _ => None;
  Workflow.respond := fun _ => inr (Some (u "D'accord."));
  Workflow.summarize := fun _ => Some (u "Prospect");
  Workflow.execute := fun _ _ => Some [];
  Workflow.clock := fun _ => 0%nat
|}.

(** Whether a call returned, and the state a conversation has in the store. *)
Definition returned {A} (x : exn + A) : bool :=
  match x with
  | inr _ => true
  | inl _ => false
  end.

Definition stored (w : Agent.World) (id : string)
  : option Agent.ConversationState :=
  Agent.row_state <$> Agent.conversations w !! id.

Definition ended_with {A} (x : exn + option A) : option A :=
  match x with
  | inr (Some a) => Some a
  | _ => None
  end.


(** ** Proof steps *)

(** Projections of the records built by the setters. *)
Ltac proj_simpl :=
  cbn [Agent.utcnow Agent.set_messages Agent.set_criteria
       Agent.set_contact_info Agent.set_score Agent.set_lead_id
       Agent.set_ended Agent.set_cache Agent.set_conversations
       Agent.set_leads Agent.set_property_queries
       Agent.conversation_id Agent.messages Agent.criteria
       Agent.contact_info Agent.qualification_score Agent.lead_quality
       Agent.status Agent.lead_id Agent.created_at Agent.user_id
       Agent.ended_at Agent.end_reason
       Agent.cache Agent.conversations Agent.leads Agent.property_queries
       Agent.ticks fst snd
       Agent.response Agent.turn_score Agent.turn_quality
       Agent.should_create_lead Agent.conversation_complete
       Agent.properties_shown Agent.matched_properties_count
       Agent.cont_turn Agent.cont_lead_id
       Agent.end_status Agent.end_score Agent.end_quality Agent.lead_created
       Agent.end_lead_id Agent.messages_count Agent.summary
       Agent.row_id Agent.row_state Agent.row_qualification_score
       Agent.row_status Agent.row_lead_id Agent.row_updated_at] in *.

(** Closed, decidable facts are settled by evaluation. *)
Ltac by_vm := apply (bool_decide_unpack _); vm_compute; exact I.


(** ** Vocabulary of the further properties *)

(** [c'] lies at or after [c] in the same text. *)
Definition follows (c c' : cursor) : Prop :=
  exists l, rest c = l ++ rest c' /\ pos c' = (pos c + N.of_nat (length l))%N.

(** [m] occurs in [s]. *)
Definition occurs_in (m s : str) : Prop := exists l1 l2, s = l1 ++ m ++ l2.

Definition all_digits (db : unicode_db) (s : str) : Prop :=
  Forall (fun c => is_digit db c = true) s.

(** No run of consecutive decimal digits of [s] is longer than what [int]
    converts. *)
Definition digit_runs_bounded (db : unicode_db) (s : str) : Prop :=
  forall m, occurs_in m s -> all_digits db m ->
            (length m <= int_max_str_digits)%nat.

(** A decimal digit is neither white space nor a sign. *)
Definition digits_plain (db : unicode_db) : Prop :=
  forall c, is_digit db c = true ->
            isspace db c = false /\ c <> 45%N /\ c <> 43%N.

(** A pattern that captures a run of digits and goes on without another
    group: [(\d+)...]. *)
Definition digits_then (r tail : regex) : Prop :=
  r = RSeq (RGroup (RRepeat 1 None RDigit)) tail /\ count_groups tail = 0%nat.

(** A continuation is reached at a later cursor; [keeps] tells whether the
    capture is handed over untouched. *)
Definition reaches (keeps : bool) (m : cont -> cont) : Prop :=
  forall k c cap res,
    m k c cap = Some res ->
    exists c' cap',
      follows c c' /\ k c' cap' = Some res /\ (keeps = true -> cap' = cap).


(** Every match of [r] captures, at the cursor, a text allowed by [Q]. *)
Definition captures (db : unicode_db) (icase : bool) (r : regex)
    (Q : str -> Prop) : Prop :=
  (0 < count_groups r)%nat
  /\ forall size c cf capf,
       match_at db icase size r c = Some (cf, capf) ->
       exists m s,
         Q m /\ rest c = m ++ s
         /\ capf = Some (pos c, (pos c + N.of_nat (length m))%N)
         /\ follows c cf.

Definition opt_insert (k : string) (x : option Z) (c : dict) : dict :=
  match x with
  | Some n => <[k := VInt n]> c
  | None => c
  end.

(** The list stored under a key, empty when there is none. *)
Definition list_at (c : dict) (k : string) : list str :=
  match c !! k with
  | Some (VList l) => l
  | _ => []
  end.

(** What the criteria extractor may write under a key. *)
Definition criterion_typed (k : string) (v : value) : Prop :=
  (k = "preferred_cities"%string /\ exists l, v = VList l /\ l <> [])
  \/ (k = "preferred_types"%string /\ exists l, v = VList l /\ l <> [])
  \/ (k = "transaction_type"%string
      /\ (v = VStr (u "vente") \/ v = VStr (u "location")))
  \/ ((k = "budget_min"%string \/ k = "budget_max"%string
       \/ k = "rooms"%string \/ k = "area"%string)
      /\ exists n, v = VInt n).

Definition criteria_typed (c : dict) : Prop :=
  forall k v, c !! k = Some v -> criterion_typed k v.

(** One of the words occurs in the text. *)
Definition mentions (words : list str) (text : str) : Prop :=
  exists w, w ∈ words /\ occurs_in w text.

Definition purchase_words : list str :=
  [u "vente"; u "acheter"; u "achat"; u "achète"].

Definition rental_words : list str := [u "location"; u "louer"; u "loue"].

Definition floor_words : list str := [u "min"; u "au moins"; u "partir"].

(** Whatever [g] matches, it consumes a text allowed by [Q] and hands the
    capture over untouched. *)
Definition consumes (db : unicode_db) (icase : bool) (g : regex)
    (Q : str -> Prop) : Prop :=
  forall size k c cap res,
    exec db icase size g k c cap = Some res ->
    exists m c',
      Q m /\ rest c = m ++ rest c'
      /\ pos c' = (pos c + N.of_nat (length m))%N
      /\ k c' cap = Some res.

(** ** More concrete runs *)

(** A conversation whose record already holds a phone number and a number
    of rooms, with an empty history. *)
Definition known_prospect : Agent.ConversationState := {|
  Agent.conversation_id := "c1";
  Agent.messages := [];
  Agent.criteria := <["rooms" := VInt 2]> ∅;
  Agent.contact_info := <["phone" := VStr (u "0522000000")]> ∅;
  Agent.qualification_score := 15;
  Agent.lead_quality := "cold";
  Agent.status := "active";
  Agent.lead_id := None;
  Agent.created_at := 0;
  Agent.user_id := None;
  Agent.ended_at := None;
  Agent.end_reason := None
|}.

(** Collaborators whose reply generator raises. *)
Definition env_no_reply : Agent.Env := {|
  Agent.unicode := latin1;
  Agent.uuid4 := fun _ => "c1"%string;
  Agent.generate_ai_response := fun _ _ => inl TypeError;
  Agent.generate_summary := fun _ => inr (u "Prospect");
  Agent.execute_properties := fun _ => Some [];
  Agent.insert_lead := fun _ _ => Some "lead-1"%string;
  Agent.select_conversation := fun _ _ => true;
  Agent.upsert_conversation := fun _ _ => true
|}.

(** A prospect who gives everything a lead needs. *)
Definition full_request : str :=
  u "Je m'appelle Karim Alami, 0612345678, je veux acheter une villa à Rabat, budget max 3 millions".

(** Collaborators whose summary raises. *)
Definition env_no_summary : Agent.Env := {|
  Agent.unicode := latin1;
  Agent.uuid4 := fun _ => "c1"%string;
  Agent.generate_ai_response := fun _ _ => inr (u "D'accord.");
  Agent.generate_summary := fun _ => inl TypeError;
  Agent.execute_properties := fun _ => Some [];
  Agent.insert_lead := fun _ _ => Some "lead-1"%string;
  Agent.select_conversation := fun _ _ => true;
  Agent.upsert_conversation := fun _ _ => true
|}.

(** The [conversations] table answers every select. *)
Definition answers_selects (env : Agent.Env) : Prop :=
  forall table id, Agent.select_conversation env table id = true.

(** ** Queries and workflow states *)

Definition filter_column (f : Agent.Filter) : string :=
  match f with
  | Agent.in_ c _ | Agent.eq_ c _ | Agent.lte c _ | Agent.gte c _
  | Agent.ilike c _ => c
  end.

(** The value of a filter is true in Python's sense; a pattern of [ilike]
    has more than its two percent signs. *)
Definition filter_value_truthy (f : Agent.Filter) : bool :=
  match f with
  | Agent.in_ _ v | Agent.eq_ _ v | Agent.lte _ v | Agent.gte _ v => truthy v
  | Agent.ilike _ p => (2 <? length p)%nat
  end.

Definition available_only : Agent.Filter :=
  Agent.eq_ "status" (VStr (u "available")).

(** The counters of a workflow state are not negative. *)
Definition sound_counts (s : State.ConversationState) : Prop :=
  0 <= State.specific_criteria_count s /\ 0 <= State.engagement_level s.

(** ** Transcripts and the Mistral format *)

(** The messages handed to the prompt builder: the system message, the
    welcome of the assistant when the conversation was opened without a
    message, the past exchanges, and the message of the user to answer. *)
Definition transcript (system : str) (opening : option str)
    (turns : list (str * str)) (last : str) : list (str * str) :=
  (u "system", system)
  :: match opening with
     | Some greeting => [(u "assistant", greeting)]
     | None => []
     end
     ++ flat_map (fun t => [(u "user", fst t); (u "assistant", snd t)]) turns
     ++ [(u "user", last)].

(** [<s>[INST] system\n\nuser [/INST] assistant</s><s>[INST] user [/INST]] *)
Definition mistral_format (system : str) (opening : option str)
    (turns : list (str * str)) (last : str) : str :=
  u "<s>[INST] " ++ system ++ [10; 10]%N
  ++ match opening with
     | Some greeting => greeting ++ u "</s><s>[INST] "
     | None => []
     end
  ++ concat (map (fun t => fst t ++ u " [/INST] " ++ snd t ++ u "</s><s>[INST] ")
               turns)
  ++ last ++ u " [/INST]".

(** The same collaborators, with a [conversations] table that refuses every
    upsert. *)
Definition refusing (env : Agent.Env) : Agent.Env := {|
  Agent.unicode := Agent.unicode env;
  Agent.uuid4 := Agent.uuid4 env;
  Agent.generate_ai_response := Agent.generate_ai_response env;
  Agent.generate_summary := Agent.generate_summary env;
  Agent.execute_properties := Agent.execute_properties env;
  Agent.insert_lead := Agent.insert_lead env;
  Agent.select_conversation := Agent.select_conversation env;
  Agent.upsert_conversation := fun _ _ => false
|}.

(** Collaborators whose [conversations] table does not answer. *)
Definition env_offline : Agent.Env := {|
  Agent.unicode := latin1;
  Agent.uuid4 := fun _ => "c1"%string;
  Agent.generate_ai_response := fun _ _ => inr (u "D'accord.");
  Agent.generate_summary := fun _ => inr (u "Prospect");
  Agent.execute_properties := fun _ => Some [];
  Agent.insert_lead := fun _ _ => Some "lead-1"%string;
  Agent.select_conversation := fun _ _ => false;
  Agent.upsert_conversation := fun _ _ => false
|}.

(** * Properties *)

(** ** Lead quality *)

(** C2. The two classifiers do not share their thresholds. The workflow's
    [classify_lead_quality] is the table of the specification: hot from 70,
    warm from 50 to 69, cold below. The agent's [_determine_lead_quality] answers
    warm from 40 on, so the two labels differ exactly on the scores 40 to 49:
    at 45, the score of a conversation that gave a city and a budget only,
    the agent says warm and the workflow says cold. *)
Theorem lead_quality_thresholds_disagree :
  (forall score : Z,
      (Tools.classify_lead_quality score = "hot" <-> 70 <= score)
      /\ (Tools.classify_lead_quality score = "warm" <-> 50 <= score < 70)
      /\ (Tools.classify_lead_quality score = "cold" <-> score < 50)
      /\ (Agent._determine_lead_quality score = Tools.classify_lead_quality score
          <-> ~ 40 <= score < 50))
  /\ Agent._determine_lead_quality 45 = "warm"
  /\ Tools.classify_lead_quality 45 = "cold"
  /\ (let text := u "user: Je cherche à Casablanca, budget 2 millions" in
      let criteria : dict :=
        <["preferred_cities" := VList [u "Casablanca"]]>
          (<["budget_max" := VInt 2000000]> ∅) in
      Agent._extract_criteria latin1 text = inr criteria
      /\ Agent._calculate_score criteria
           (Agent._extract_contact_info latin1 text) = 45).
Proof.
  split; [| split; [reflexivity | split; [reflexivity |]]].
  - intros score.
    unfold Tools.classify_lead_quality, Agent._determine_lead_quality.
    destruct (Z.leb_spec 70 score), (Z.leb_spec 50 score), (Z.leb_spec 40 score);
      repeat split; intros; try lia; try discriminate; try reflexivity.
    all: exfalso; intuition lia.
  - split; vm_compute; reflexivity.
Qed.

(** ** The conversational-turn score *)

Lemma truthy_py_or a b : truthy (py_or a b) = truthy a || truthy b.
Proof. unfold py_or. destruct (truthy a) eqn:E; simpl; [exact E | reflexivity]. Qed.

Lemma add_pts (b : bool) (s n : Z) : (if b then s + n else s) = s + pts n b.
Proof. destruct b; simpl; lia. Qed.

Lemma pts_range (n : Z) (b : bool) : 0 <= n -> 0 <= pts n b <= n.
Proof. destruct b; simpl; lia. Qed.

Lemma calculate_score_points criteria contact :
  Agent._calculate_score criteria contact = Z.min (turn_points criteria contact) 100.
Proof.
  unfold Agent._calculate_score, turn_points.
  cbv zeta. rewrite !add_pts, truthy_py_or. reflexivity.
Qed.

Lemma turn_points_range criteria contact : 0 <= turn_points criteria contact <= 100.
Proof.
  unfold turn_points.
  repeat match goal with
         | |- context [pts ?n ?b] =>
             let H := fresh in
             pose proof (pts_range n b ltac:(lia)) as H;
             generalize dependent (pts n b); intros
         end.
  lia.
Qed.

(** C4, counterexample. The text "budget max 0 millions" gives the criteria
    [{budget_max: 0}]: the key is present, its value counts as false, and the
    score is 0 where the specification gives 25. *)
Lemma turn_score_ignores_zero_budget :
  let criteria : dict := <["budget_max" := VInt 0]> ∅ in
  let contact := Agent._extract_contact_info latin1 (u "budget max 0 millions") in
  Agent._extract_criteria latin1 (u "budget max 0 millions") = inr criteria
  /\ Agent._calculate_score criteria contact = 0
  /\ specified_turn_score criteria contact = 25
  /\ Agent._calculate_score criteria contact <> specified_turn_score criteria contact.
Proof.
  repeat split; try (vm_compute; reflexivity).
  vm_compute. discriminate.
Qed.

(** C4, amended. For every criteria and contact mapping the turn score is the
    sum of 25 for a budget, 20 for cities, 15 for types, 10 for a transaction
    type, 5 for rooms, 5 for an area, 5 for a name, 10 for a phone and 5 for an
    e-mail, each counted when the value under its key is true in Python's
    sense (neither missing, [None], 0, nor empty), clipped to 100; it is an
    integer of [0, 100]. *)
Theorem turn_score_is_sum_of_truthy_signals (criteria contact : dict) :
  Agent._calculate_score criteria contact
  = Z.min
      (pts 25 (truthy (dget criteria "budget_min")
               || truthy (dget criteria "budget_max"))
       + pts 20 (truthy (dget criteria "preferred_cities"))
       + pts 15 (truthy (dget criteria "preferred_types"))
       + pts 10 (truthy (dget criteria "transaction_type"))
       + pts 5 (truthy (dget criteria "rooms"))
       + pts 5 (truthy (dget criteria "area"))
       + pts 5 (truthy (dget contact "name"))
       + pts 10 (truthy (dget contact "phone"))
       + pts 5 (truthy (dget contact "email")))
      100
  /\ 0 <= Agent._calculate_score criteria contact <= 100.
Proof.
  split; [apply calculate_score_points |].
  rewrite calculate_score_points.
  pose proof (turn_points_range criteria contact). lia.
Qed.

(** ** Range and monotonicity of the two scores *)

Lemma pts_mono (n : Z) (b b' : bool) : 0 <= n -> bool_le b b' -> pts n b <= pts n b'.
Proof.
  unfold bool_le. intros Hn H. destruct b; simpl.
  - rewrite H by reflexivity. simpl. lia.
  - destruct b'; simpl; lia.
Qed.

Lemma bool_le_orb (a b a' b' : bool) :
  bool_le a a' -> bool_le b b' -> bool_le (a || b) (a' || b').
Proof.
  unfold bool_le. intros Ha Hb H.
  apply orb_true_iff in H. apply orb_true_iff. tauto.
Qed.

Lemma turn_points_mono (c c' k k' : dict) :
  signals_le c c' -> signals_le k k' -> turn_points c k <= turn_points c' k'.
Proof.
  intros Hc Hk. unfold turn_points.
  repeat apply Z.add_le_mono; apply pts_mono; try lia;
    try apply bool_le_orb; unfold bool_le; auto.
Qed.

Lemma signals_le_insert (d : dict) (key : string) (v : value) :
  truthy (dget d key) = false -> signals_le d (<[key := v]> d).
Proof.
  intros Hnew k Hk. unfold dget in *.
  destruct (decide (key = k)) as [-> | Hne].
  - rewrite Hk in Hnew. discriminate.
  - rewrite lookup_insert_ne by assumption. exact Hk.
Qed.

Lemma workflow_score_points (b l p t c : bool) (n e : Z) :
  Tools.calculate_qualification_score b l p t c n e
  = pts 25 b + pts 20 l + pts 15 p + pts 10 t + pts 15 c
    + Z.min (n * 5) 10 + Z.min (Z.quot e 2) 5.
Proof.
  unfold Tools.calculate_qualification_score. cbv zeta.
  rewrite !add_pts. reflexivity.
Qed.

(** C5, counterexample. With every flag off, engagement 0 and a
    specific-criteria count of -1, the workflow score is -5: an engagement of
    [0, 10] alone does not keep the score in [0, 100]. *)
Lemma workflow_score_below_zero :
  0 <= 0 <= 10
  /\ Tools.calculate_qualification_score false false false false false (-1) 0 = -5
  /\ ~ 0 <= Tools.calculate_qualification_score false false false false false (-1) 0
       <= 100.
Proof. vm_compute. intuition discriminate || congruence. Qed.

(** C5, amended. Both scores lie in [0, 100] and never decrease when signals
    are added, for the workflow score provided the engagement level is in
    [0, 10] and the specific-criteria count is not negative. For the agent a
    signal is a key whose value is true in Python's sense; for the workflow
    the signals are the five flags, the count and the engagement level. *)
Theorem scores_bounded_and_monotone
    (criteria criteria' contact contact' : dict)
    (b l p t c b' l' p' t' c' : bool) (n n' e e' : Z) :
  signals_le criteria criteria' -> signals_le contact contact' ->
  bool_le b b' -> bool_le l l' -> bool_le p p' -> bool_le t t' -> bool_le c c' ->
  0 <= n <= n' -> 0 <= e <= e' -> e' <= 10 ->
  0 <= Agent._calculate_score criteria contact <= 100
  /\ Agent._calculate_score criteria contact
     <= Agent._calculate_score criteria' contact'
  /\ 0 <= Tools.calculate_qualification_score b l p t c n e <= 100
  /\ Tools.calculate_qualification_score b l p t c n e
     <= Tools.calculate_qualification_score b' l' p' t' c' n' e'.
Proof.
  intros Hcr Hco Hb Hl Hp Ht Hc Hn He He'.
  rewrite !calculate_score_points, !workflow_score_points.
  pose proof (turn_points_range criteria contact).
  pose proof (turn_points_mono _ _ _ _ Hcr Hco).
  pose proof (pts_mono 25 _ _ ltac:(lia) Hb).
  pose proof (pts_mono 20 _ _ ltac:(lia) Hl).
  pose proof (pts_mono 15 _ _ ltac:(lia) Hp).
  pose proof (pts_mono 10 _ _ ltac:(lia) Ht).
  pose proof (pts_mono 15 _ _ ltac:(lia) Hc).
  pose proof (pts_range 25 b ltac:(lia)).
  pose proof (pts_range 20 l ltac:(lia)).
  pose proof (pts_range 15 p ltac:(lia)).
  pose proof (pts_range 10 t ltac:(lia)).
  pose proof (pts_range 15 c ltac:(lia)).
  assert (0 <= Z.quot e 2) by (apply Z.quot_pos; lia).
  assert (Z.quot e 2 <= Z.quot e' 2) by (apply Z.quot_le_mono; lia).
  lia.
Qed.

(** C5, witness: a conversation that gains a phone number, and a workflow
    state that gains a budget, one more specific criterion and one more
    message. *)
Lemma scores_bounded_and_monotone_witness :
  let criteria : dict := <["preferred_cities" := VList [u "Rabat"]]> ∅ in
  let contact : dict := <["phone" := VNone]> ∅ in
  let contact' : dict := <["phone" := VStr (u "0")]> contact in
  0 <= Agent._calculate_score criteria contact <= 100
  /\ Agent._calculate_score criteria contact
     <= Agent._calculate_score criteria contact'
  /\ 0 <= Tools.calculate_qualification_score false true true false false 1 3 <= 100
  /\ Tools.calculate_qualification_score false true true false false 1 3
     <= Tools.calculate_qualification_score true true true false false 2 4.
Proof.
  intros criteria contact contact'.
  apply (scores_bounded_and_monotone criteria criteria contact contact'
           false true true false false true true true false false 1 2 3 4).
  - intros k H. exact H.
  - apply signals_le_insert. reflexivity.
  - intros H. reflexivity.
  - intros H. exact H.
  - intros H. exact H.
  - intros H. exact H.
  - intros H. exact H.
  - lia.
  - lia.
  - lia.
Defined.

(** ** Criteria extraction *)

Lemma no_none_insert (c : dict) (k : string) (v : value) :
  v <> VNone -> no_none c -> no_none (<[k := v]> c).
Proof.
  intros Hv Hc k'. destruct (decide (k = k')) as [-> | Hne].
  - rewrite lookup_insert_eq. congruence.
  - rewrite lookup_insert_ne by assumption. apply Hc.
Qed.

Lemma no_budget_one (c : dict) : no_budget c -> one_budget c.
Proof. intros [H1 H2] [[x Hx] _]. congruence. Qed.

Section ExtractionFacts.
Variable db : unicode_db.

Lemma budget_try_result (text m0 : str) (c c' : dict) :
  Agent.budget_try db text m0 c = inr c' ->
  exists a, c' = <["budget_max" := VInt a]> c \/ c' = <["budget_min" := VInt a]> c.
Proof.
  unfold Agent.budget_try.
  destruct (py_int db _) as [e | amount]; [discriminate |].
  cbn [bind]. cbv zeta. unfold ret.
  repeat match goal with
         | |- (if ?b then _ else _) = _ -> _ => destruct b
         end;
    intros H; injection H as <-; eauto.
Qed.

Lemma budget_loop_result (patterns : list regex) (text : str) (c : dict) :
  Agent.budget_loop db patterns text c = c
  \/ exists a,
       Agent.budget_loop db patterns text c = <["budget_max" := VInt a]> c
       \/ Agent.budget_loop db patterns text c = <["budget_min" := VInt a]> c.
Proof.
  induction patterns as [| pattern rest IH]; simpl; [left; reflexivity |].
  destruct (findall db true pattern text) as [| m0 ms]; [exact IH |].
  destruct (Agent.budget_try db text m0 c) as [e | c'] eqn:E; [exact IH |].
  right. apply budget_try_result in E. exact E.
Qed.

Lemma budget_loop_one (patterns : list regex) (text : str) (c : dict) :
  no_budget c -> one_budget (Agent.budget_loop db patterns text c).
Proof.
  intros [Hmin Hmax].
  destruct (budget_loop_result patterns text c) as [-> | [a [-> | ->]]].
  - apply no_budget_one. split; assumption.
  - intros [[x Hx] _]. rewrite lookup_insert_ne in Hx by discriminate. congruence.
  - intros [_ [x Hx]]. rewrite lookup_insert_ne in Hx by discriminate. congruence.
Qed.

Lemma budget_loop_no_none (patterns : list regex) (text : str) (c : dict) :
  no_none c -> no_none (Agent.budget_loop db patterns text c).
Proof.
  intros Hc.
  destruct (budget_loop_result patterns text c) as [-> | [a [-> | ->]]].
  - assumption.
  - apply no_none_insert; [discriminate | assumption].
  - apply no_none_insert; [discriminate | assumption].
Qed.

Lemma criteria_before_budget_facts (text_lower : str) :
  no_budget (criteria_before_budget text_lower)
  /\ no_none (criteria_before_budget text_lower).
Proof.
  unfold criteria_before_budget, no_budget.
  destruct (Agent.detect Agent.cities_map text_lower);
    destruct (Agent.detect Agent.types_map text_lower);
    destruct (any_in _ text_lower); try destruct (any_in _ text_lower);
    (split; [split; reflexivity |]);
    repeat (apply no_none_insert; [discriminate |]);
    intros k; rewrite lookup_empty; discriminate.
Qed.

Lemma extract_criteria_unfold (text : str) :
  Agent._extract_criteria db text =
  let text_lower := str_lower db text in
  let criteria :=
    Agent.budget_loop db Agent.budget_patterns text_lower
      (criteria_before_budget text_lower) in
  let? criteria :=
    match findall db false Agent.rooms_pattern text_lower with
    | [] => ret criteria
    | m0 :: _ => let? n := py_int db m0 in ret (<["rooms" := VInt n]> criteria)
    end in
  let? criteria :=
    match findall db false Agent.area_pattern text_lower with
    | [] => ret criteria
    | m0 :: _ => let? n := py_int db m0 in ret (<["area" := VInt n]> criteria)
    end in
  ret criteria.
Proof.
  unfold Agent._extract_criteria, criteria_before_budget. cbv zeta.
  destruct (Agent.detect Agent.cities_map (str_lower db text));
    destruct (Agent.detect Agent.types_map (str_lower db text)); reflexivity.
Qed.

(** What a returning extraction looks like: the budget loop's mapping plus
    an optional [rooms] and an optional [area]. *)
Lemma extract_criteria_inv (text : str) (c : dict) :
  Agent._extract_criteria db text = inr c ->
  exists (bud : dict) (rooms area : option Z),
    one_budget bud /\ no_none bud
    /\ c = (match area with Some n => <["area" := VInt n]> | None => id end)
             ((match rooms with Some n => <["rooms" := VInt n]> | None => id end)
                bud).
Proof.
  rewrite extract_criteria_unfold. cbv zeta.
  set (bud := Agent.budget_loop db _ _ _).
  assert (Hb : one_budget bud /\ no_none bud).
  { destruct (criteria_before_budget_facts (str_lower db text)) as [H1 H2].
    split; [apply budget_loop_one | apply budget_loop_no_none]; assumption. }
  clearbody bud. intros H. exists bud.
  destruct (findall db false Agent.rooms_pattern _) as [| r0 rs].
  - destruct (findall db false Agent.area_pattern _) as [| a0 as_].
    + exists None, None. simpl in H. injection H as <-. tauto.
    + simpl in H. destruct (py_int db a0) as [e | n]; [discriminate |].
      simpl in H. injection H as <-. exists None, (Some n). tauto.
  - simpl in H. destruct (py_int db r0) as [e | nr]; [discriminate |].
    simpl in H.
    destruct (findall db false Agent.area_pattern _) as [| a0 as_].
    + simpl in H. injection H as <-. exists (Some nr), None. tauto.
    + simpl in H. destruct (py_int db a0) as [e | n]; [discriminate |].
      simpl in H. injection H as <-. exists (Some nr), (Some n). tauto.
Qed.

Lemma extract_criteria_one_budget (text : str) (c : dict) :
  Agent._extract_criteria db text = inr c -> one_budget c.
Proof.
  intros H. apply extract_criteria_inv in H as (bud & rooms & area & Hb & _ & ->).
  intros [[x Hx] [y Hy]]. apply Hb.
  destruct area, rooms; simpl in *;
    repeat (rewrite lookup_insert_ne in Hx by discriminate);
    repeat (rewrite lookup_insert_ne in Hy by discriminate);
    split; eauto.
Qed.

(** A mapping returned by the extractor holds no [None]: a category that
    was not found has no key. *)
Lemma extract_criteria_no_none (text : str) (c : dict) :
  Agent._extract_criteria db text = inr c -> no_none c.
Proof.
  intros H. apply extract_criteria_inv in H as (bud & rooms & area & _ & Hn & ->).
  destruct area, rooms; simpl;
    repeat (apply no_none_insert; [discriminate |]); assumption.
Qed.
End ExtractionFacts.

(** C3, counterexample. For "à partir de 800000" the extractor sets no
    budget at all: the amount has six digits and each of the three budget
    patterns asks for a million marker or for seven digits. *)
Lemma six_digit_budget_not_extracted :
  Agent._extract_criteria latin1 (u "à partir de 800000") = inr ∅
  /\ ~ (exists criteria,
          Agent._extract_criteria latin1 (u "à partir de 800000") = inr criteria
          /\ criteria !! "budget_min" = Some (VInt 800000)).
Proof.
  assert (H : Agent._extract_criteria latin1 (u "à partir de 800000") = inr ∅)
    by (vm_compute; reflexivity).
  split; [exact H |].
  intros (criteria & Hc & Hmin). rewrite H in Hc. injection Hc as <-.
  rewrite lookup_empty in Hmin. discriminate.
Qed.

(** C3, amended. "budget max 2 millions" sets [budget_max] to 2,000,000 and
    leaves [budget_min] unset; "à partir de 800000" sets neither key, a bare
    amount needing seven digits, as in "à partir de 8000000", which sets
    [budget_min] to 8,000,000; and a pass that returns sets at most one of
    the two keys, whatever the text. *)
Theorem budget_disambiguation (db : unicode_db) (text : str) (criteria : dict) :
  Agent._extract_criteria db text = inr criteria ->
  Agent._extract_criteria latin1 (u "budget max 2 millions")
  = inr (<["budget_max" := VInt 2000000]> ∅)
  /\ Agent._extract_criteria latin1 (u "à partir de 800000") = inr ∅
  /\ Agent._extract_criteria latin1 (u "à partir de 8000000")
     = inr (<["budget_min" := VInt 8000000]> ∅)
  /\ ~ (is_Some (criteria !! "budget_min") /\ is_Some (criteria !! "budget_max")).
Proof.
  intros H.
  split; [vm_compute; reflexivity |].
  split; [vm_compute; reflexivity |].
  split; [vm_compute; reflexivity |].
  exact (extract_criteria_one_budget db text criteria H).
Qed.

(** C3, witness: a text that names a ceiling and a floor; only the first
    amount is read. *)
Lemma budget_disambiguation_witness :
  let criteria : dict := <["budget_max" := VInt 2000000]> ∅ in
  Agent._extract_criteria latin1 (u "budget max 2 millions, au moins 1 500 000")
  = inr criteria
  /\ ~ (is_Some (criteria !! "budget_min") /\ is_Some (criteria !! "budget_max")).
Proof.
  intros criteria.
  assert (H : Agent._extract_criteria latin1
                (u "budget max 2 millions, au moins 1 500 000") = inr criteria)
    by (vm_compute; reflexivity).
  split; [exact H |].
  exact (proj2 (proj2 (proj2 (budget_disambiguation latin1 _ criteria H)))).
Defined.

(** ** The agent's turn and the end of a conversation *)

Lemma dindex_dget (d : dict) (k : string) (v : value) :
  dindex d k = inr v -> dget d k = v.
Proof.
  unfold dindex, dget. destruct (d !! k); simpl; congruence.
Qed.

Lemma should_create_lead_truthy (score : Z) (contact : dict) (v : value) :
  Agent.should_create_lead_value score contact = inr v ->
  (truthy v = true
   <-> 50 <= score /\ truthy (dget contact "name") = true
       /\ truthy (dget contact "phone") = true).
Proof.
  unfold Agent.should_create_lead_value.
  destruct (Z.leb_spec 50 score) as [Hs | Hs].
  - destruct (dindex contact "name") as [e | name] eqn:Hn; [discriminate |].
    cbn [bind]. apply dindex_dget in Hn. rewrite Hn.
    destruct (truthy name) eqn:Ht.
    + intros Hp. apply dindex_dget in Hp. rewrite Hp. intuition.
    + intros H. injection H as <-. rewrite Ht. intuition discriminate.
  - intros H. injection H as <-. simpl. intuition (discriminate || lia).
Qed.

Section TurnFacts.
Variable env : Agent.Env.

(** What a turn that returns has done. *)
Lemma process_message_inv st msg w r st' w' :
  Agent._process_message env st msg w = (inr r, st', w') ->
  let user := {| Agent.role := Agent.User; Agent.content := msg;
                 Agent.timestamp := Agent.ticks w |} in
  let text := Agent.conversation_text_of (Agent.messages st ++ [user]) in
  exists newc t,
    Agent._extract_criteria (Agent.unicode env) text = inr newc
    /\ Agent.messages st'
       = (Agent.messages st ++ [user])
         ++ [{| Agent.role := Agent.Assistant;
                Agent.content := Agent.response r; Agent.timestamp := t |}]
    /\ Agent.criteria st' = dupdate (Agent.criteria st) newc
    /\ Agent.contact_info st'
       = dupdate (Agent.contact_info st)
           (Agent._extract_contact_info (Agent.unicode env) text)
    /\ Agent.qualification_score st'
       = Agent._calculate_score (Agent.criteria st') (Agent.contact_info st')
    /\ Agent.lead_quality st'
       = Agent._determine_lead_quality (Agent.qualification_score st')
    /\ (Agent.status st' = Agent.status st
        /\ Agent.lead_id st' = Agent.lead_id st
        /\ Agent.conversation_id st' = Agent.conversation_id st
        /\ Agent.ended_at st' = Agent.ended_at st
        /\ Agent.end_reason st' = Agent.end_reason st)
    /\ Agent.turn_score r = Agent.qualification_score st'
    /\ Agent.turn_quality r = Agent.lead_quality st'
    /\ Agent.should_create_lead_value (Agent.turn_score r) (Agent.contact_info st')
       = inr (Agent.should_create_lead r)
    /\ Agent.conversation_complete r
       = (70 <=? Agent.turn_score r)
         || (20 <? length (Agent.messages st'))%nat
    /\ Agent.properties_shown r = (0 <? Agent.matched_properties_count r)%nat
    /\ Agent.property_queries w'
       = Agent.property_queries w
         ++ (if Agent.dict_truthy (Agent.criteria st')
             then [Agent.properties_query (Agent.criteria st')] else [])
    /\ Agent.cache w' = Agent.cache w
    /\ Agent.conversations w' = Agent.conversations w
    /\ Agent.leads w' = Agent.leads w.
Proof.
  intros H user text. revert H.
  unfold Agent._process_message. proj_simpl. fold user. fold text.
  destruct (Agent._extract_criteria _ _) as [e | newc] eqn:Hx; [discriminate |].
  proj_simpl.
  set (contact := dupdate (Agent.contact_info st) _).
  set (crit := dupdate (Agent.criteria st) newc).
  set (score := Agent._calculate_score crit contact).
  set (w1 := {| Agent.cache := Agent.cache w;
                Agent.conversations := Agent.conversations w;
                Agent.leads := Agent.leads w;
                Agent.property_queries := Agent.property_queries w;
                Agent.ticks := S (Agent.ticks w) |}).
  assert (Hm : exists rows qs,
             (if Agent.dict_truthy crit
              then Agent._match_properties env crit w1 else ([], w1))
             = (rows, {| Agent.cache := Agent.cache w;
                         Agent.conversations := Agent.conversations w;
                         Agent.leads := Agent.leads w;
                         Agent.property_queries := qs;
                         Agent.ticks := S (Agent.ticks w) |})
             /\ qs = Agent.property_queries w
                     ++ (if Agent.dict_truthy crit
                         then [Agent.properties_query crit] else [])).
  { destruct (Agent.dict_truthy crit).
    - unfold Agent._match_properties, w1. proj_simpl.
      destruct (Agent.execute_properties env _); eexists _, _; split; reflexivity.
    - eexists _, _. split; [reflexivity |]. rewrite app_nil_r. reflexivity. }
  destruct Hm as (rows & qs & -> & Hqs). proj_simpl.
  destruct (Agent.generate_ai_response env _ rows) as [e | reply]; [discriminate |].
  proj_simpl.
  destruct (Agent.should_create_lead_value score contact) as [e | create] eqn:Hc;
    [discriminate |].
  destruct (dindex contact "phone") as [e | phone]; [discriminate |].
  intros H. injection H as <- <- <-. proj_simpl.
  exists newc, (S (Agent.ticks w)).
  repeat split; try reflexivity; try assumption.
Qed.

Lemma create_lead_leads st w :
  Agent.conversations (snd (Agent._create_lead env st w)) = Agent.conversations w
  /\ Agent.cache (snd (Agent._create_lead env st w)) = Agent.cache w.
Proof.
  unfold Agent._create_lead.
  destruct (Agent.lead_data_of st); [auto |].
  destruct (Agent.insert_lead env _ _); auto.
Qed.

(** What [_save_conversation_to_db] does: the clock is read, and the table
    gets the row when the store accepts it. *)
Lemma save_conversation_spec st w :
  let row := {| Agent.row_id := Agent.conversation_id st;
                Agent.row_state := st;
                Agent.row_qualification_score := Agent.qualification_score st;
                Agent.row_status := Agent.status st;
                Agent.row_lead_id := Agent.lead_id st;
                Agent.row_updated_at := Agent.ticks w |} in
  Agent.cache (Agent._save_conversation_to_db env st w) = Agent.cache w
  /\ Agent.leads (Agent._save_conversation_to_db env st w) = Agent.leads w
  /\ Agent.property_queries (Agent._save_conversation_to_db env st w)
     = Agent.property_queries w
  /\ Agent.ticks (Agent._save_conversation_to_db env st w) = S (Agent.ticks w)
  /\ Agent.conversations (Agent._save_conversation_to_db env st w)
     = if Agent.upsert_conversation env (Agent.conversations w) row
       then <[Agent.conversation_id st := row]> (Agent.conversations w)
       else Agent.conversations w.
Proof.
  cbv zeta. unfold Agent._save_conversation_to_db. proj_simpl.
  destruct (Agent.upsert_conversation env _ _); proj_simpl;
    repeat split; reflexivity.
Qed.

Lemma save_cache st w :
  Agent.cache (Agent._save_conversation_to_db env st w) = Agent.cache w.
Proof. apply save_conversation_spec. Qed.

Lemma save_leads st w :
  Agent.leads (Agent._save_conversation_to_db env st w) = Agent.leads w.
Proof. apply save_conversation_spec. Qed.

Lemma save_conversations_ne st w id' :
  id' <> Agent.conversation_id st ->
  Agent.conversations (Agent._save_conversation_to_db env st w) !! id'
  = Agent.conversations w !! id'.
Proof.
  intros Hne. destruct (save_conversation_spec st w) as (_ & _ & _ & _ & ->).
  cbv zeta. destruct (Agent.upsert_conversation env _ _); [| reflexivity].
  apply lookup_insert_ne. congruence.
Qed.

(** What [end_conversation] has done when it returns a summary. *)
Lemma end_conversation_inv id reason w st w1 r w' :
  Agent._get_conversation env id w = (Some st, w1) ->
  Agent.end_conversation env id reason w = (inr (Some r), w') ->
  let gate := negb (Agent.id_truthy (Agent.lead_id st))
              && (50 <=? Agent.qualification_score st) in
  let w2 := if gate then snd (Agent._create_lead env st w1) else w1 in
  let st' := Agent.set_ended "completed" (Agent.ticks w2) reason st in
  let row := {| Agent.row_id := Agent.conversation_id st;
                Agent.row_state := st';
                Agent.row_qualification_score := Agent.qualification_score st;
                Agent.row_status := "completed";
                Agent.row_lead_id := Agent.lead_id st;
                Agent.row_updated_at := S (Agent.ticks w2) |} in
  Agent.lead_created r = gate
  /\ Agent.end_lead_id r
     = (if gate then fst (Agent._create_lead env st w1) else Agent.lead_id st)
  /\ Agent.leads w' = Agent.leads w2
  /\ Agent.end_status r = "completed"%string
  /\ Agent.conversations w'
     = (if Agent.upsert_conversation env (Agent.conversations w1) row
        then <[Agent.conversation_id st := row]> (Agent.conversations w1)
        else Agent.conversations w1)
  /\ Agent.cache w' !! id = None.
Proof.
  intros Hg H gate w2 st' row. revert H.
  unfold Agent.end_conversation. rewrite Hg. fold gate.
  assert (Hw2 : (if gate
                 then let '(l, w0) := Agent._create_lead env st w1 in (true, l, w0)
                 else (false, Agent.lead_id st, w1))
                = (gate,
                   if gate then fst (Agent._create_lead env st w1)
                   else Agent.lead_id st, w2)).
  { unfold w2. destruct gate; [| reflexivity].
    destruct (Agent._create_lead env st w1). reflexivity. }
  rewrite Hw2.
  destruct (Agent.generate_summary env st) as [e | text]; [discriminate |].
  proj_simpl. intros H. injection H as <- <-.
  assert (Hc : Agent.conversations w2 = Agent.conversations w1).
  { unfold w2. destruct gate; [apply create_lead_leads | reflexivity]. }
  fold st'.
  destruct (save_conversation_spec st'
              (Agent.set_cache (<[id := st']> (Agent.cache w2))
                 {| Agent.cache := Agent.cache w2;
                    Agent.conversations := Agent.conversations w2;
                    Agent.leads := Agent.leads w2;
                    Agent.property_queries := Agent.property_queries w2;
                    Agent.ticks := S (Agent.ticks w2) |}))
    as (Sc & Sl & _ & _ & Sv).
  cbv zeta in Sv. proj_simpl. rewrite Sc, Sl, Sv. proj_simpl. rewrite Hc.
  repeat split; try reflexivity.
  apply lookup_delete_eq.
Qed.
End TurnFacts.

(** ** Lead creation *)

(** C1, counterexample. A prospect gives a type, a city and a budget but no
    name and no phone: the score is 60, and [end_conversation] files a lead
    for "Prospect" with no phone. The end-of-conversation gate does not look
    at the phone. *)
Lemma lead_created_at_end_without_phone :
  let w := started (Some anonymous_request) in
  let run := Agent.end_conversation env0 "c1" "completed" w in
  (Agent.lead_id <$> Agent.cache w !! "c1"%string) = Some None
  /\ (Agent.qualification_score <$> Agent.cache w !! "c1"%string) = Some 60
  /\ ((fun st => dget (Agent.contact_info st) "phone")
        <$> Agent.cache w !! "c1"%string) = Some VNone
  /\ (Agent.lead_created <$> ended_with (fst run)) = Some true
  /\ (Agent.end_lead_id <$> ended_with (fst run)) = Some (Some "lead-1"%string)
  /\ map Agent.lead_phone (Agent.leads (snd run)) = [VNone]
  /\ map Agent.lead_name (Agent.leads (snd run)) = [VStr (u "Prospect")].
Proof. repeat split; by_vm. Qed.

(** C1, amended. On a turn, [should_create_lead] is true exactly when the
    score is at least 50 and the contact name and phone are both set (not
    [None], not empty). At [end_conversation], the creation of a lead is
    attempted exactly when the conversation has no [lead_id] yet and its
    score is at least 50: there is no requirement on the contact, neither on
    the name nor on the phone. *)
Theorem lead_creation_gates
    (env : Agent.Env) (st : Agent.ConversationState) (msg : str)
    (w : Agent.World) (r : Agent.TurnResult) (st' : Agent.ConversationState)
    (w' : Agent.World) (id reason : string) (wc : Agent.World)
    (stc : Agent.ConversationState) (w1 : Agent.World) (re : Agent.EndResult)
    (we : Agent.World) :
  Agent._process_message env st msg w = (inr r, st', w') ->
  Agent._get_conversation env id wc = (Some stc, w1) ->
  Agent.end_conversation env id reason wc = (inr (Some re), we) ->
  (truthy (Agent.should_create_lead r) = true
   <-> 50 <= Agent.turn_score r
       /\ truthy (dget (Agent.contact_info st') "name") = true
       /\ truthy (dget (Agent.contact_info st') "phone") = true)
  /\ (Agent.lead_created re = true
      <-> Agent.id_truthy (Agent.lead_id stc) = false
          /\ 50 <= Agent.qualification_score stc)
  /\ (Agent.lead_created re = true ->
      Agent.end_lead_id re = fst (Agent._create_lead env stc w1)
      /\ Agent.leads we = Agent.leads (snd (Agent._create_lead env stc w1))).
Proof.
  intros Hp Hg He.
  apply process_message_inv in Hp as (newc & t & Hp). cbv zeta in Hp.
  destruct Hp as (_ & _ & _ & _ & _ & _ & _ & _ & _ & Hc & _).
  pose proof (end_conversation_inv env id reason wc stc w1 re we Hg He) as Hi.
  cbv zeta in Hi. destruct Hi as (Hcreated & Hid & Hleads & _).
  split; [exact (should_create_lead_truthy _ _ _ Hc) |].
  rewrite Hcreated, andb_true_iff, negb_true_iff, Z.leb_le.
  split; [tauto |].
  intros [Hn Hs]. rewrite Hid, Hleads, Hn.
  apply Z.leb_le in Hs. rewrite Hs. simpl. split; reflexivity.
Qed.

(** C1, witness: the prospect of the counterexample gives a name and a
    number on the next turn; the same conversation is ended instead. *)
Lemma lead_creation_gates_witness :
  let w := started (Some anonymous_request) in
  let msg := u "Je m'appelle Karim, mon numéro est 0612345678" in
  match Agent._get_conversation env0 "c1" w with
  | (Some st, w1) =>
      match Agent._process_message env0 st msg w1,
            Agent.end_conversation env0 "c1" "completed" w with
      | (inr r, st', _), (inr (Some re), we) =>
          (truthy (Agent.should_create_lead r) = true
           <-> 50 <= Agent.turn_score r
               /\ truthy (dget (Agent.contact_info st') "name") = true
               /\ truthy (dget (Agent.contact_info st') "phone") = true)
          /\ (Agent.lead_created re = true
              <-> Agent.id_truthy (Agent.lead_id st) = false
                  /\ 50 <= Agent.qualification_score st)
          /\ (Agent.lead_created re = true ->
              Agent.end_lead_id re = fst (Agent._create_lead env0 st w1)
              /\ Agent.leads we
                 = Agent.leads (snd (Agent._create_lead env0 st w1)))
      | _, _ => False
      end
  | _ => False
  end.
Proof.
  intros w msg.
  destruct (Agent._get_conversation env0 "c1" w) as [[st |] w1] eqn:Hg;
    [| vm_compute in Hg; discriminate].
  assert (Hst := Hg). vm_compute in Hst. injection Hst as Hst Hw1.
  destruct (Agent._process_message env0 st msg w1) as [[[e | r] st'] wp] eqn:Hp;
    [subst st w1; vm_compute in Hp; discriminate |].
  destruct (Agent.end_conversation env0 "c1" "completed" w)
    as [[e | [re |]] we] eqn:He;
    [vm_compute in He; discriminate | | vm_compute in He; discriminate].
  exact (lead_creation_gates env0 st msg w1 r st' wp "c1" "completed" w st w1
           re we Hp Hg He).
Defined.

(** C10. When [end_conversation] creates the lead (no [lead_id] before, score
    at least 50), the result says so and carries the identifier that
    [_create_lead] returned, which is the identifier given by the store when
    the insertion succeeds; the row handed to the upsert of the
    [conversations] table still has no [lead_id], neither in its column nor
    in its state, while its status is completed and [ended_at] and
    [end_reason] are set. That row is the one of the conversation in the
    table when the store accepts the upsert; when it refuses, the table is
    left as it was. *)
Theorem end_conversation_never_records_lead_id
    (env : Agent.Env) (id reason : string) (w : Agent.World)
    (st : Agent.ConversationState) (w1 : Agent.World) (r : Agent.EndResult)
    (w' : Agent.World) :
  Agent._get_conversation env id w = (Some st, w1) ->
  Agent.lead_id st = None ->
  50 <= Agent.qualification_score st ->
  Agent.end_conversation env id reason w = (inr (Some r), w') ->
  Agent.lead_created r = true
  /\ Agent.end_lead_id r = fst (Agent._create_lead env st w1)
  /\ (forall data new_id,
        Agent.lead_data_of st = inr data ->
        Agent.insert_lead env (Agent.leads w1) data = Some new_id ->
        Agent.end_lead_id r = Some new_id
        /\ Agent.leads w' = Agent.leads w1 ++ [data])
  /\ exists row t,
       Agent.row_id row = Agent.conversation_id st
       /\ Agent.row_lead_id row = None
       /\ Agent.lead_id (Agent.row_state row) = None
       /\ Agent.row_status row = "completed"%string
       /\ Agent.status (Agent.row_state row) = "completed"%string
       /\ Agent.ended_at (Agent.row_state row) = Some t
       /\ Agent.end_reason (Agent.row_state row) = Some reason
       /\ (Agent.upsert_conversation env (Agent.conversations w1) row = true ->
           Agent.conversations w' !! Agent.conversation_id st = Some row)
       /\ (Agent.upsert_conversation env (Agent.conversations w1) row = false ->
           Agent.conversations w' = Agent.conversations w1).
Proof.
  intros Hg Hnone Hscore He.
  pose proof (end_conversation_inv env id reason w st w1 r w' Hg He) as Hi.
  cbv zeta in Hi. rewrite Hnone in Hi. apply Z.leb_le in Hscore.
  rewrite Hscore in Hi. cbn [Agent.id_truthy negb andb] in Hi.
  destruct Hi as (Hcreated & Hid & Hleads & _ & Hrows & _).
  split; [exact Hcreated |]. split; [exact Hid |]. split.
  - intros data new_id Hdata Hins. rewrite Hid, Hleads.
    unfold Agent._create_lead. rewrite Hdata, Hins. split; reflexivity.
  - match type of Hrows with
    | context [Agent.upsert_conversation env _ ?row] => exists row
    end.
    eexists. rewrite Hrows. proj_simpl. rewrite Hnone.
    repeat split; try reflexivity.
    + intros ->. apply lookup_insert_eq.
    + intros ->. reflexivity.
Qed.

(** C10, witness: the conversation of the anonymous prospect, score 60, is
    ended. *)
Lemma end_conversation_never_records_lead_id_witness :
  let w := started (Some anonymous_request) in
  match Agent._get_conversation env0 "c1" w,
        Agent.end_conversation env0 "c1" "completed" w with
  | (Some st, w1), (inr (Some r), w') =>
      Agent.lead_created r = true
      /\ Agent.end_lead_id r = fst (Agent._create_lead env0 st w1)
      /\ (forall data new_id,
            Agent.lead_data_of st = inr data ->
            Agent.insert_lead env0 (Agent.leads w1) data = Some new_id ->
            Agent.end_lead_id r = Some new_id
            /\ Agent.leads w' = Agent.leads w1 ++ [data])
      /\ exists row t,
           Agent.row_id row = Agent.conversation_id st
           /\ Agent.row_lead_id row = None
           /\ Agent.lead_id (Agent.row_state row) = None
           /\ Agent.row_status row = "completed"%string
           /\ Agent.status (Agent.row_state row) = "completed"%string
           /\ Agent.ended_at (Agent.row_state row) = Some t
           /\ Agent.end_reason (Agent.row_state row) = Some "completed"%string
           /\ (Agent.upsert_conversation env0 (Agent.conversations w1) row = true ->
               Agent.conversations w' !! Agent.conversation_id st = Some row)
           /\ (Agent.upsert_conversation env0 (Agent.conversations w1) row = false ->
               Agent.conversations w' = Agent.conversations w1)
  | _, _ => False
  end.
Proof.
  intros w.
  destruct (Agent._get_conversation env0 "c1" w) as [[st |] w1] eqn:Hg;
    [| vm_compute in Hg; discriminate].
  assert (Hst := Hg). vm_compute in Hst. injection Hst as Hst Hw1.
  destruct (Agent.end_conversation env0 "c1" "completed" w)
    as [[e | [r |]] w'] eqn:He;
    [vm_compute in He; discriminate | | vm_compute in He; discriminate].
  apply (end_conversation_never_records_lead_id env0 "c1" "completed" w st w1 r w'
           Hg).
  - subst st. reflexivity.
  - subst st. vm_compute. discriminate.
  - exact He.
Defined.

(** ** Continuing a conversation *)

Section ContinueFacts.
Variable env : Agent.Env.

(** What [continue_conversation] has done when it returns: the turn was
    processed on the stored state, and the state it leaves in the cache, and
    in the [conversations] table when the store accepts the upserts, differs
    from the turn's at most by [lead_id]. *)
Lemma continue_conversation_inv id msg w st w1 r w' :
  Agent._get_conversation env id w = (Some st, w1) ->
  Agent.continue_conversation env id msg w = (inr r, w') ->
  exists st1 wp stf,
    Agent._process_message env st msg w1 = (inr (Agent.cont_turn r), st1, wp)
    /\ Agent.cache w' !! id = Some stf
    /\ (accepts_upserts env ->
        exists row,
          Agent.conversations w' !! Agent.conversation_id st = Some row
          /\ Agent.row_state row = stf
          /\ Agent.row_status row = Agent.status stf)
    /\ Agent.messages stf = Agent.messages st1
    /\ Agent.criteria stf = Agent.criteria st1
    /\ Agent.contact_info stf = Agent.contact_info st1
    /\ Agent.status stf = Agent.status st1.
Proof.
  intros Hg. unfold Agent.continue_conversation. rewrite Hg.
  destruct (Agent._process_message env st msg w1) as [[[e | res] st1] wp] eqn:Hp;
    [discriminate |].
  pose proof (process_message_inv env st msg w1 res st1 wp Hp) as Hi.
  cbv zeta in Hi.
  destruct Hi as (newc & t & _ & _ & _ & _ & _ & _ & (_ & _ & Hcid & _) & _).
  destruct (truthy (Agent.should_create_lead res)
            && negb (Agent.id_truthy (Agent.lead_id st1))).
  - destruct (Agent._create_lead env st1 _) as [new_lead wl] eqn:Hl.
    intros H. injection H as <- <-.
    match goal with
    | |- context [Agent._save_conversation_to_db env ?s ?x] =>
        destruct (save_conversation_spec env s x) as (Sc & _ & _ & _ & Sv)
    end.
    cbv zeta in Sv.
    exists st1, wp, (Agent.set_lead_id new_lead st1).
    rewrite Sc, Sv. proj_simpl. rewrite lookup_insert_eq.
    split; [reflexivity |]. split; [reflexivity |].
    split; [| repeat split; reflexivity].
    intros Ha. rewrite Ha. eexists. rewrite Hcid, lookup_insert_eq.
    repeat split; reflexivity.
  - intros H. injection H as <- <-.
    match goal with
    | |- context [Agent._save_conversation_to_db env ?s ?x] =>
        destruct (save_conversation_spec env s x) as (Sc & _ & _ & _ & Sv)
    end.
    cbv zeta in Sv.
    exists st1, wp, st1.
    rewrite Sc, Sv. proj_simpl. rewrite lookup_insert_eq.
    split; [reflexivity |]. split; [reflexivity |].
    split; [| repeat split; reflexivity].
    intros Ha. rewrite Ha. eexists. rewrite Hcid, lookup_insert_eq.
    repeat split; reflexivity.
Qed.
End ContinueFacts.

(** C6, counterexample. Conversation [c1] is started and ended: its stored
    row is completed, with the welcome message and no criteria. A later
    [continue_conversation] reloads it from the store, returns a reply and
    writes the row back with three messages and two criteria, its status
    still completed. *)
Lemma completed_conversation_is_still_mutated :
  let w := ended None in
  let run :=
    Agent.continue_conversation env0 "c1" (u "Je cherche une villa à Rabat") w in
  (Agent.status <$> stored w "c1") = Some "completed"%string
  /\ (length <$> (Agent.messages <$> stored w "c1")) = Some 1%nat
  /\ (Agent.criteria <$> stored w "c1") = Some ∅
  /\ returned (fst run) = true
  /\ (Agent.status <$> stored (snd run) "c1") = Some "completed"%string
  /\ (length <$> (Agent.messages <$> stored (snd run) "c1")) = Some 3%nat
  /\ (Agent.criteria <$> stored (snd run) "c1")
     = Some (<["preferred_cities" := VList [u "Rabat"]]>
               (<["preferred_types" := VList [u "villa"]]> ∅)).
Proof. repeat split; by_vm. Qed.

(** C6, amended. [continue_conversation] does not look at the status: for
    every conversation it finds, completed or not, a call that returns has
    appended the user message and the reply to [messages], merged the
    criteria and the contact extracted from the whole transcript, and written
    the state to the cache and, when the store accepts the upserts, to the
    [conversations] table; the status is left as it was. *)
Theorem continue_conversation_ignores_status
    (env : Agent.Env) (id : string) (msg : str) (w : Agent.World)
    (st : Agent.ConversationState) (w1 : Agent.World)
    (r : Agent.ContinueResult) (w' : Agent.World) :
  Agent._get_conversation env id w = (Some st, w1) ->
  Agent.continue_conversation env id msg w = (inr r, w') ->
  exists stf t1 t2 newc,
    let user := {| Agent.role := Agent.User; Agent.content := msg;
                   Agent.timestamp := t1 |} in
    let reply := {| Agent.role := Agent.Assistant;
                    Agent.content := Agent.response (Agent.cont_turn r);
                    Agent.timestamp := t2 |} in
    let text := Agent.conversation_text_of (Agent.messages st ++ [user]) in
    Agent.cache w' !! id = Some stf
    /\ (accepts_upserts env ->
        exists row,
          Agent.conversations w' !! Agent.conversation_id st = Some row
          /\ Agent.row_state row = stf)
    /\ Agent.status stf = Agent.status st
    /\ Agent.messages stf = (Agent.messages st ++ [user]) ++ [reply]
    /\ Agent._extract_criteria (Agent.unicode env) text = inr newc
    /\ Agent.criteria stf = dupdate (Agent.criteria st) newc
    /\ Agent.contact_info stf
       = dupdate (Agent.contact_info st)
           (Agent._extract_contact_info (Agent.unicode env) text).
Proof.
  intros Hg Hc.
  destruct (continue_conversation_inv env id msg w st w1 r w' Hg Hc)
    as (st1 & wp & stf & Hp & Hcache & Hrow & Hm & Hcr & Hci & Hs).
  apply process_message_inv in Hp as (newc & t & Hp). cbv zeta in Hp.
  destruct Hp as (Hx & Hm1 & Hcr1 & Hci1 & _ & _ & (Hs1 & _) & _).
  exists stf, (Agent.ticks w1), t, newc. cbv zeta.
  rewrite Hm, Hcr, Hci, Hs.
  split; [exact Hcache |]. split; [| repeat split; assumption].
  intros Ha. destruct (Hrow Ha) as (row & H1 & H2 & _). exists row. auto.
Qed.

(** C6, witness: the completed conversation of the counterexample. *)
Lemma continue_conversation_ignores_status_witness :
  let w := ended None in
  let msg := u "Je cherche une villa à Rabat" in
  match Agent._get_conversation env0 "c1" w,
        Agent.continue_conversation env0 "c1" msg w with
  | (Some st, w1), (inr r, w') =>
      Agent.status st = "completed"%string
      /\ accepts_upserts env0
      /\ exists stf t1 t2 newc,
           let user := {| Agent.role := Agent.User; Agent.content := msg;
                          Agent.timestamp := t1 |} in
           let reply := {| Agent.role := Agent.Assistant;
                           Agent.content := Agent.response (Agent.cont_turn r);
                           Agent.timestamp := t2 |} in
           let text := Agent.conversation_text_of (Agent.messages st ++ [user]) in
           Agent.cache w' !! "c1"%string = Some stf
           /\ (accepts_upserts env0 ->
               exists row,
                 Agent.conversations w' !! Agent.conversation_id st = Some row
                 /\ Agent.row_state row = stf)
           /\ Agent.status stf = Agent.status st
           /\ Agent.messages stf = (Agent.messages st ++ [user]) ++ [reply]
           /\ Agent._extract_criteria (Agent.unicode env0) text = inr newc
           /\ Agent.criteria stf = dupdate (Agent.criteria st) newc
           /\ Agent.contact_info stf
              = dupdate (Agent.contact_info st)
                  (Agent._extract_contact_info (Agent.unicode env0) text)
  | _, _ => False
  end.
Proof.
  intros w msg.
  destruct (Agent._get_conversation env0 "c1" w) as [[st |] w1] eqn:Hg;
    [| vm_compute in Hg; discriminate].
  assert (Hst := Hg). vm_compute in Hst. injection Hst as Hst Hw1.
  destruct (Agent.continue_conversation env0 "c1" msg w) as [[e | r] w'] eqn:Hc;
    [vm_compute in Hc; discriminate |].
  split; [subst st; reflexivity |].
  split; [intros table row; reflexivity |].
  exact (continue_conversation_ignores_status env0 "c1" msg w st w1 r w' Hg Hc).
Defined.

(** ** End of the conversation *)




(** ** Property search *)




(** ** Exceptions in the extractors *)

(** C9. The conversion of the room count is not guarded. A run of 4301
    digits before "chambres" is matched whole by the rooms pattern, [int]
    refuses it and the [ValueError] leaves [_extract_criteria], and with it
    [start_conversation]; the budget loop, whose conversion sits in a [try]
    block, swallows the error of a malformed amount and returns. *)
Theorem extract_criteria_raises_on_long_room_count :
  Agent._extract_criteria latin1 (repeat 57%N 4301 ++ u " chambres")
  = inl ValueError
  /\ fst (Agent.start_conversation env0
            (Some (repeat 57%N 4301 ++ u " chambres")) None world0)
     = inl ValueError
  /\ Agent._extract_criteria latin1 (u "1" ++ [9%N] ++ u "500" ++ [9%N] ++ u "000")
     = inr ∅.
Proof.
  split; [lazy; reflexivity |].
  split; [lazy; reflexivity |].
  vm_compute. reflexivity.
Qed.

(** ** What the matcher captures *)

Lemma follows_refl (c : cursor) : follows c c.
Proof. exists []. split; [reflexivity | simpl; lia]. Qed.

Lemma follows_trans (a b c : cursor) : follows a b -> follows b c -> follows a c.
Proof.
  intros (l1 & H1 & P1) (l2 & H2 & P2). exists (l1 ++ l2). split.
  - rewrite H1, H2. apply app_assoc.
  - rewrite P2, P1, length_app. lia.
Qed.

Lemma follows_advance (x : N) (s : str) (c : cursor) :
  rest c = x :: s -> follows c (advance x s c).
Proof. intros H. exists [x]. split; [exact H | reflexivity]. Qed.

Section MatcherFacts.
Variable db : unicode_db.
Variable icase : bool.

Lemma reaches_one_char (keeps : bool) (p : N -> bool) : reaches keeps (one_char p).
Proof.
  intros k c cap res. unfold one_char.
  destruct (rest c) as [| x s] eqn:Hr; [discriminate |].
  destruct (p x); [| discriminate]. intros H.
  exists (advance x s c), cap. split; [apply follows_advance; exact Hr |].
  split; [exact H | reflexivity].
Qed.

Lemma reaches_rep (keeps : bool) (body : cont -> cont) :
  reaches keeps body ->
  forall fuel lo hi, reaches keeps (rep body fuel lo hi).
Proof.
  intros Hb fuel. induction fuel as [| f IH]; intros lo hi k c cap res;
    [discriminate |].
  cbn [rep].
  match goal with |- context [body ?K c cap] => set (k' := K) end.
  assert (Hmore : body k' c cap = Some res ->
                  exists c' cap', follows c c' /\ k c' cap' = Some res
                                  /\ (keeps = true -> cap' = cap)).
  { intros H. apply Hb in H as (c1 & cap1 & F1 & H1 & K1). unfold k' in H1.
    destruct (_ || _); [| discriminate].
    apply IH in H1 as (c2 & cap2 & F2 & H2 & K2).
    exists c2, cap2. split; [eapply follows_trans; eassumption |].
    split; [exact H2 |]. intros E. rewrite K2, K1 by exact E. reflexivity. }
  assert (Hstop : (if (lo =? 0)%nat then k c cap else None) = Some res ->
                  exists c' cap', follows c c' /\ k c' cap' = Some res
                                  /\ (keeps = true -> cap' = cap)).
  { destruct (lo =? 0)%nat; [| discriminate]. intros H.
    exists c, cap. split; [apply follows_refl |]. split; [exact H | reflexivity]. }
  destruct hi as [[| h] |].
  - exact Hstop.
  - destruct (body k' c cap) as [r0 |] eqn:E.
    + intros H. injection H as <-. apply Hmore. reflexivity.
    + exact Hstop.
  - destruct (body k' c cap) as [r0 |] eqn:E.
    + intros H. injection H as <-. apply Hmore. reflexivity.
    + exact Hstop.
Qed.

Lemma reaches_exec (size : nat) (r : regex) :
  reaches (count_groups r =? 0)%nat (exec db icase size r).
Proof.
  induction r as [| ch | items | | | | | a IHa b IHb | a IHa b IHb | lo hi a IHa
                  | a IHa]; simpl.
  - intros k c cap res H. exists c, cap.
    split; [apply follows_refl |]. split; [exact H | reflexivity].
  - apply reaches_one_char.
  - apply reaches_one_char.
  - apply reaches_one_char.
  - apply reaches_one_char.
  - apply reaches_one_char.
  - intros k c cap res H. destruct (xorb _ _); [| discriminate].
    exists c, cap. split; [apply follows_refl |]. split; [exact H | reflexivity].
  - intros k c cap res H.
    apply IHa in H as (c1 & cap1 & F1 & H1 & K1).
    apply IHb in H1 as (c2 & cap2 & F2 & H2 & K2).
    exists c2, cap2. split; [eapply follows_trans; eassumption |].
    split; [exact H2 |]. intros E. apply Nat.eqb_eq in E.
    rewrite K2, K1; [reflexivity | apply Nat.eqb_eq; lia | apply Nat.eqb_eq; lia].
  - intros k c cap res H.
    assert (Ha : (count_groups a + count_groups b =? 0)%nat = true ->
                 (count_groups a =? 0)%nat = true
                 /\ (count_groups b =? 0)%nat = true).
    { intros E. apply Nat.eqb_eq in E. split; apply Nat.eqb_eq; lia. }
    destruct (exec db icase size a k c cap) as [r0 |] eqn:E.
    + injection H as <-. apply IHa in E as (c1 & cap1 & F1 & H1 & K1).
      exists c1, cap1. split; [exact F1 |]. split; [exact H1 |].
      intros E. apply K1, Ha, E.
    + apply IHb in H as (c1 & cap1 & F1 & H1 & K1).
      exists c1, cap1. split; [exact F1 |]. split; [exact H1 |].
      intros E'. apply K1, Ha, E'.
  - apply reaches_rep. exact IHa.
  - intros k c cap res H.
    apply IHa in H as (c1 & cap1 & F1 & H1 & _).
    exists c1, (Some (pos c, pos c1)). split; [exact F1 |].
    split; [exact H1 | discriminate].
Qed.

(** A greedy run of [\d]: what was consumed is a run of digits, at least
    [lo] of them. *)
Lemma rep_digits (fuel lo : nat) (hi : option nat) (k : cont) (c : cursor)
    (cap : capture) (res : cursor * capture) :
  rep (one_char (is_digit db)) fuel lo hi k c cap = Some res ->
  exists ds c',
    all_digits db ds /\ (lo <= length ds)%nat
    /\ (forall h, hi = Some h -> (length ds <= h)%nat)
    /\ rest c = ds ++ rest c'
    /\ pos c' = (pos c + N.of_nat (length ds))%N
    /\ k c' cap = Some res.
Proof.
  revert lo hi c. induction fuel as [| f IH]; intros lo hi c; [discriminate |].
  cbn [rep].
  match goal with
  | |- context [one_char (is_digit db) ?K c cap] => set (k' := K)
  end.
  assert (Hmore : one_char (is_digit db) k' c cap = Some res ->
                  hi <> Some 0%nat ->
                  exists ds c',
                    all_digits db ds /\ (lo <= length ds)%nat
                    /\ (forall h, hi = Some h -> (length ds <= h)%nat)
                    /\ rest c = ds ++ rest c'
                    /\ pos c' = (pos c + N.of_nat (length ds))%N
                    /\ k c' cap = Some res).
  { unfold one_char. destruct (rest c) as [| x s] eqn:Hr; [discriminate |].
    destruct (is_digit db x) eqn:Hx; [| discriminate].
    unfold k'. destruct (_ || _); [| discriminate]. intros H Hhi.
    apply IH in H as (ds & c' & Hd & Hl & Hh & Hrest & Hpos & Hk).
    exists (x :: ds), c'. cbn [advance rest pos] in *.
    split; [constructor; assumption |].
    split; [simpl; lia |].
    split.
    { intros h ->. destruct h as [| h']; [congruence |].
      specialize (Hh h' eq_refl). simpl. lia. }
    split; [simpl; congruence |].
    split; [rewrite Hpos; simpl length; lia | exact Hk]. }
  assert (Hstop : (if (lo =? 0)%nat then k c cap else None) = Some res ->
                  exists ds c',
                    all_digits db ds /\ (lo <= length ds)%nat
                    /\ (forall h, hi = Some h -> (length ds <= h)%nat)
                    /\ rest c = ds ++ rest c'
                    /\ pos c' = (pos c + N.of_nat (length ds))%N
                    /\ k c' cap = Some res).
  { destruct (lo =? 0)%nat eqn:E; [| discriminate]. apply Nat.eqb_eq in E.
    intros H. exists [], c. split; [constructor |].
    split; [simpl; lia |]. split; [intros h _; simpl; lia |].
    split; [reflexivity |].
    split; [simpl; lia | exact H]. }
  destruct hi as [[| h] |].
  - exact Hstop.
  - destruct (one_char (is_digit db) k' c cap) as [r0 |] eqn:E.
    + intros H. injection H as <-. apply Hmore; [reflexivity | discriminate].
    + exact Hstop.
  - destruct (one_char (is_digit db) k' c cap) as [r0 |] eqn:E.
    + intros H. injection H as <-. apply Hmore; [reflexivity | discriminate].
    + exact Hstop.
Qed.

Lemma occurs_in_cons (m s : str) (x : N) : occurs_in m s -> occurs_in m (x :: s).
Proof. intros (l1 & l2 & ->). exists (x :: l1), l2. reflexivity. Qed.

Lemma occurs_in_app (m s l : str) : occurs_in m s -> occurs_in m (l ++ s).
Proof.
  intros (l1 & l2 & ->). exists (l ++ l1), l2. rewrite <- app_assoc. reflexivity.
Qed.

(** Every item found by a capturing pattern is a capture allowed by [Q] and
    occurs in the text. *)
Lemma findall_from_captures (r : regex) (Q : str -> Prop) :
  captures db icase r Q ->
  forall fuel c m,
    m ∈ findall_from db icase fuel r c -> Q m /\ occurs_in m (rest c).
Proof.
  intros [Hg Hr] fuel. induction fuel as [| f IH]; intros c m; simpl.
  - intros H. apply elem_of_nil in H. contradiction.
  - assert (Hskip : m ∈ match rest c with
                         | [] => []
                         | x :: t => findall_from db icase f r (advance x t c)
                         end ->
                    Q m /\ occurs_in m (rest c)).
    { destruct (rest c) as [| x t] eqn:E.
      - intros H. apply elem_of_nil in H. contradiction.
      - intros H. apply IH in H as (H1 & H3). cbn [advance rest] in H3.
        split; [exact H1 |]. apply occurs_in_cons, H3. }
    destruct (match_at db icase (S f) r c) as [[cf capf] |] eqn:E; [| exact Hskip].
    destruct (Hr _ _ _ _ E) as (ds & s & HQ & Hrest & -> & (l & Hl & Hp)).
    apply Nat.ltb_lt in Hg. rewrite Hg.
    assert (Hspan : span c (pos c) (pos c + N.of_nat (length ds)) = ds).
    { unfold span. rewrite N.sub_diag. change (N.to_nat 0) with 0%nat.
      rewrite drop_0.
      replace (N.to_nat (pos c + N.of_nat (length ds) - pos c)) with (length ds)
        by lia.
      rewrite Hrest. apply take_app_length. }
    rewrite Hspan.
    assert (Hhead : m = ds -> Q m /\ occurs_in m (rest c)).
    { intros ->. split; [exact HQ |]. exists [], s. exact Hrest. }
    destruct (pos c <? pos cf)%N.
    + intros H. apply elem_of_cons in H as [H | H]; [auto |].
      apply IH in H as (H1 & H3).
      split; [exact H1 |]. rewrite Hl. apply occurs_in_app, H3.
    + intros H. apply elem_of_cons in H as [H | H]; auto.
Qed.

Lemma findall_captures (r : regex) (Q : str -> Prop) (s m : str) :
  captures db icase r Q ->
  m ∈ findall db icase r s -> Q m /\ occurs_in m s.
Proof.
  intros Hr H. unfold findall in H.
  apply (findall_from_captures r Q Hr) in H. exact H.
Qed.

(** [(\d+)tail] captures a non-empty run of digits. *)
Lemma captures_digits_then (r tail : regex) :
  digits_then r tail ->
  captures db icase r (fun m => m <> [] /\ all_digits db m).
Proof.
  intros [-> Hg]. split; [simpl; lia |].
  intros size c cf capf. unfold match_at. cbn [exec].
  intros H. apply rep_digits in H as (ds & c1 & Hd & Hl & _ & Hrest & Hpos & Hk).
  pose proof (reaches_exec size tail) as Ht.
  apply Ht in Hk as (c2 & cap2 & F2 & H2 & K2).
  rewrite Hg in K2. specialize (K2 eq_refl). subst cap2.
  injection H2 as <- <-.
  exists ds, (rest c1).
  split; [split; [destruct ds; [simpl in Hl; lia | discriminate] | exact Hd] |].
  split; [exact Hrest |].
  split; [rewrite Hpos; reflexivity |].
  eapply follows_trans; [| exact F2].
  exists ds. split; assumption.
Qed.

(** [(\d{10})] captures ten digits. *)
Lemma captures_phone_bare :
  captures db icase Agent.phone_pattern_bare
    (fun m => length m = 10%nat /\ all_digits db m).
Proof.
  split; [simpl; lia |].
  intros size c cf capf. unfold match_at, Agent.phone_pattern_bare, RTimes.
  cbn [exec].
  intros H. apply rep_digits in H as (ds & c1 & Hd & Hl & Hh & Hrest & Hpos & Hk).
  specialize (Hh _ eq_refl). injection Hk as <- <-.
  exists ds, (rest c1). split; [split; [lia | exact Hd] |].
  split; [exact Hrest |]. split; [rewrite Hpos; reflexivity |].
  exists ds. split; assumption.
Qed.

End MatcherFacts.

(** ** [int] on what the patterns capture *)

Section IntFacts.
Variable db : unicode_db.
Hypothesis plain : digits_plain db.

Lemma lstrip_digits (ds : str) : all_digits db ds -> lstrip db ds = ds.
Proof.
  intros H. destruct H as [| c r Hc Hr]; [reflexivity |].
  simpl. destruct (plain c Hc) as [-> _]. reflexivity.
Qed.

Lemma strip_digits (ds : str) : all_digits db ds -> strip db ds = ds.
Proof.
  intros H. unfold strip. rewrite (lstrip_digits ds H).
  rewrite lstrip_digits by (apply Forall_reverse; exact H).
  apply reverse_involutive.
Qed.

Lemma digits_value_digits (ds : str) :
  all_digits db ds ->
  forall count acc after,
    ds <> [] ->
    exists v, digits_value db ds count acc after = Some ((count + length ds)%nat, v).
Proof.
  induction 1 as [| c r Hc Hr IH]; intros count acc after Hne; [contradiction |].
  simpl. unfold is_digit in Hc.
  destruct (decimal db c) as [d |]; [| discriminate].
  destruct r as [| c' r'].
  - simpl. eexists. f_equal. f_equal. lia.
  - destruct (IH (S count) (acc * 10 + d) true) as [v Hv]; [discriminate |].
    exists v. rewrite Hv. f_equal. f_equal. simpl. lia.
Qed.

(** [int] accepts every non-empty run of digits that is not too long. *)
Lemma py_int_digits (ds : str) :
  ds <> [] -> all_digits db ds -> (length ds <= int_max_str_digits)%nat ->
  exists n, py_int db ds = inr n.
Proof.
  intros Hne Hd Hlen. unfold py_int. rewrite (strip_digits ds Hd).
  destruct ds as [| c r]; [contradiction |].
  assert (Hc : is_digit db c = true) by (inversion Hd; assumption).
  destruct (plain c Hc) as (_ & H45 & H43).
  destruct (digits_value_digits (c :: r) Hd 0%nat 0 false Hne) as [v Hv].
  assert (E : (int_max_str_digits <? 0 + length (c :: r))%nat = false)
    by (apply Nat.ltb_ge; simpl in *; lia).
  destruct c as [| p];
    [cbv beta iota zeta; rewrite Hv, E; eexists; reflexivity |].
  do 6 (destruct p as [p | p |];
        try (cbv beta iota zeta; rewrite Hv, E; eexists; reflexivity));
    congruence.
Qed.
End IntFacts.

Lemma occurs_in_length (m s : str) : occurs_in m s -> (length m <= length s)%nat.
Proof. intros (l1 & l2 & ->). rewrite !length_app. lia. Qed.

Lemma latin1_digits_plain : digits_plain latin1.
Proof.
  intros c H. unfold is_digit in H. cbn [decimal latin1] in H.
  unfold latin1_decimal in H.
  destruct (in_range 48 57 c) eqn:E; [| discriminate].
  unfold in_range in E. apply andb_true_iff in E as [E1 E2].
  apply N.leb_le in E1, E2.
  assert (Hc : (c = 48 \/ c = 49 \/ c = 50 \/ c = 51 \/ c = 52 \/ c = 53
                \/ c = 54 \/ c = 55 \/ c = 56 \/ c = 57)%N) by lia.
  repeat destruct Hc as [-> | Hc]; try subst c;
    (split; [reflexivity | split; discriminate]).
Qed.

(** ** Further facts on the criteria extractor *)

Section ExtractorFacts.
Variable db : unicode_db.

Lemma rooms_pattern_captures (icase : bool) :
  captures db icase Agent.rooms_pattern (fun m => m <> [] /\ all_digits db m).
Proof. eapply captures_digits_then. split; reflexivity. Qed.

Lemma area_pattern_captures (icase : bool) :
  captures db icase Agent.area_pattern (fun m => m <> [] /\ all_digits db m).
Proof. eapply captures_digits_then. split; reflexivity. Qed.

(** The exact shape of a returning extraction. *)
Lemma extract_criteria_shape (text : str) (c : dict) :
  Agent._extract_criteria db text = inr c ->
  exists rooms area,
    c = opt_insert "area" area
          (opt_insert "rooms" rooms
             (Agent.budget_loop db Agent.budget_patterns (str_lower db text)
                (criteria_before_budget (str_lower db text)))).
Proof.
  rewrite extract_criteria_unfold. cbv zeta.
  set (bud := Agent.budget_loop db _ _ _). clearbody bud. intros H.
  destruct (findall db false Agent.rooms_pattern _) as [| r0 rs].
  - destruct (findall db false Agent.area_pattern _) as [| a0 as_].
    + exists None, None. simpl in H. injection H as <-. reflexivity.
    + simpl in H. destruct (py_int db a0) as [e | n]; [discriminate |].
      simpl in H. injection H as <-. exists None, (Some n). reflexivity.
  - simpl in H. destruct (py_int db r0) as [e | nr]; [discriminate |].
    simpl in H.
    destruct (findall db false Agent.area_pattern _) as [| a0 as_].
    + simpl in H. injection H as <-. exists (Some nr), None. reflexivity.
    + simpl in H. destruct (py_int db a0) as [e | n]; [discriminate |].
      simpl in H. injection H as <-. exists (Some nr), (Some n). reflexivity.
Qed.

(** The keys written before the budget loop are not touched afterwards. *)
Lemma extract_criteria_keeps_base (text : str) (c : dict) (k : string) :
  Agent._extract_criteria db text = inr c ->
  k <> "area"%string -> k <> "rooms"%string ->
  k <> "budget_min"%string -> k <> "budget_max"%string ->
  c !! k = criteria_before_budget (str_lower db text) !! k.
Proof.
  intros H Ha Hr Hmin Hmax.
  apply extract_criteria_shape in H as (rooms & area & ->).
  assert (Hopt : forall key x (d : dict),
             key <> k -> opt_insert key x d !! k = d !! k).
  { intros key [n |] d Hne; simpl; [apply lookup_insert_ne; exact Hne | reflexivity]. }
  rewrite !Hopt by congruence.
  destruct (budget_loop_result db Agent.budget_patterns (str_lower db text)
              (criteria_before_budget (str_lower db text)))
    as [-> | [a [-> | ->]]];
    [reflexivity | |]; apply lookup_insert_ne; congruence.
Qed.
End ExtractorFacts.

(** ** Substrings and detection *)

Lemma starts_with_spec (p s : str) :
  starts_with p s = true <-> exists t, s = p ++ t.
Proof.
  revert s. induction p as [| a p IH]; intros s; simpl.
  - split; [intros _; exists s; reflexivity | reflexivity].
  - destruct s as [| b s].
    + split; [discriminate | intros [t H]; discriminate].
    + rewrite andb_true_iff, N.eqb_eq, IH. split.
      * intros [-> [t ->]]. exists t. reflexivity.
      * intros [t H]. injection H as -> ->.
        split; [reflexivity | exists t; reflexivity].
Qed.

Lemma contains_spec (sub s : str) : contains sub s = true <-> occurs_in sub s.
Proof.
  induction s as [| x s IH]; cbn [contains]; rewrite orb_true_iff, starts_with_spec.
  - split.
    + intros [[t H] | H]; [| discriminate]. exists [], t. exact H.
    + intros (l1 & l2 & H). left. symmetry in H.
      apply app_eq_nil in H as [-> H]. apply app_eq_nil in H as [-> ->].
      exists []. reflexivity.
  - rewrite IH. split.
    + intros [[t H] | H]; [exists [], t; exact H | apply occurs_in_cons, H].
    + intros (l1 & l2 & H). destruct l1 as [| y l1].
      * left. exists l2. exact H.
      * right. injection H as -> ->. exists l1, l2. reflexivity.
Qed.

Lemma any_in_spec (kws : list str) (s : str) :
  any_in kws s = true <-> exists kw, kw ∈ kws /\ occurs_in kw s.
Proof.
  unfold any_in. rewrite existsb_exists. split.
  - intros (kw & Hin & H). exists kw.
    split; [apply list_elem_of_In, Hin | apply contains_spec, H].
  - intros (kw & Hin & H). exists kw.
    split; [apply list_elem_of_In, Hin | apply contains_spec, H].
Qed.

Lemma occurs_in_slice (m s : str) (a b : Z) :
  occurs_in m (slice s a b) -> occurs_in m s.
Proof.
  unfold slice. cbv zeta.
  set (n := Z.to_nat _). set (k := Z.to_nat _). clearbody n k.
  intros (l1 & l2 & H).
  exists (take k s ++ l1), (l2 ++ drop n (drop k s)).
  rewrite <- (take_drop k s) at 1.
  rewrite <- (take_drop n (drop k s)) at 1.
  rewrite H, <- !app_assoc. reflexivity.
Qed.

Lemma any_in_slice (kws : list str) (s : str) (a b : Z) :
  any_in kws (slice s a b) = true -> any_in kws s = true.
Proof.
  rewrite !any_in_spec. intros (kw & Hin & H).
  exists kw. split; [exact Hin | eapply occurs_in_slice, H].
Qed.

Lemma detect_spec (table : list (str * list str)) (text x : str) :
  x ∈ Agent.detect table text
  <-> exists kws, (x, kws) ∈ table /\ any_in kws text = true.
Proof.
  unfold Agent.detect.
  change (map fst ?l) with (fst <$> l).
  rewrite list_elem_of_fmap. split.
  - intros ([y kws] & -> & H). apply list_elem_of_filter in H as [H1 H2].
    exists kws. split; [exact H2 | apply Is_true_eq_true, H1].
  - intros (kws & H1 & H2). exists (x, kws). split; [reflexivity |].
    apply list_elem_of_filter. split; [apply Is_true_eq_left, H2 | exact H1].
Qed.

Lemma opt_insert_ne (k key : string) (x : option Z) (d : dict) :
  key <> k -> opt_insert key x d !! k = d !! k.
Proof.
  intros Hne. destruct x as [n |]; simpl;
    [apply lookup_insert_ne; exact Hne | reflexivity].
Qed.

(** ** The criteria extractor on arbitrary texts *)

Section ExtractorTheorems.
Variable db : unicode_db.

Lemma any_in_mentions (words : list str) (text : str) :
  any_in words text = true <-> mentions words text.
Proof. apply any_in_spec. Qed.

Lemma base_cities (tl : str) :
  list_at (criteria_before_budget tl) "preferred_cities"
  = Agent.detect Agent.cities_map tl.
Proof.
  unfold list_at, criteria_before_budget.
  destruct (Agent.detect Agent.cities_map tl);
    destruct (Agent.detect Agent.types_map tl);
    destruct (any_in _ tl); try destruct (any_in _ tl); reflexivity.
Qed.

Lemma base_types (tl : str) :
  list_at (criteria_before_budget tl) "preferred_types"
  = Agent.detect Agent.types_map tl.
Proof.
  unfold list_at, criteria_before_budget.
  destruct (Agent.detect Agent.cities_map tl);
    destruct (Agent.detect Agent.types_map tl);
    destruct (any_in _ tl); try destruct (any_in _ tl); reflexivity.
Qed.

Lemma base_transaction (tl : str) :
  criteria_before_budget tl !! "transaction_type"
  = if any_in purchase_words tl then Some (VStr (u "vente"))
    else if any_in rental_words tl then Some (VStr (u "location"))
    else None.
Proof.
  unfold criteria_before_budget, purchase_words, rental_words.
  destruct (Agent.detect Agent.cities_map tl);
    destruct (Agent.detect Agent.types_map tl);
    destruct (any_in _ tl); try destruct (any_in _ tl); reflexivity.
Qed.

Lemma criteria_typed_insert (c : dict) (key : string) (val : value) :
  criterion_typed key val -> criteria_typed c -> criteria_typed (<[key := val]> c).
Proof.
  intros Hv Hc k v. destruct (decide (key = k)) as [-> | Hne].
  - rewrite lookup_insert_eq. intros H. injection H as <-. exact Hv.
  - rewrite lookup_insert_ne by exact Hne. apply Hc.
Qed.

Lemma criteria_typed_empty : criteria_typed ∅.
Proof. intros k v H. rewrite lookup_empty in H. discriminate. Qed.

Lemma base_typed (tl : str) : criteria_typed (criteria_before_budget tl).
Proof.
  unfold criteria_before_budget.
  assert (Hc : criteria_typed
                 match Agent.detect Agent.cities_map tl with
                 | [] => ∅
                 | _ :: _ =>
                     <["preferred_cities" := VList (Agent.detect Agent.cities_map tl)]> ∅
                 end).
  { destruct (Agent.detect Agent.cities_map tl) as [| x l] eqn:E;
      [apply criteria_typed_empty |].
    apply criteria_typed_insert; [| apply criteria_typed_empty].
    left. split; [reflexivity |]. eexists. split; [reflexivity | discriminate]. }
  destruct (Agent.detect Agent.cities_map tl) as [| x l];
    destruct (Agent.detect Agent.types_map tl) as [| y l'];
    destruct (any_in _ tl); try destruct (any_in _ tl);
    repeat (apply criteria_typed_insert;
            [first [ right; right; left; split; [reflexivity |]; auto; fail
                   | right; left; split; [reflexivity |]; eexists;
                     split; [reflexivity | discriminate] ] |]);
    assumption.
Qed.

Lemma criteria_typed_opt_insert (c : dict) (key : string) (x : option Z) :
  key = "rooms"%string \/ key = "area"%string ->
  criteria_typed c -> criteria_typed (opt_insert key x c).
Proof.
  intros Hk Hc. destruct x as [n |]; [| exact Hc]. simpl.
  apply criteria_typed_insert; [| exact Hc].
  right. right. right. split; [tauto | eauto].
Qed.

Lemma budget_try_floor (text m0 : str) (c c' : dict) :
  Agent.budget_try db text m0 c = inr c' ->
  exists a,
    c' = <["budget_max" := VInt a]> c
    \/ (c' = <["budget_min" := VInt a]> c /\ any_in floor_words text = true).
Proof.
  unfold Agent.budget_try.
  destruct (py_int db _) as [e | amount]; [discriminate |].
  cbn [bind]. cbv zeta. unfold ret.
  match goal with |- (if ?b then _ else _) = _ -> _ => destruct b end.
  - intros H. injection H as <-. eauto.
  - match goal with |- (if ?b then _ else _) = _ -> _ => destruct b eqn:E end.
    + intros H. injection H as <-. eexists. right. split; [reflexivity |].
      eapply any_in_slice, E.
    + intros H. injection H as <-. eauto.
Qed.

Lemma budget_loop_floor (patterns : list regex) (text : str) (c : dict) :
  Agent.budget_loop db patterns text c = c
  \/ exists a,
       Agent.budget_loop db patterns text c = <["budget_max" := VInt a]> c
       \/ (Agent.budget_loop db patterns text c = <["budget_min" := VInt a]> c
           /\ any_in floor_words text = true).
Proof.
  induction patterns as [| pattern rest IH]; simpl; [left; reflexivity |].
  destruct (findall db true pattern text) as [| m0 ms]; [exact IH |].
  destruct (Agent.budget_try db text m0 c) as [e | c'] eqn:E; [exact IH |].
  right. apply budget_try_floor in E. exact E.
Qed.
End ExtractorTheorems.

Lemma extract_criteria_typed (db : unicode_db) (text : str) (c : dict) :
  Agent._extract_criteria db text = inr c -> criteria_typed c.
Proof.
  intros H. apply extract_criteria_shape in H as (rooms & area & ->).
  apply criteria_typed_opt_insert; [tauto |].
  apply criteria_typed_opt_insert; [tauto |].
  pose proof (base_typed (str_lower db text)) as Hb.
  destruct (budget_loop_result db Agent.budget_patterns (str_lower db text)
              (criteria_before_budget (str_lower db text)))
    as [-> | [a [-> | ->]]]; [exact Hb | |];
    (apply criteria_typed_insert; [| exact Hb]);
    right; right; right; (split; [tauto | eauto]).
Qed.

(** X1. The extractor returns a mapping for every text whose runs of
    consecutive digits have at most 4300 digits each, the Unicode tables
    being such that a decimal digit is neither white space nor a sign. *)
Theorem extraction_returns_on_bounded_digit_runs (db : unicode_db) (text : str) :
  digits_plain db ->
  digit_runs_bounded db (str_lower db text) ->
  exists criteria, Agent._extract_criteria db text = inr criteria.
Proof.
  intros Hp Hb. rewrite extract_criteria_unfold. cbv zeta.
  set (tl := str_lower db text) in *.
  set (bud := Agent.budget_loop db _ _ _). clearbody bud.
  assert (Hint : forall r m0 ms,
             captures db false r (fun m => m <> [] /\ all_digits db m) ->
             findall db false r tl = m0 :: ms ->
             exists n, py_int db m0 = inr n).
  { intros r m0 ms Hr Hf.
    destruct (findall_captures db false r _ tl m0 Hr) as [[Hne Hd] Ho].
    { rewrite Hf. apply list_elem_of_here. }
    apply py_int_digits; auto. }
  destruct (findall db false Agent.rooms_pattern tl) as [| r0 rs] eqn:Er.
  - destruct (findall db false Agent.area_pattern tl) as [| a0 as_] eqn:Ea.
    + eexists. reflexivity.
    + destruct (Hint _ _ _ (area_pattern_captures db false) Ea) as [n Hn].
      simpl. rewrite Hn. eexists. reflexivity.
  - destruct (Hint _ _ _ (rooms_pattern_captures db false) Er) as [nr Hnr].
    simpl. rewrite Hnr. simpl.
    destruct (findall db false Agent.area_pattern tl) as [| a0 as_] eqn:Ea.
    + eexists. reflexivity.
    + destruct (Hint _ _ _ (area_pattern_captures db false) Ea) as [n Hn].
      simpl. rewrite Hn. eexists. reflexivity.
Qed.

(** X1, witness: a short request. *)
Lemma extraction_returns_on_bounded_digit_runs_witness :
  digits_plain latin1
  /\ digit_runs_bounded latin1 (str_lower latin1 (u "3 chambres, 120 m2"))
  /\ exists criteria,
       Agent._extract_criteria latin1 (u "3 chambres, 120 m2") = inr criteria.
Proof.
  assert (Hb : digit_runs_bounded latin1 (str_lower latin1 (u "3 chambres, 120 m2"))).
  { intros m Ho _. apply occurs_in_length in Ho.
    etransitivity; [exact Ho |]. apply Nat.leb_le. vm_compute. reflexivity. }
  split; [exact latin1_digits_plain |]. split; [exact Hb |].
  exact (extraction_returns_on_bounded_digit_runs latin1 _ latin1_digits_plain Hb).
Defined.

(** X2. A returned mapping holds nothing but the seven criteria, each with a
    value of its kind: non-empty lists of cities and of types, "vente" or
    "location" as transaction type, integers for the budget bounds, the
    rooms and the area. *)
Theorem extraction_writes_typed_criteria (db : unicode_db) (text : str)
    (c : dict) (k : string) (v : value) :
  Agent._extract_criteria db text = inr c ->
  c !! k = Some v ->
  criterion_typed k v.
Proof. intros H. exact (extract_criteria_typed db text c H k v). Qed.

(** X2, witness: the rooms of a request. *)
Lemma extraction_writes_typed_criteria_witness :
  Agent._extract_criteria latin1 (u "villa 3 chambres")
  = inr (<["rooms" := VInt 3]> (<["preferred_types" := VList [u "villa"]]> ∅))
  /\ criterion_typed "rooms" (VInt 3).
Proof.
  assert (H : Agent._extract_criteria latin1 (u "villa 3 chambres")
              = inr (<["rooms" := VInt 3]>
                       (<["preferred_types" := VList [u "villa"]]> ∅)))
    by (vm_compute; reflexivity).
  split; [exact H |].
  apply (extraction_writes_typed_criteria latin1 _ _ "rooms" (VInt 3) H).
  reflexivity.
Defined.

(** X3. Detection of cities and of property types is exact: a city is in
    [preferred_cities] if and only if one of its keywords occurs in the
    lower-cased text, and likewise for the types. *)
Theorem detection_is_exact (db : unicode_db) (text : str) (c : dict) :
  Agent._extract_criteria db text = inr c ->
  (forall city,
     city ∈ list_at c "preferred_cities"
     <-> exists keywords,
           (city, keywords) ∈ Agent.cities_map
           /\ mentions keywords (str_lower db text))
  /\ (forall type,
        type ∈ list_at c "preferred_types"
        <-> exists keywords,
              (type, keywords) ∈ Agent.types_map
              /\ mentions keywords (str_lower db text)).
Proof.
  intros H.
  assert (Hc : list_at c "preferred_cities"
               = Agent.detect Agent.cities_map (str_lower db text)).
  { unfold list_at.
    rewrite (extract_criteria_keeps_base db text c _ H) by discriminate.
    apply base_cities. }
  assert (Ht : list_at c "preferred_types"
               = Agent.detect Agent.types_map (str_lower db text)).
  { unfold list_at.
    rewrite (extract_criteria_keeps_base db text c _ H) by discriminate.
    apply base_types. }
  rewrite Hc, Ht. split; intros x; rewrite detect_spec;
    split; intros (kws & H1 & H2); exists kws;
    (split; [exact H1 | apply any_in_mentions, H2]).
Qed.

(** X3, witness: "casa" is enough for Casablanca. *)
Lemma detection_is_exact_witness :
  Agent._extract_criteria latin1 (u "Un riad a Casa")
  = inr (<["preferred_cities" := VList [u "Casablanca"]]>
           (<["preferred_types" := VList [u "riad"]]> ∅))
  /\ (u "Casablanca" ∈ list_at (<["preferred_cities" := VList [u "Casablanca"]]>
                                   (<["preferred_types" := VList [u "riad"]]> ∅))
                         "preferred_cities"
      <-> exists keywords,
            (u "Casablanca", keywords) ∈ Agent.cities_map
            /\ mentions keywords (str_lower latin1 (u "Un riad a Casa"))).
Proof.
  assert (H : Agent._extract_criteria latin1 (u "Un riad a Casa")
              = inr (<["preferred_cities" := VList [u "Casablanca"]]>
                       (<["preferred_types" := VList [u "riad"]]> ∅)))
    by (vm_compute; reflexivity).
  split; [exact H |].
  exact (proj1 (detection_is_exact latin1 _ _ H) (u "Casablanca")).
Defined.

(** X4. The transaction type is "vente" exactly when a purchase word occurs
    in the lower-cased text, "location" exactly when a rental word occurs and
    no purchase word does, and absent exactly when neither occurs: a purchase
    word prevails over every rental word. *)
Theorem purchase_words_prevail (db : unicode_db) (text : str) (c : dict) :
  Agent._extract_criteria db text = inr c ->
  let text_lower := str_lower db text in
  (c !! "transaction_type" = Some (VStr (u "vente"))
   <-> mentions purchase_words text_lower)
  /\ (c !! "transaction_type" = Some (VStr (u "location"))
      <-> mentions rental_words text_lower
          /\ ~ mentions purchase_words text_lower)
  /\ (c !! "transaction_type" = None
      <-> ~ mentions rental_words text_lower
          /\ ~ mentions purchase_words text_lower).
Proof.
  intros H tl.
  rewrite (extract_criteria_keeps_base db text c _ H) by discriminate.
  fold tl. rewrite base_transaction, <- !any_in_mentions.
  destruct (any_in purchase_words tl); destruct (any_in rental_words tl);
    repeat split; intros; try discriminate; try congruence;
    try tauto; intuition discriminate.
Qed.

(** X4, witness: a text that speaks of renting and of buying. *)
Lemma purchase_words_prevail_witness :
  Agent._extract_criteria latin1 (u "louer ou acheter")
  = inr (<["transaction_type" := VStr (u "vente")]> ∅)
  /\ mentions purchase_words (str_lower latin1 (u "louer ou acheter")).
Proof.
  assert (H : Agent._extract_criteria latin1 (u "louer ou acheter")
              = inr (<["transaction_type" := VStr (u "vente")]> ∅))
    by (vm_compute; reflexivity).
  split; [exact H |].
  apply (proj1 (purchase_words_prevail latin1 _ _ H)). reflexivity.
Defined.

(** X5. A floor is set only when the text has a floor word: if a returned
    mapping has [budget_min], then "min", "au moins" or "partir" occurs in
    the lower-cased text, and the mapping has no [budget_max]. *)
Theorem budget_floor_needs_a_floor_word (db : unicode_db) (text : str) (c : dict) :
  Agent._extract_criteria db text = inr c ->
  is_Some (c !! "budget_min") ->
  mentions floor_words (str_lower db text) /\ c !! "budget_max" = None.
Proof.
  intros H Hmin.
  pose proof (extract_criteria_one_budget db text c H) as Hone.
  split.
  - apply extract_criteria_shape in H as (rooms & area & ->).
    rewrite !opt_insert_ne in Hmin by discriminate.
    destruct (criteria_before_budget_facts (str_lower db text)) as [[Hn _] _].
    destruct (budget_loop_floor db Agent.budget_patterns (str_lower db text)
                (criteria_before_budget (str_lower db text)))
      as [E | [a [E | [E Hw]]]]; rewrite E in Hmin.
    + rewrite Hn in Hmin. destruct Hmin; discriminate.
    + rewrite lookup_insert_ne, Hn in Hmin by discriminate.
      destruct Hmin; discriminate.
    + apply any_in_mentions, Hw.
  - destruct (c !! "budget_max") eqn:E; [| reflexivity].
    exfalso. apply Hone. split; [exact Hmin | eauto].
Qed.

(** X5, witness: a floor of eight millions. *)
Lemma budget_floor_needs_a_floor_word_witness :
  Agent._extract_criteria latin1 (u "à partir de 8000000")
  = inr (<["budget_min" := VInt 8000000]> ∅)
  /\ mentions floor_words (str_lower latin1 (u "à partir de 8000000"))
  /\ (<["budget_min" := VInt 8000000]> ∅ : dict) !! "budget_max" = None.
Proof.
  assert (H : Agent._extract_criteria latin1 (u "à partir de 8000000")
              = inr (<["budget_min" := VInt 8000000]> ∅))
    by (vm_compute; reflexivity).
  split; [exact H |].
  apply (budget_floor_needs_a_floor_word latin1 _ _ H).
  rewrite lookup_insert_eq. eauto.
Defined.

(** ** The contact extractor *)

Section ContactFacts.
Variable db : unicode_db.

Lemma consumes_char (ch : N) : consumes db false (RChar ch) (fun m => m = [ch]).
Proof.
  intros size k c cap res. cbn [exec]. unfold one_char, char_matches.
  destruct (rest c) as [| x s] eqn:Hr; [discriminate |].
  destruct (N.eqb_spec x ch) as [-> | Hne]; [| discriminate].
  intros H. exists [ch], (advance ch s c).
  split; [reflexivity |]. split; [reflexivity |].
  split; [reflexivity | exact H].
Qed.

Lemma consumes_seq (icase : bool) (a b : regex) (Qa Qb : str -> Prop) :
  consumes db icase a Qa -> consumes db icase b Qb ->
  consumes db icase (RSeq a b) (fun m => exists m1 m2, m = m1 ++ m2 /\ Qa m1 /\ Qb m2).
Proof.
  intros Ha Hb size k c cap res. cbn [exec]. intros H.
  apply Ha in H as (m1 & c1 & Q1 & R1 & P1 & H).
  apply Hb in H as (m2 & c2 & Q2 & R2 & P2 & H).
  exists (m1 ++ m2), c2. split; [eauto |].
  split; [rewrite R1, R2; apply app_assoc |].
  split; [rewrite P2, P1, length_app; lia | exact H].
Qed.

Lemma consumes_alt (icase : bool) (a b : regex) (Qa Qb : str -> Prop) :
  consumes db icase a Qa -> consumes db icase b Qb ->
  consumes db icase (RAlt a b) (fun m => Qa m \/ Qb m).
Proof.
  intros Ha Hb size k c cap res. cbn [exec].
  destruct (exec db icase size a k c cap) as [r0 |] eqn:E.
  - intros H. injection H as <-.
    apply Ha in E as (m & c' & Q & R & P & H). exists m, c'. auto.
  - intros H. apply Hb in H as (m & c' & Q & R & P & H). exists m, c'. auto.
Qed.

Lemma consumes_weaken (icase : bool) (g : regex) (Q Q' : str -> Prop) :
  (forall m, Q m -> Q' m) -> consumes db icase g Q -> consumes db icase g Q'.
Proof.
  intros HQ Hg size k c cap res H.
  apply Hg in H as (m & c' & Hm & R & P & H). exists m, c'. auto.
Qed.

(** A group followed by a pattern without groups captures what the group
    consumes. *)
Lemma captures_group_then (icase : bool) (g tail : regex) (Q : str -> Prop) :
  consumes db icase g Q -> count_groups tail = 0%nat ->
  captures db icase (RSeq (RGroup g) tail) Q.
Proof.
  intros Hg Ht. split; [simpl; lia |].
  intros size c cf capf. unfold match_at. cbn [exec]. intros H.
  apply Hg in H as (m & c1 & HQ & R & P & H).
  pose proof (reaches_exec db icase size tail) as Hr.
  apply Hr in H as (c2 & cap2 & F2 & H2 & K2).
  rewrite Ht in K2. specialize (K2 eq_refl). subst cap2.
  injection H2 as <- <-.
  exists m, (rest c1). split; [exact HQ |]. split; [exact R |].
  split; [rewrite P; reflexivity |].
  eapply follows_trans; [| exact F2]. exists m. split; assumption.
Qed.

(** [(\+212|0)[5-7]\d{8}] captures the prefix. *)
Lemma phone_pattern_ma_captures :
  captures db false Agent.phone_pattern_ma (fun m => m = u "+212" \/ m = u "0").
Proof.
  unfold Agent.phone_pattern_ma. cbn [RSeqs].
  apply captures_group_then; [| reflexivity].
  change (RLit (u "+212"))
    with (RSeq (RChar 43) (RSeq (RChar 50) (RSeq (RChar 49) (RChar 50)))).
  apply consumes_alt.
  - eapply consumes_weaken;
      [| apply consumes_seq; [apply consumes_char |];
         apply consumes_seq; [apply consumes_char |];
         apply consumes_seq; apply consumes_char].
    intros m (m1 & m2 & -> & -> & m3 & m4 & -> & -> & m5 & m6 & -> & -> & ->).
    reflexivity.
  - apply consumes_char.
Qed.

Lemma first_match_phone (text m0 : str) :
  Agent.first_match db false Agent.phone_patterns text = Some m0 ->
  match findall db false Agent.phone_pattern_ma text with
  | _ :: _ => m0 = u "+212" \/ m0 = u "0"
  | [] => length m0 = 10%nat /\ all_digits db m0 /\ occurs_in m0 text
  end.
Proof.
  unfold Agent.first_match, Agent.phone_patterns.
  destruct (findall db false Agent.phone_pattern_ma text) as [| a l] eqn:Ea.
  - destruct (findall db false Agent.phone_pattern_bare text) as [| b l'] eqn:Eb;
      [discriminate |].
    intros H. injection H as <-.
    destruct (findall_captures db false _ _ text b (captures_phone_bare db false))
      as [[H1 H2] H3]; [rewrite Eb; apply list_elem_of_here | auto].
  - intros H. injection H as <-.
    destruct (findall_captures db false _ _ text a phone_pattern_ma_captures)
      as [H1 _]; [rewrite Ea; apply list_elem_of_here | exact H1].
Qed.

Lemma contact_phone (text : str) :
  Agent._extract_contact_info db text !! "phone"
  = Some match Agent.first_match db false Agent.phone_patterns text with
         | Some m0 => VStr m0
         | None => VNone
         end.
Proof.
  unfold Agent._extract_contact_info. cbv zeta.
  destruct (Agent.first_match db false Agent.phone_patterns text);
    destruct (findall db false Agent.email_pattern text);
    destruct (Agent.first_match db true Agent.name_patterns text);
    reflexivity.
Qed.

(** The record always has its three keys. *)
Lemma contact_keys (text : str) (k : string) :
  is_Some (Agent._extract_contact_info db text !! k)
  <-> k = "name"%string \/ k = "phone"%string \/ k = "email"%string.
Proof.
  unfold Agent._extract_contact_info. cbv zeta.
  destruct (Agent.first_match db false Agent.phone_patterns text);
    destruct (findall db false Agent.email_pattern text);
    destruct (Agent.first_match db true Agent.name_patterns text);
    rewrite ?lookup_insert_is_Some, lookup_empty, is_Some_alt; intuition congruence.
Qed.
End ContactFacts.

(** X6. The phone kept by the contact extractor is never a Moroccan number:
    when [(\+212|0)[5-7]\d{8}] matches somewhere in the text, [phone] is what
    its group captured, the prefix "+212" or "0"; otherwise it is [None] or a
    run of exactly ten digits of the text. *)
Theorem phone_is_a_prefix_or_ten_digits (db : unicode_db) (text : str) :
  let phone := dget (Agent._extract_contact_info db text) "phone" in
  match findall db false Agent.phone_pattern_ma text with
  | _ :: _ => phone = VStr (u "+212") \/ phone = VStr (u "0")
  | [] =>
      phone = VNone
      \/ exists ds,
           phone = VStr ds /\ length ds = 10%nat /\ all_digits db ds
           /\ occurs_in ds text
  end.
Proof.
  unfold dget. rewrite contact_phone. cbn [default].
  destruct (Agent.first_match db false Agent.phone_patterns text) as [m0 |] eqn:E.
  - apply first_match_phone in E.
    destruct (findall db false Agent.phone_pattern_ma text).
    + right. exists m0. split; [reflexivity | exact E].
    + destruct E as [-> | ->]; auto.
  - unfold Agent.first_match, Agent.phone_patterns in E.
    destruct (findall db false Agent.phone_pattern_ma text); [| discriminate].
    left. reflexivity.
Qed.

(** ** A turn of the agent *)

Section TurnTheorems.
Variable env : Agent.Env.

Lemma contact_after_update (old : dict) (text : str) (k : string) :
  k = "name"%string \/ k = "phone"%string \/ k = "email"%string ->
  dupdate old (Agent._extract_contact_info (Agent.unicode env) text) !! k
  = Agent._extract_contact_info (Agent.unicode env) text !! k.
Proof.
  intros Hk. unfold dupdate. apply lookup_union_l'. apply contact_keys, Hk.
Qed.

Lemma dindex_contact (old : dict) (text : str) (k : string) :
  k = "name"%string \/ k = "phone"%string \/ k = "email"%string ->
  exists v,
    dindex (dupdate old (Agent._extract_contact_info (Agent.unicode env) text)) k
    = inr v.
Proof.
  intros Hk. unfold dindex. rewrite contact_after_update by exact Hk.
  destruct (proj2 (contact_keys (Agent.unicode env) text k) Hk) as [v ->].
  eauto.
Qed.

(** What a turn that raises has done. *)
Lemma process_message_raises st msg w e st' w' :
  Agent._process_message env st msg w = (inl e, st', w') ->
  let user := {| Agent.role := Agent.User; Agent.content := msg;
                 Agent.timestamp := Agent.ticks w |} in
  let text := Agent.conversation_text_of (Agent.messages st ++ [user]) in
  Agent.messages st' = Agent.messages st ++ [user]
  /\ Agent.cache w' = Agent.cache w
  /\ Agent.conversations w' = Agent.conversations w
  /\ Agent.leads w' = Agent.leads w
  /\ Agent.conversation_id st' = Agent.conversation_id st
  /\ Agent.lead_id st' = Agent.lead_id st
  /\ Agent.status st' = Agent.status st
  /\ ((Agent._extract_criteria (Agent.unicode env) text = inl e
       /\ Agent.criteria st' = Agent.criteria st
       /\ Agent.contact_info st' = Agent.contact_info st
       /\ Agent.qualification_score st' = Agent.qualification_score st)
      \/ (exists newc rows,
            Agent._extract_criteria (Agent.unicode env) text = inr newc
            /\ Agent.generate_ai_response env st' rows = inl e)).
Proof.
  intros H user text. revert H.
  unfold Agent._process_message. proj_simpl. fold user. fold text.
  destruct (Agent._extract_criteria _ _) as [e0 | newc] eqn:Hx.
  { intros H. injection H as <- <- <-. proj_simpl.
    repeat split; try reflexivity. left. repeat split; reflexivity. }
  proj_simpl.
  set (contact := dupdate (Agent.contact_info st) _).
  set (crit := dupdate (Agent.criteria st) newc).
  set (score := Agent._calculate_score crit contact).
  set (w1 := {| Agent.cache := Agent.cache w;
                Agent.conversations := Agent.conversations w;
                Agent.leads := Agent.leads w;
                Agent.property_queries := Agent.property_queries w;
                Agent.ticks := S (Agent.ticks w) |}).
  assert (Hm : exists rows qs,
             (if Agent.dict_truthy crit
              then Agent._match_properties env crit w1 else ([], w1))
             = (rows, {| Agent.cache := Agent.cache w;
                         Agent.conversations := Agent.conversations w;
                         Agent.leads := Agent.leads w;
                         Agent.property_queries := qs;
                         Agent.ticks := S (Agent.ticks w) |})).
  { destruct (Agent.dict_truthy crit).
    - unfold Agent._match_properties, w1. proj_simpl.
      destruct (Agent.execute_properties env _); eexists _, _; reflexivity.
    - eexists _, _. reflexivity. }
  destruct Hm as (rows & qs & ->). proj_simpl.
  destruct (Agent.generate_ai_response env _ rows) as [e0 | reply] eqn:Hr.
  { intros H. injection H as <- <- <-. proj_simpl.
    repeat split; try reflexivity. right. exists newc, rows.
    split; [reflexivity | exact Hr]. }
  proj_simpl.
  assert (Hc : exists create,
             Agent.should_create_lead_value score contact = inr create).
  { unfold Agent.should_create_lead_value.
    destruct (50 <=? score); [| eexists; reflexivity].
    destruct (dindex_contact (Agent.contact_info st) text "name") as [v Hv];
      [tauto |].
    fold contact in Hv. rewrite Hv. cbn [bind].
    destruct (truthy v); [| eexists; reflexivity].
    apply (dindex_contact (Agent.contact_info st) text "phone"). tauto. }
  destruct Hc as [create ->].
  destruct (dindex_contact (Agent.contact_info st) text "phone") as [v Hv];
    [tauto |].
  fold contact in Hv. rewrite Hv. discriminate.
Qed.
End TurnTheorems.

(** X7. A turn raises only what the criteria extractor or the reply
    generator raised: reading the contact record never fails, whatever state
    was passed, because each turn writes its three keys. A turn that raises
    leaves the user's message appended to the history, without a reply, and
    when it was the extractor that raised the criteria, the contact and the
    score are untouched. *)
Theorem turn_raises_only_from_extraction_or_reply
    (env : Agent.Env) (st : Agent.ConversationState) (msg : str)
    (w : Agent.World) (e : exn) (st' : Agent.ConversationState)
    (w' : Agent.World) :
  Agent._process_message env st msg w = (inl e, st', w') ->
  let user := {| Agent.role := Agent.User; Agent.content := msg;
                 Agent.timestamp := Agent.ticks w |} in
  let text := Agent.conversation_text_of (Agent.messages st ++ [user]) in
  Agent.messages st' = Agent.messages st ++ [user]
  /\ ((Agent._extract_criteria (Agent.unicode env) text = inl e
       /\ Agent.criteria st' = Agent.criteria st
       /\ Agent.contact_info st' = Agent.contact_info st
       /\ Agent.qualification_score st' = Agent.qualification_score st)
      \/ (exists rows, Agent.generate_ai_response env st' rows = inl e)).
Proof.
  intros H user text.
  destruct (process_message_raises env st msg w e st' w' H)
    as (Hm & _ & _ & _ & _ & _ & _ & [Hx | (newc & rows & _ & Hr)]).
  - split; [exact Hm | left; exact Hx].
  - split; [exact Hm | right; exists rows; exact Hr].
Qed.

(** X7, witness: the reply generator fails on the first message. *)
Lemma turn_raises_only_from_extraction_or_reply_witness :
  match Agent._process_message env_no_reply known_prospect (u "bonjour") world0 with
  | (inl e, st', w') =>
      Agent.messages st'
      = Agent.messages known_prospect
        ++ [{| Agent.role := Agent.User; Agent.content := u "bonjour";
               Agent.timestamp := Agent.ticks world0 |}]
      /\ exists rows, Agent.generate_ai_response env_no_reply st' rows = inl e
  | _ => False
  end.
Proof.
  destruct (Agent._process_message env_no_reply known_prospect (u "bonjour") world0)
    as [[[e | r] st'] w'] eqn:H; [| vm_compute in H; discriminate].
  destruct (turn_raises_only_from_extraction_or_reply _ _ _ _ _ _ _ H)
    as [Hm [[Hx _] | Hr]].
  - vm_compute in Hx. discriminate.
  - split; [exact Hm | exact Hr].
Defined.

(** X8. A turn that returns replaces the contact record: each of [name],
    [phone] and [email] is what the contact extractor finds in the whole
    transcript, [None] included, whatever the record held before. *)
Theorem turn_replaces_contact
    (env : Agent.Env) (st : Agent.ConversationState) (msg : str)
    (w : Agent.World) (r : Agent.TurnResult) (st' : Agent.ConversationState)
    (w' : Agent.World) (k : string) :
  Agent._process_message env st msg w = (inr r, st', w') ->
  k = "name"%string \/ k = "phone"%string \/ k = "email"%string ->
  let user := {| Agent.role := Agent.User; Agent.content := msg;
                 Agent.timestamp := Agent.ticks w |} in
  let text := Agent.conversation_text_of (Agent.messages st ++ [user]) in
  Agent.contact_info st' !! k
  = Agent._extract_contact_info (Agent.unicode env) text !! k.
Proof.
  intros H Hk user text.
  pose proof (process_message_inv env st msg w r st' w' H) as Hi.
  cbv zeta in Hi. destruct Hi as (newc & t & _ & _ & _ & -> & _).
  apply contact_after_update, Hk.
Qed.

(** X8, witness: the phone number of the record is not in the transcript,
    and the turn erases it. *)
Lemma turn_replaces_contact_witness :
  match Agent._process_message env0 known_prospect (u "bonjour") world0 with
  | (inr r, st', w') =>
      Agent.contact_info known_prospect !! "phone" = Some (VStr (u "0522000000"))
      /\ Agent.contact_info st' !! "phone" = Some VNone
  | _ => False
  end.
Proof.
  destruct (Agent._process_message env0 known_prospect (u "bonjour") world0)
    as [[[e | r] st'] w'] eqn:H; [vm_compute in H; discriminate |].
  split; [reflexivity |].
  rewrite (turn_replaces_contact env0 _ _ _ _ _ _ "phone" H); [| tauto].
  vm_compute. reflexivity.
Defined.

(** X9. A turn never removes a criterion: every key of the criteria is
    still there after a turn that returns, and each value found afterwards
    is the one held before or a value the extractor may write under that
    key. *)
Theorem turn_keeps_criteria
    (env : Agent.Env) (st : Agent.ConversationState) (msg : str)
    (w : Agent.World) (r : Agent.TurnResult) (st' : Agent.ConversationState)
    (w' : Agent.World) :
  Agent._process_message env st msg w = (inr r, st', w') ->
  (forall k, is_Some (Agent.criteria st !! k) ->
             is_Some (Agent.criteria st' !! k))
  /\ (forall k v, Agent.criteria st' !! k = Some v ->
                  Agent.criteria st !! k = Some v \/ criterion_typed k v).
Proof.
  intros H.
  pose proof (process_message_inv env st msg w r st' w' H) as Hi.
  cbv zeta in Hi. destruct Hi as (newc & t & Hx & _ & -> & _).
  unfold dupdate. split.
  - intros k Hk. apply lookup_union_is_Some. right. exact Hk.
  - intros k v Hv. apply lookup_union_Some_raw in Hv as [Hv | [_ Hv]].
    + right. exact (extract_criteria_typed _ _ _ Hx k v Hv).
    + left. exact Hv.
Qed.

(** X9, witness: the rooms of the record survive a message without
    rooms. *)
Lemma turn_keeps_criteria_witness :
  match Agent._process_message env0 known_prospect (u "une villa") world0 with
  | (inr r, st', w') =>
      is_Some (Agent.criteria known_prospect !! "rooms")
      /\ is_Some (Agent.criteria st' !! "rooms")
  | _ => False
  end.
Proof.
  destruct (Agent._process_message env0 known_prospect (u "une villa") world0)
    as [[[e | r] st'] w'] eqn:H; [vm_compute in H; discriminate |].
  assert (Hk : is_Some (Agent.criteria known_prospect !! "rooms"))
    by (vm_compute; eauto).
  split; [exact Hk |].
  exact (proj1 (turn_keeps_criteria env0 _ _ _ _ _ _ H) "rooms" Hk).
Defined.

(** X10. A turn never asks for a lead for a cold prospect: when
    [should_create_lead] is true the quality returned, which is also the one
    written to the state, is warm or hot, and the score written to the state
    is at least 50. *)
Theorem lead_is_never_proposed_for_a_cold_prospect
    (env : Agent.Env) (st : Agent.ConversationState) (msg : str)
    (w : Agent.World) (r : Agent.TurnResult) (st' : Agent.ConversationState)
    (w' : Agent.World) :
  Agent._process_message env st msg w = (inr r, st', w') ->
  truthy (Agent.should_create_lead r) = true ->
  (Agent.turn_quality r = "warm"%string \/ Agent.turn_quality r = "hot"%string)
  /\ Agent.lead_quality st' = Agent.turn_quality r
  /\ 50 <= Agent.qualification_score st'.
Proof.
  intros H Ht.
  pose proof (process_message_inv env st msg w r st' w' H) as Hi.
  cbv zeta in Hi.
  destruct Hi as (newc & t & _ & _ & _ & _ & _ & Hq & _ & Hs & Hq' & Hc & _).
  apply (should_create_lead_truthy _ _ _ Hc) in Ht. destruct Ht as [Ht _].
  rewrite Hq', Hq, <- Hs. unfold Agent._determine_lead_quality.
  split; [| split; [reflexivity | exact Ht]].
  destruct (Z.leb_spec 70 (Agent.turn_score r)); [right; reflexivity |].
  destruct (Z.leb_spec 40 (Agent.turn_score r)); [left; reflexivity | lia].
Qed.

(** X10, witness: a prospect who gives a name, a phone number and three
    criteria. *)
Lemma lead_is_never_proposed_for_a_cold_prospect_witness :
  match Agent._process_message env0 known_prospect full_request world0 with
  | (inr r, st', w') =>
      truthy (Agent.should_create_lead r) = true
      /\ (Agent.turn_quality r = "warm"%string \/ Agent.turn_quality r = "hot"%string)
      /\ Agent.lead_quality st' = Agent.turn_quality r
      /\ 50 <= Agent.qualification_score st'
  | _ => False
  end.
Proof.
  destruct (Agent._process_message env0 known_prospect full_request world0)
    as [[[e | r] st'] w'] eqn:H; [vm_compute in H; discriminate |].
  assert (Ht : truthy (Agent.should_create_lead r) = true).
  { vm_compute in H. injection H as <- _ _. reflexivity. }
  split; [exact Ht |].
  exact (lead_is_never_proposed_for_a_cold_prospect env0 _ _ _ _ _ _ H Ht).
Defined.

(** ** Looking up, continuing and ending conversations *)

Section LookupFacts.
Variable env : Agent.Env.

Lemma get_conversation_found (id : string) (w : Agent.World)
    (st : Agent.ConversationState) (w1 : Agent.World) :
  Agent._get_conversation env id w = (Some st, w1) ->
  Agent.conversations w1 = Agent.conversations w
  /\ Agent.leads w1 = Agent.leads w
  /\ Agent.property_queries w1 = Agent.property_queries w
  /\ Agent.ticks w1 = Agent.ticks w
  /\ Agent.cache w1 !! id = Some st
  /\ (forall id', id' <> id -> Agent.cache w1 !! id' = Agent.cache w !! id')
  /\ (Agent.cache w !! id = Some st /\ w1 = w
      \/ Agent.cache w !! id = None /\ stored w id = Some st).
Proof.
  unfold Agent._get_conversation, stored.
  destruct (Agent.cache w !! id) as [st0 |] eqn:Ec.
  - intros H. injection H as <- <-.
    repeat split; try reflexivity; try assumption. left. split; reflexivity.
  - destruct (Agent.select_conversation env _ id); [| discriminate].
    destruct (Agent.conversations w !! id) as [row |] eqn:Er; [| discriminate].
    intros H. injection H as <- <-. proj_simpl.
    repeat split; try reflexivity.
    + apply lookup_insert_eq.
    + intros id' Hne. apply lookup_insert_ne. congruence.
    + right. split; reflexivity.
Qed.

(** A lookup that finds nothing changes nothing. *)
Lemma get_conversation_none (id : string) (w w1 : Agent.World) :
  Agent._get_conversation env id w = (None, w1) ->
  w1 = w /\ Agent.cache w !! id = None.
Proof.
  unfold Agent._get_conversation.
  destruct (Agent.cache w !! id) as [st0 |] eqn:Ec; [discriminate |].
  destruct (Agent.select_conversation env _ id).
  - destruct (Agent.conversations w !! id) as [row |]; [discriminate |].
    intros H. injection H as <-. auto.
  - intros H. injection H as <-. auto.
Qed.

Lemma get_conversation_absent (id : string) (w : Agent.World) :
  Agent.cache w !! id = None -> Agent.conversations w !! id = None ->
  Agent._get_conversation env id w = (None, w).
Proof.
  intros Hc Hs. unfold Agent._get_conversation. rewrite Hc, Hs.
  destruct (Agent.select_conversation env _ id); reflexivity.
Qed.

Lemma get_conversation_cached (id : string) (w : Agent.World)
    (st : Agent.ConversationState) :
  Agent.cache w !! id = Some st ->
  Agent._get_conversation env id w = (Some st, w).
Proof. unfold Agent._get_conversation. intros ->. reflexivity. Qed.
End LookupFacts.

Section LifecycleTheorems.
Variable env : Agent.Env.

Lemma create_lead_result (st : Agent.ConversationState) (w : Agent.World) :
  Agent.cache (snd (Agent._create_lead env st w)) = Agent.cache w
  /\ Agent.conversations (snd (Agent._create_lead env st w)) = Agent.conversations w
  /\ Agent.ticks (snd (Agent._create_lead env st w)) = Agent.ticks w
  /\ (fst (Agent._create_lead env st w) = None
      /\ Agent.leads (snd (Agent._create_lead env st w)) = Agent.leads w
      \/ exists data new_id,
           Agent.lead_data_of st = inr data
           /\ Agent.insert_lead env (Agent.leads w) data = Some new_id
           /\ fst (Agent._create_lead env st w) = Some new_id
           /\ Agent.leads (snd (Agent._create_lead env st w))
              = Agent.leads w ++ [data]).
Proof.
  unfold Agent._create_lead.
  destruct (Agent.lead_data_of st) as [e | data].
  { simpl. repeat split. left. split; reflexivity. }
  destruct (Agent.insert_lead env _ _) as [new_id |] eqn:E; simpl.
  - repeat split. right. exists data, new_id. auto.
  - repeat split. left. split; reflexivity.
Qed.

(** What [continue_conversation] does with leads when it returns. *)
Lemma continue_conversation_leads id msg w st w1 r w' :
  Agent._get_conversation env id w = (Some st, w1) ->
  Agent.continue_conversation env id msg w = (inr r, w') ->
  exists stf,
    Agent.cache w' !! id = Some stf
    /\ Agent.cont_lead_id r = Agent.lead_id stf
    /\ (Agent.id_truthy (Agent.lead_id st) = true ->
        Agent.leads w' = Agent.leads w /\ Agent.lead_id stf = Agent.lead_id st)
    /\ (Agent.leads w' = Agent.leads w
        \/ exists data,
             Agent.leads w' = Agent.leads w ++ [data]
             /\ is_Some (Agent.lead_id stf)
             /\ truthy (Agent.should_create_lead (Agent.cont_turn r)) = true
             /\ Agent.id_truthy (Agent.lead_id st) = false).
Proof.
  intros Hg. unfold Agent.continue_conversation. rewrite Hg.
  destruct (get_conversation_found _ _ _ _ _ Hg) as (_ & Hl1 & _).
  destruct (Agent._process_message env st msg w1) as [[[e | res] st1] wp] eqn:Hp;
    [discriminate |].
  pose proof (process_message_inv env st msg w1 res st1 wp Hp) as Hi.
  cbv zeta in Hi.
  destruct Hi as (newc & t & _ & _ & _ & _ & _ & _ & (_ & Hlid & _) & _ & _ & _
                  & _ & _ & _ & _ & _ & Hlp).
  destruct (truthy (Agent.should_create_lead res)) eqn:Ht;
    destruct (Agent.id_truthy (Agent.lead_id st1)) eqn:Hid; cbn [andb negb].
  1, 3, 4:
    intros H; injection H as <- <-;
    rewrite save_cache, save_leads; proj_simpl;
    exists st1; rewrite lookup_insert_eq;
    (split; [reflexivity |]); (split; [reflexivity |]);
    (split; [intros _; split; [congruence | exact Hlid] |]);
    left; congruence.
  set (wq := Agent._save_conversation_to_db env st1 _).
  assert (Hq : Agent.leads wq = Agent.leads w).
  { unfold wq. rewrite save_leads. proj_simpl. congruence. }
  destruct (create_lead_result st1 wq) as (_ & _ & _ & Hr).
  destruct (Agent._create_lead env st1 wq) as [new_lead wl] eqn:Hl.
  cbn [fst snd] in Hr.
  intros H. injection H as <- <-.
  rewrite save_cache, save_leads. proj_simpl.
  exists (Agent.set_lead_id new_lead st1). rewrite lookup_insert_eq. proj_simpl.
  split; [reflexivity |].
  split; [destruct (Agent.id_truthy new_lead); reflexivity |].
  split; [rewrite <- Hlid, Hid; discriminate |].
  destruct Hr as [[-> Hr] | (data & new_id & _ & _ & -> & Hr)].
  - left. congruence.
  - right. exists data. rewrite Hr, Hq.
    split; [reflexivity |]. split; [eauto |]. split; [exact Ht |].
    rewrite <- Hlid. exact Hid.
Qed.

End LifecycleTheorems.



(** X12. A conversation that is neither in the cache nor in the store is
    reported without any effect: [continue_conversation] raises
    [ValueError], [end_conversation] returns its error dictionary and
    [get_conversation_state] returns [None], the cache, the tables and the
    clock being left as they were. *)
Theorem unknown_conversation_is_reported
    (env : Agent.Env) (id reason : string) (msg : str) (w : Agent.World) :
  Agent.cache w !! id = None ->
  Agent.conversations w !! id = None ->
  Agent.continue_conversation env id msg w = (inl ValueError, w)
  /\ Agent.end_conversation env id reason w = (inr None, w)
  /\ Agent.get_conversation_state env id w = (None, w).
Proof.
  intros Hc Hs.
  assert (Hg : Agent._get_conversation env id w = (None, w))
    by (apply get_conversation_absent; assumption).
  unfold Agent.continue_conversation, Agent.end_conversation,
    Agent.get_conversation_state.
  rewrite Hg. auto.
Qed.

(** X12, witness: an identifier that was never given out. *)
Lemma unknown_conversation_is_reported_witness :
  Agent.continue_conversation env0 "c2" (u "bonjour") (started None)
  = (inl ValueError, started None)
  /\ Agent.end_conversation env0 "c2" "completed" (started None)
     = (inr None, started None)
  /\ Agent.get_conversation_state env0 "c2" (started None)
     = (None, started None).
Proof.
  apply (unknown_conversation_is_reported env0 "c2" "completed" (u "bonjour")
           (started None)); by_vm.
Defined.

(** X13. [continue_conversation] creates at most one lead per call and
    records it: the [lead_id] it returns is the one left in the cached
    conversation; a conversation that already has a lead gets no other one;
    and the [leads] table either is unchanged or has gained one row, which
    happens only on a turn that asks for a lead in a conversation without
    one. *)
Theorem continue_creates_at_most_one_lead
    (env : Agent.Env) (id : string) (msg : str) (w : Agent.World)
    (st : Agent.ConversationState) (w1 : Agent.World)
    (r : Agent.ContinueResult) (w' : Agent.World) :
  Agent._get_conversation env id w = (Some st, w1) ->
  Agent.continue_conversation env id msg w = (inr r, w') ->
  exists stf,
    Agent.cache w' !! id = Some stf
    /\ Agent.cont_lead_id r = Agent.lead_id stf
    /\ (Agent.id_truthy (Agent.lead_id st) = true ->
        Agent.leads w' = Agent.leads w /\ Agent.lead_id stf = Agent.lead_id st)
    /\ (Agent.leads w' = Agent.leads w
        \/ exists data,
             Agent.leads w' = Agent.leads w ++ [data]
             /\ is_Some (Agent.lead_id stf)
             /\ truthy (Agent.should_create_lead (Agent.cont_turn r)) = true
             /\ Agent.id_truthy (Agent.lead_id st) = false).
Proof. exact (continue_conversation_leads env id msg w st w1 r w'). Qed.

(** X13, witness: the second message of a prospect whose first one gave
    everything a lead needs. *)
Lemma continue_creates_at_most_one_lead_witness :
  let w := started (Some full_request) in
  match Agent._get_conversation env0 "c1" w,
        Agent.continue_conversation env0 "c1" (u "d'accord") w with
  | (Some st, w1), (inr r, w') =>
      exists stf,
        Agent.cache w' !! "c1" = Some stf
        /\ Agent.cont_lead_id r = Agent.lead_id stf
        /\ (Agent.id_truthy (Agent.lead_id st) = true ->
            Agent.leads w' = Agent.leads w /\ Agent.lead_id stf = Agent.lead_id st)
        /\ (Agent.leads w' = Agent.leads w
            \/ exists data,
                 Agent.leads w' = Agent.leads w ++ [data]
                 /\ is_Some (Agent.lead_id stf)
                 /\ truthy (Agent.should_create_lead (Agent.cont_turn r)) = true
                 /\ Agent.id_truthy (Agent.lead_id st) = false)
  | _, _ => False
  end.
Proof.
  intros w.
  destruct (Agent._get_conversation env0 "c1" w) as [[st |] w1] eqn:Hg;
    [| vm_compute in Hg; discriminate].
  destruct (Agent.continue_conversation env0 "c1" (u "d'accord") w)
    as [[e | r] w'] eqn:He; [vm_compute in He; discriminate |].
  exact (continue_creates_at_most_one_lead env0 "c1" _ w st w1 r w' Hg He).
Defined.

(** ** Ending, reloading and starting *)

Section EndTheorems.
Variable env : Agent.Env.

Lemma lead_data_of_set_ended st s t reason :
  Agent.lead_data_of (Agent.set_ended s t reason st) = Agent.lead_data_of st.
Proof. reflexivity. Qed.

Lemma create_lead_accepted st w data :
  Agent.lead_data_of st = inr data ->
  (forall l, is_Some (Agent.insert_lead env l data)) ->
  Agent.leads (snd (Agent._create_lead env st w)) = Agent.leads w ++ [data].
Proof.
  intros Hd Hi. unfold Agent._create_lead. rewrite Hd.
  destruct (Hi (Agent.leads w)) as [new_id ->]. reflexivity.
Qed.

(** An [end_conversation] that returns a summary has found the
    conversation. *)
Lemma end_conversation_found id reason w r w' :
  Agent.end_conversation env id reason w = (inr (Some r), w') ->
  exists st w1, Agent._get_conversation env id w = (Some st, w1).
Proof.
  unfold Agent.end_conversation.
  destruct (Agent._get_conversation env id w) as [[st |] w1]; [eauto |].
  discriminate.
Qed.

(** When the store accepts the upsert, the conversation that
    [end_conversation] has written is in the store and not in the cache. *)
Lemma end_conversation_stored id reason w st w1 r w' :
  accepts_upserts env ->
  Agent._get_conversation env id w = (Some st, w1) ->
  Agent.conversation_id st = id ->
  Agent.end_conversation env id reason w = (inr (Some r), w') ->
  Agent.cache w' !! id = None
  /\ exists t, stored w' id = Some (Agent.set_ended "completed" t reason st).
Proof.
  intros Ha Hg Hid He.
  pose proof (end_conversation_inv env id reason w st w1 r w' Hg He) as Hi.
  cbv zeta in Hi. destruct Hi as (_ & _ & _ & _ & Hc & Hn).
  split; [exact Hn |]. rewrite Ha in Hc.
  eexists. unfold stored. rewrite Hc, Hid, lookup_insert_eq. reflexivity.
Qed.
End EndTheorems.

(** X14. Ending a conversation twice files its lead twice. For a
    conversation stored under its own identifier, without a lead and with a
    score of at least 50, whose lead data the store accepts, and a
    [conversations] table that accepts the upserts, a first
    [end_conversation] that returns a summary adds the lead to the [leads]
    table, and so does a second one that returns a summary: the table ends
    with the same row twice. *)
Theorem ending_twice_files_the_lead_twice
    (env : Agent.Env) (id reason reason' : string) (w : Agent.World)
    (st : Agent.ConversationState) (w1 : Agent.World) (data : Agent.LeadData)
    (r r' : Agent.EndResult) (w' w'' : Agent.World) :
  accepts_upserts env ->
  Agent._get_conversation env id w = (Some st, w1) ->
  Agent.conversation_id st = id ->
  Agent.id_truthy (Agent.lead_id st) = false ->
  50 <= Agent.qualification_score st ->
  Agent.lead_data_of st = inr data ->
  (forall l, is_Some (Agent.insert_lead env l data)) ->
  Agent.end_conversation env id reason w = (inr (Some r), w') ->
  Agent.end_conversation env id reason' w' = (inr (Some r'), w'') ->
  Agent.lead_created r = true
  /\ Agent.lead_created r' = true
  /\ Agent.leads w'' = Agent.leads w ++ [data; data].
Proof.
  intros Ha Hg Hid Hl Hs Hd Hi He He'.
  destruct (end_conversation_stored env id reason w st w1 r w' Ha Hg Hid He)
    as (Hn & t & Hst).
  destruct (end_conversation_found env id reason' w' r' w'' He')
    as (st2 & w2 & Hg').
  destruct (get_conversation_found env _ _ _ _ Hg')
    as (_ & Hl2 & _ & _ & _ & _ & [[Hc _] | [_ Hs2]]); [congruence |].
  assert (st2 = Agent.set_ended "completed" t reason st) by congruence.
  subst st2.
  pose proof (end_conversation_inv env id reason w st w1 r w' Hg He) as H1.
  pose proof (end_conversation_inv env id reason' w' _ _ r' w'' Hg' He') as H2.
  cbv zeta in H1, H2. proj_simpl.
  assert (Hgate : negb (Agent.id_truthy (Agent.lead_id st))
                  && (50 <=? Agent.qualification_score st) = true).
  { rewrite Hl. apply Z.leb_le in Hs. rewrite Hs. reflexivity. }
  rewrite Hgate in H1, H2.
  destruct H1 as (Hc1 & _ & Hl1 & _). destruct H2 as (Hc2 & _ & Hl2' & _).
  split; [exact Hc1 |]. split; [exact Hc2 |].
  rewrite Hl2'.
  rewrite (create_lead_accepted env _ _ data) by assumption.
  rewrite Hl2, Hl1.
  rewrite (create_lead_accepted env _ _ data) by assumption.
  destruct (get_conversation_found env _ _ _ _ Hg) as (_ & -> & _).
  rewrite <- app_assoc. reflexivity.
Qed.

(** X14, witness: the conversation of the anonymous prospect, score 60, is
    ended twice. *)
Lemma ending_twice_files_the_lead_twice_witness :
  let w := started (Some anonymous_request) in
  match Agent._get_conversation env0 "c1" w,
        Agent.end_conversation env0 "c1" "completed" w with
  | (Some st, w1), (inr (Some r), w') =>
      match Agent.lead_data_of st,
            Agent.end_conversation env0 "c1" "abandoned" w' with
      | inr data, (inr (Some r'), w'') =>
          accepts_upserts env0
          /\ Agent.lead_created r = true
          /\ Agent.lead_created r' = true
          /\ Agent.leads w'' = Agent.leads w ++ [data; data]
      | _, _ => False
      end
  | _, _ => False
  end.
Proof.
  intros w.
  destruct (Agent._get_conversation env0 "c1" w) as [[st |] w1] eqn:Hg;
    [| vm_compute in Hg; discriminate].
  assert (Hst := Hg). vm_compute in Hst. injection Hst as Hst _.
  destruct (Agent.end_conversation env0 "c1" "completed" w)
    as [[e | [r |]] w'] eqn:He;
    [vm_compute in He; discriminate | | vm_compute in He; discriminate].
  destruct (Agent.lead_data_of st) as [e | data] eqn:Hd;
    [subst st; vm_compute in Hd; discriminate |].
  assert (Ha : accepts_upserts env0) by (intros table row; reflexivity).
  destruct (Agent.end_conversation env0 "c1" "abandoned" w')
    as [[e | [r' |]] w''] eqn:He'.
  - vm_compute in He. injection He as _ <-. vm_compute in He'. discriminate.
  - split; [exact Ha |].
    apply (ending_twice_files_the_lead_twice env0 "c1" "completed" "abandoned"
             w st w1 data r r' w' w'' Ha Hg); try assumption.
    + subst st. reflexivity.
    + subst st. reflexivity.
    + subst st. vm_compute. discriminate.
    + intros l. simpl. eauto.
  - vm_compute in He. injection He as _ <-. vm_compute in He'. discriminate.
Defined.

(** X15. A completed conversation comes back as an active one of the
    cache. After an [end_conversation] that returns a summary the
    conversation is out of the cache. When the [conversations] table has
    accepted the upsert and answers the select, [get_conversation_state]
    then finds it in the store, with the status completed, the messages and
    the [lead_id] it had before the end, and puts it back in the cache, so
    that [get_active_conversations_count] is one more than before the
    lookup. *)
Theorem completed_conversation_is_counted_again
    (env : Agent.Env) (id reason : string) (w : Agent.World)
    (st : Agent.ConversationState) (w1 : Agent.World)
    (r : Agent.EndResult) (w' : Agent.World) :
  accepts_upserts env ->
  answers_selects env ->
  Agent._get_conversation env id w = (Some st, w1) ->
  Agent.conversation_id st = id ->
  Agent.end_conversation env id reason w = (inr (Some r), w') ->
  Agent.cache w' !! id = None
  /\ exists view w'',
       Agent.get_conversation_state env id w' = (Some view, w'')
       /\ Agent.view_status view = "completed"%string
       /\ Agent.view_messages view = Agent.messages st
       /\ Agent.view_lead_id view = Agent.lead_id st
       /\ Agent.get_active_conversations_count w''
          = S (Agent.get_active_conversations_count w').
Proof.
  intros Ha Hsel Hg Hid He.
  destruct (end_conversation_stored env id reason w st w1 r w' Ha Hg Hid He)
    as (Hn & t & Hst).
  split; [exact Hn |].
  unfold stored in Hst.
  destruct (Agent.conversations w' !! id) as [row |] eqn:Hrow; [| discriminate].
  cbn in Hst. injection Hst as Hst.
  unfold Agent.get_conversation_state, Agent._get_conversation.
  rewrite Hn, Hsel, Hrow, Hst.
  eexists _, _. split; [reflexivity |]. proj_simpl.
  cbn [Agent.view_status Agent.view_messages Agent.view_lead_id].
  repeat split; try reflexivity.
  unfold Agent.get_active_conversations_count. proj_simpl.
  apply map_size_insert_None, Hn.
Qed.

(** X15, witness: conversation [c1] is started, ended and looked up. *)
Lemma completed_conversation_is_counted_again_witness :
  let w := started None in
  match Agent._get_conversation env0 "c1" w,
        Agent.end_conversation env0 "c1" "completed" w with
  | (Some st, w1), (inr (Some r), w') =>
      accepts_upserts env0
      /\ answers_selects env0
      /\ Agent.cache w' !! "c1" = None
      /\ exists view w'',
           Agent.get_conversation_state env0 "c1" w' = (Some view, w'')
           /\ Agent.view_status view = "completed"%string
           /\ Agent.view_messages view = Agent.messages st
           /\ Agent.view_lead_id view = Agent.lead_id st
           /\ Agent.get_active_conversations_count w''
              = S (Agent.get_active_conversations_count w')
  | _, _ => False
  end.
Proof.
  intros w.
  destruct (Agent._get_conversation env0 "c1" w) as [[st |] w1] eqn:Hg;
    [| vm_compute in Hg; discriminate].
  assert (Hst := Hg). vm_compute in Hst. injection Hst as Hst _.
  destruct (Agent.end_conversation env0 "c1" "completed" w)
    as [[e | [r |]] w'] eqn:He;
    [vm_compute in He; discriminate | | vm_compute in He; discriminate].
  assert (Ha : accepts_upserts env0) by (intros table row; reflexivity).
  assert (Hs : answers_selects env0) by (intros table id; reflexivity).
  split; [exact Ha |]. split; [exact Hs |].
  apply (completed_conversation_is_counted_again env0 "c1" "completed" w st w1 r w'
           Ha Hs Hg); [| exact He].
  subst st. reflexivity.
Defined.

(** ** What is written where *)

Section StoreTheorems.
Variable env : Agent.Env.

(** The row of a conversation saved in a store that accepts the upsert. *)
Lemma save_conversation_row st w :
  accepts_upserts env ->
  exists row,
    Agent.conversations (Agent._save_conversation_to_db env st w)
      !! Agent.conversation_id st = Some row
    /\ Agent.row_state row = st
    /\ Agent.row_id row = Agent.conversation_id st
    /\ Agent.row_qualification_score row = Agent.qualification_score st
    /\ Agent.row_status row = Agent.status st
    /\ Agent.row_lead_id row = Agent.lead_id st.
Proof.
  intros Ha.
  destruct (save_conversation_spec env st w) as (_ & _ & _ & _ & ->).
  cbv zeta. rewrite Ha. eexists. rewrite lookup_insert_eq.
  repeat split; reflexivity.
Qed.

Lemma save_stored st w :
  accepts_upserts env ->
  stored (Agent._save_conversation_to_db env st w) (Agent.conversation_id st)
  = Some st.
Proof.
  intros Ha. destruct (save_conversation_row st w Ha) as (row & Hrow & Hrs & _).
  unfold stored. rewrite Hrow. cbn. rewrite Hrs. reflexivity.
Qed.

(** The last thing a returning [continue_conversation] does is to save the
    conversation it has just put in the cache. *)
Lemma continue_conversation_final id msg w st w1 r w' :
  Agent._get_conversation env id w = (Some st, w1) ->
  Agent.continue_conversation env id msg w = (inr r, w') ->
  exists stf wx,
    w' = Agent._save_conversation_to_db env stf wx
    /\ Agent.cache wx !! id = Some stf
    /\ Agent.conversation_id stf = Agent.conversation_id st.
Proof.
  intros Hg. unfold Agent.continue_conversation. rewrite Hg.
  destruct (Agent._process_message env st msg w1) as [[[e | res] st1] wp] eqn:Hp;
    [discriminate |].
  pose proof (process_message_inv env st msg w1 res st1 wp Hp) as Hi.
  cbv zeta in Hi.
  destruct Hi as (newc & t & _ & _ & _ & _ & _ & _ & (_ & _ & Hcid & _) & _).
  destruct (truthy (Agent.should_create_lead res)
            && negb (Agent.id_truthy (Agent.lead_id st1))).
  - destruct (Agent._create_lead env st1 _) as [new_lead wl] eqn:Hl.
    intros H. injection H as <- <-.
    eexists _, _. split; [reflexivity |]. proj_simpl.
    rewrite lookup_insert_eq. split; [reflexivity | exact Hcid].
  - intros H. injection H as <- <-.
    eexists _, _. split; [reflexivity |]. proj_simpl.
    rewrite lookup_insert_eq. split; [reflexivity | exact Hcid].
Qed.

Lemma continue_conversation_frame id msg w id' :
  (forall st w1, Agent._get_conversation env id w = (Some st, w1) ->
                 Agent.conversation_id st = id) ->
  id' <> id ->
  Agent.cache (snd (Agent.continue_conversation env id msg w)) !! id'
  = Agent.cache w !! id'
  /\ Agent.conversations (snd (Agent.continue_conversation env id msg w)) !! id'
     = Agent.conversations w !! id'.
Proof.
  intros Hwf Hne. unfold Agent.continue_conversation.
  destruct (Agent._get_conversation env id w) as [[st |] w1] eqn:Hg.
  2: { apply get_conversation_none in Hg as (-> & _). split; reflexivity. }
  pose proof (Hwf st w1 eq_refl) as Hid.
  destruct (get_conversation_found env _ _ _ _ Hg) as (Hc1 & _ & _ & _ & _ & Hf & _).
  destruct (Agent._process_message env st msg w1) as [[[e | res] st1] wp] eqn:Hp.
  - destruct (process_message_raises env st msg w1 e st1 wp Hp)
      as (_ & Hcp & Hvp & _).
    cbn [snd]. proj_simpl. rewrite lookup_insert_ne by congruence.
    rewrite Hcp, Hvp, Hc1. split; [apply Hf, Hne | reflexivity].
  - pose proof (process_message_inv env st msg w1 res st1 wp Hp) as Hi.
    cbv zeta in Hi.
    destruct Hi as (newc & t & _ & _ & _ & _ & _ & _ & (_ & _ & Hcid & _) & _ & _
                    & _ & _ & _ & _ & Hcp & Hvp & _).
    destruct (truthy (Agent.should_create_lead res)
              && negb (Agent.id_truthy (Agent.lead_id st1))).
    + set (wq := Agent._save_conversation_to_db env st1 _).
      destruct (create_lead_result env st1 wq) as (Hlc & Hlv & _).
      destruct (Agent._create_lead env st1 wq) as [new_lead wl] eqn:Hl.
      cbn [fst snd] in *.
      rewrite save_cache, save_conversations_ne by (proj_simpl; congruence).
      proj_simpl. rewrite lookup_insert_ne by congruence.
      rewrite Hlc, Hlv. unfold wq.
      rewrite save_cache, save_conversations_ne by congruence.
      proj_simpl. rewrite lookup_insert_ne by congruence.
      rewrite Hcp, Hvp, Hc1. split; [apply Hf, Hne | reflexivity].
    + cbn [snd].
      rewrite save_cache, save_conversations_ne by congruence.
      proj_simpl. rewrite lookup_insert_ne by congruence.
      rewrite Hcp, Hvp, Hc1. split; [apply Hf, Hne | reflexivity].
Qed.

Lemma end_conversation_frame id reason w id' :
  (forall st w1, Agent._get_conversation env id w = (Some st, w1) ->
                 Agent.conversation_id st = id) ->
  id' <> id ->
  Agent.cache (snd (Agent.end_conversation env id reason w)) !! id'
  = Agent.cache w !! id'
  /\ Agent.conversations (snd (Agent.end_conversation env id reason w)) !! id'
     = Agent.conversations w !! id'.
Proof.
  intros Hwf Hne. unfold Agent.end_conversation.
  destruct (Agent._get_conversation env id w) as [[st |] w1] eqn:Hg.
  2: { apply get_conversation_none in Hg as (-> & _). split; reflexivity. }
  pose proof (Hwf st w1 eq_refl) as Hid.
  destruct (get_conversation_found env _ _ _ _ Hg) as (Hc1 & _ & _ & _ & _ & Hf & _).
  set (gate := negb (Agent.id_truthy (Agent.lead_id st))
               && (50 <=? Agent.qualification_score st)).
  set (w2 := if gate then snd (Agent._create_lead env st w1) else w1).
  assert (Hw2 : (if gate
                 then let '(l, w0) := Agent._create_lead env st w1 in (true, l, w0)
                 else (false, Agent.lead_id st, w1))
                = (gate,
                   if gate then fst (Agent._create_lead env st w1)
                   else Agent.lead_id st, w2)).
  { unfold w2. destruct gate; [| reflexivity].
    destruct (Agent._create_lead env st w1). reflexivity. }
  rewrite Hw2.
  assert (H2 : Agent.cache w2 = Agent.cache w1
               /\ Agent.conversations w2 = Agent.conversations w1).
  { unfold w2. destruct gate; [| split; reflexivity].
    destruct (create_lead_result env st w1) as (H1 & H2 & _). split; assumption. }
  destruct H2 as [H2c H2v].
  destruct (Agent.generate_summary env st) as [e | text].
  - cbn [snd]. rewrite H2c, H2v, Hc1. split; [apply Hf, Hne | reflexivity].
  - proj_simpl. rewrite lookup_delete_ne by congruence.
    rewrite save_cache, save_conversations_ne by (proj_simpl; congruence).
    proj_simpl. rewrite lookup_insert_ne by congruence.
    rewrite H2c, H2v, Hc1. split; [apply Hf, Hne | reflexivity].
Qed.

Lemma start_conversation_result msg user w r w' :
  Agent.start_conversation env msg user w = (inr r, w') ->
  let id := Agent.uuid4 env (Agent.ticks w) in
  Agent.start_conversation_id r = id
  /\ Agent.start_status r = "active"%string
  /\ Agent.leads w' = Agent.leads w
  /\ (forall id', id' <> id ->
        Agent.cache w' !! id' = Agent.cache w !! id'
        /\ Agent.conversations w' !! id' = Agent.conversations w !! id')
  /\ exists st,
       Agent.cache w' !! id = Some st
       /\ (accepts_upserts env -> stored w' id = Some st)
       /\ Agent.conversation_id st = id
       /\ Agent.status st = "active"%string
       /\ Agent.lead_id st = None
       /\ Agent.qualification_score st = Agent.start_score r.
Proof.
  intros H id. revert H. unfold Agent.start_conversation. proj_simpl. fold id.
  set (st0 := {| Agent.conversation_id := id; Agent.messages := [] |}).
  assert (Hwelcome :
    forall w0 t,
      Agent.cache w0 = Agent.cache w -> Agent.conversations w0 = Agent.conversations w ->
      Agent.leads w0 = Agent.leads w ->
      let st := Agent.set_messages
                  (Agent.messages st0
                   ++ [{| Agent.role := Agent.Assistant;
                          Agent.content := Agent.WELCOME_MESSAGE;
                          Agent.timestamp := t |}]) st0 in
      (let w1 := Agent.set_cache (<[id := st]> (Agent.cache w0)) w0 in
       let w2 := Agent._save_conversation_to_db env st w1 in
       (inr {| Agent.start_conversation_id := id;
               Agent.start_response := Agent.WELCOME_MESSAGE;
               Agent.start_status := "active";
               Agent.start_score := Agent.qualification_score st |}
          : exn + Agent.StartResult, w2)) = (inr r, w') ->
      Agent.start_conversation_id r = id
      /\ Agent.start_status r = "active"%string
      /\ Agent.leads w' = Agent.leads w
      /\ (forall id', id' <> id ->
            Agent.cache w' !! id' = Agent.cache w !! id'
            /\ Agent.conversations w' !! id' = Agent.conversations w !! id')
      /\ exists st,
           Agent.cache w' !! id = Some st
           /\ (accepts_upserts env -> stored w' id = Some st)
           /\ Agent.conversation_id st = id
           /\ Agent.status st = "active"%string
           /\ Agent.lead_id st = None
           /\ Agent.qualification_score st = Agent.start_score r).
  { intros w0 t Hc Hv Hl st. subst st. cbv zeta. intros H. injection H as <- <-.
    rewrite save_cache, save_leads. proj_simpl.
    split; [reflexivity |]. split; [reflexivity |]. split; [exact Hl |].
    split.
    - intros id' Hne.
      rewrite save_conversations_ne by (unfold st0; proj_simpl; congruence).
      proj_simpl. rewrite lookup_insert_ne by congruence.
      rewrite Hc, Hv. split; reflexivity.
    - eexists. rewrite lookup_insert_eq. split; [reflexivity |].
      split; [| repeat split; reflexivity].
      intros Ha. exact (save_stored _ _ Ha). }
  destruct msg as [[| c m] |].
  - apply Hwelcome; reflexivity.
  - destruct (Agent._process_message env st0 (c :: m) _)
      as [[[e | res] st1] wp] eqn:Hp; cbn [bind ret]; [discriminate |].
    pose proof (process_message_inv env st0 (c :: m) _ res st1 wp Hp) as Hi.
    cbv zeta in Hi. proj_simpl.
    destruct Hi as (newc & t & _ & _ & _ & _ & _ & _ & (Hst & Hlid & Hcid & _) & Hs
                    & _ & _ & _ & _ & _ & Hcp & Hvp & Hlp).
    unfold st0 in Hst, Hlid, Hcid. proj_simpl.
    intros H. injection H as <- <-.
    rewrite save_cache, save_leads. proj_simpl.
    split; [reflexivity |]. split; [reflexivity |]. split; [exact Hlp |].
    split.
    + intros id' Hne.
      rewrite save_conversations_ne by congruence.
      proj_simpl. rewrite lookup_insert_ne by congruence.
      rewrite Hcp, Hvp. split; reflexivity.
    + exists st1. rewrite lookup_insert_eq. split; [reflexivity |].
      split; [| repeat split; try assumption; reflexivity].
      intros Ha.
      match goal with
      | |- context [Agent._save_conversation_to_db env ?s ?x] =>
          pose proof (save_stored s x Ha) as Hrow
      end.
      rewrite Hcid in Hrow. exact Hrow.
  - apply Hwelcome; reflexivity.
Qed.
End StoreTheorems.

(** X16. [start_conversation] registers the conversation and never creates
    a lead. When it returns, the identifier is the one drawn, the
    conversation is in the cache with that identifier, the status active, no
    lead and the score returned, and it is in the store as well when the
    [conversations] table accepts the upserts; the [leads] table is
    unchanged, whatever the first message says; and no other conversation is
    touched. *)
Theorem start_registers_and_files_no_lead
    (env : Agent.Env) (msg : option str) (user : option string)
    (w : Agent.World) (r : Agent.StartResult) (w' : Agent.World) :
  Agent.start_conversation env msg user w = (inr r, w') ->
  let id := Agent.uuid4 env (Agent.ticks w) in
  Agent.start_conversation_id r = id
  /\ Agent.start_status r = "active"%string
  /\ Agent.leads w' = Agent.leads w
  /\ (forall id', id' <> id ->
        Agent.cache w' !! id' = Agent.cache w !! id'
        /\ Agent.conversations w' !! id' = Agent.conversations w !! id')
  /\ exists st,
       Agent.cache w' !! id = Some st
       /\ (accepts_upserts env -> stored w' id = Some st)
       /\ Agent.conversation_id st = id
       /\ Agent.status st = "active"%string
       /\ Agent.lead_id st = None
       /\ Agent.qualification_score st = Agent.start_score r.
Proof. exact (start_conversation_result env msg user w r w'). Qed.

(** X16, witness: a first message that gives everything a lead needs. *)
Lemma start_registers_and_files_no_lead_witness :
  match Agent.start_conversation env0 (Some full_request) None world0 with
  | (inr r, w') =>
      Agent.start_conversation_id r = "c1"%string
      /\ Agent.leads w' = []
      /\ accepts_upserts env0
      /\ exists st,
           Agent.cache w' !! "c1" = Some st
           /\ stored w' "c1" = Some st
           /\ Agent.lead_id st = None
           /\ Agent.qualification_score st = Agent.start_score r
  | _ => False
  end.
Proof.
  destruct (Agent.start_conversation env0 (Some full_request) None world0)
    as [[e | r] w'] eqn:H; [vm_compute in H; discriminate |].
  destruct (start_registers_and_files_no_lead env0 _ _ _ _ _ H)
    as (Hid & _ & Hl & _ & st & Hc & Hs & _ & _ & Hn & Hq).
  assert (Ha : accepts_upserts env0) by (intros table row; reflexivity).
  split; [exact Hid |]. split; [exact Hl |]. split; [exact Ha |].
  exists st. auto.
Defined.

(** X17. Without a first message, or with an empty one, [start_conversation]
    always returns: the reply is the welcome message and the score 0, the
    history of the new conversation is that one message of the assistant,
    and neither the criteria extractor, the reply generator nor the
    [properties] table is consulted. *)
Theorem start_without_message_welcomes
    (env : Agent.Env) (user : option string) (w : Agent.World) :
  let id := Agent.uuid4 env (Agent.ticks w) in
  let out := Agent.start_conversation env None user w in
  Agent.start_conversation env (Some []) user w = out
  /\ fst out
     = inr {| Agent.start_conversation_id := id;
              Agent.start_response := Agent.WELCOME_MESSAGE;
              Agent.start_status := "active";
              Agent.start_score := 0 |}
  /\ Agent.property_queries (snd out) = Agent.property_queries w
  /\ Agent.messages <$> Agent.cache (snd out) !! id
     = Some [{| Agent.role := Agent.Assistant;
                Agent.content := Agent.WELCOME_MESSAGE;
                Agent.timestamp := S (S (Agent.ticks w)) |}].
Proof.
  intros id out. split; [reflexivity |].
  unfold out, Agent.start_conversation. proj_simpl. fold id.
  rewrite save_cache.
  match goal with
  | |- context [Agent._save_conversation_to_db env ?s ?x] =>
      destruct (save_conversation_spec env s x) as (_ & _ & -> & _)
  end.
  proj_simpl. split; [reflexivity |]. split; [reflexivity |].
  rewrite lookup_insert_eq. reflexivity.
Qed.

(** X18. Continuing or ending a conversation touches no other one: when the
    conversation found under [id] carries that identifier, the cache entry
    and the stored row of every other identifier are the same after
    [continue_conversation] and after [end_conversation], whether the call
    returns, raises or finds nothing. *)
Theorem other_conversations_are_untouched
    (env : Agent.Env) (id reason : string) (msg : str) (w : Agent.World)
    (id' : string) :
  (forall st w1, Agent._get_conversation env id w = (Some st, w1) ->
                 Agent.conversation_id st = id) ->
  id' <> id ->
  let wc := snd (Agent.continue_conversation env id msg w) in
  let we := snd (Agent.end_conversation env id reason w) in
  Agent.cache wc !! id' = Agent.cache w !! id'
  /\ Agent.conversations wc !! id' = Agent.conversations w !! id'
  /\ Agent.cache we !! id' = Agent.cache w !! id'
  /\ Agent.conversations we !! id' = Agent.conversations w !! id'.
Proof.
  intros Hwf Hne wc we.
  destruct (continue_conversation_frame env id msg w id' Hwf Hne) as [H1 H2].
  destruct (end_conversation_frame env id reason w id' Hwf Hne) as [H3 H4].
  auto.
Qed.

(** X18, witness: conversation [c1] and the identifier [c2]. *)
Lemma other_conversations_are_untouched_witness :
  let w := started None in
  let wc := snd (Agent.continue_conversation env0 "c1" (u "bonjour") w) in
  let we := snd (Agent.end_conversation env0 "c1" "completed" w) in
  Agent.cache wc !! "c2" = Agent.cache w !! "c2"
  /\ Agent.conversations wc !! "c2" = Agent.conversations w !! "c2"
  /\ Agent.cache we !! "c2" = Agent.cache w !! "c2"
  /\ Agent.conversations we !! "c2" = Agent.conversations w !! "c2".
Proof.
  intros w.
  apply (other_conversations_are_untouched env0 "c1" "completed" (u "bonjour") w "c2").
  - intros st w1 H. vm_compute in H. injection H as <- _. reflexivity.
  - discriminate.
Defined.

(** X19. What [continue_conversation] saves is what the next lookup reads.
    When it returns for a conversation that carries its identifier,
    [_get_conversation] returns the conversation left in the cache without
    changing anything; and when the [conversations] table accepts the
    upserts, that conversation is the state of the stored row, whose columns
    repeat its score, its status and its [lead_id]. *)
Theorem continue_writes_through
    (env : Agent.Env) (id : string) (msg : str) (w : Agent.World)
    (st : Agent.ConversationState) (w1 : Agent.World)
    (r : Agent.ContinueResult) (w' : Agent.World) :
  Agent._get_conversation env id w = (Some st, w1) ->
  Agent.conversation_id st = id ->
  Agent.continue_conversation env id msg w = (inr r, w') ->
  exists stf,
    Agent._get_conversation env id w' = (Some stf, w')
    /\ (accepts_upserts env ->
        exists row,
          Agent.conversations w' !! id = Some row
          /\ Agent.row_state row = stf
          /\ Agent.row_id row = id
          /\ Agent.row_qualification_score row = Agent.qualification_score stf
          /\ Agent.row_status row = Agent.status stf
          /\ Agent.row_lead_id row = Agent.lead_id stf).
Proof.
  intros Hg Hid He.
  destruct (continue_conversation_final env id msg w st w1 r w' Hg He)
    as (stf & wx & -> & Hc & Hcid).
  exists stf. split.
  - apply get_conversation_cached. rewrite save_cache. exact Hc.
  - intros Ha.
    destruct (save_conversation_row env stf wx Ha)
      as (row & Hrow & H1 & H2 & H3 & H4 & H5).
    rewrite Hcid, Hid in Hrow, H2. exists row. auto 10.
Qed.

(** X19, witness: the second message of conversation [c1]. *)
Lemma continue_writes_through_witness :
  let w := started None in
  match Agent._get_conversation env0 "c1" w,
        Agent.continue_conversation env0 "c1" (u "une villa") w with
  | (Some st, w1), (inr r, w') =>
      accepts_upserts env0
      /\ exists stf row,
        Agent._get_conversation env0 "c1" w' = (Some stf, w')
        /\ Agent.conversations w' !! "c1" = Some row
        /\ Agent.row_state row = stf
        /\ Agent.row_id row = "c1"%string
        /\ Agent.row_qualification_score row = Agent.qualification_score stf
        /\ Agent.row_status row = Agent.status stf
        /\ Agent.row_lead_id row = Agent.lead_id stf
  | _, _ => False
  end.
Proof.
  intros w.
  destruct (Agent._get_conversation env0 "c1" w) as [[st |] w1] eqn:Hg;
    [| vm_compute in Hg; discriminate].
  assert (Hst := Hg). vm_compute in Hst. injection Hst as Hst _.
  destruct (Agent.continue_conversation env0 "c1" (u "une villa") w)
    as [[e | r] w'] eqn:He; [vm_compute in He; discriminate |].
  assert (Ha : accepts_upserts env0) by (intros table row; reflexivity).
  split; [exact Ha |].
  destruct (continue_writes_through env0 "c1" (u "une villa") w st w1 r w' Hg)
    as (stf & Hl & Hrow); [subst st; reflexivity | exact He |].
  destruct (Hrow Ha) as (row & Hr). exists stf, row. auto.
Defined.

(** ** The queries on the [properties] table *)

Lemma Forall_add_filter (P : Agent.Filter -> Prop) (criteria : dict)
    (key : string) (f : value -> Agent.Filter) (query : list Agent.Filter) :
  (truthy (dget criteria key) = true -> P (f (dget criteria key))) ->
  Forall P query -> Forall P (Agent.add_filter criteria key f query).
Proof.
  intros Hf Hq. unfold Agent.add_filter.
  destruct (truthy (dget criteria key)) eqn:E; [| exact Hq].
  apply Forall_app. split; [exact Hq |]. constructor; [auto | constructor].
Qed.

(** X20. The agent's query on the [properties] table never asks for
    available properties and never uses the area: each of its filters is on
    the city, the property type, the transaction type, the price or the
    bedrooms, with a value that is true in Python's sense, so that a budget
    or a room count of 0 does not filter. *)
Theorem agent_query_filters (criteria : dict) :
  Forall (fun f =>
            filter_column f
              ∈ ["city"; "property_type"; "transaction_type"; "price";
                 "bedrooms"]%string
            /\ filter_value_truthy f = true)
         (Agent.properties_query criteria)
  /\ available_only ∉ Agent.properties_query criteria.
Proof.
  assert (H : Forall (fun f =>
                        filter_column f
                          ∈ ["city"; "property_type"; "transaction_type";
                             "price"; "bedrooms"]%string
                        /\ filter_value_truthy f = true)
                     (Agent.properties_query criteria)).
  { unfold Agent.properties_query. cbv zeta.
    repeat (apply Forall_add_filter;
            [intros Ht; split;
             [apply list_elem_of_In; simpl; tauto | exact Ht] |]).
    constructor. }
  split; [exact H |].
  intros Hin. rewrite Forall_forall in H. apply H in Hin as [Hc _].
  apply list_elem_of_In in Hc. simpl in Hc. intuition discriminate.
Qed.

Section SearchFacts.
Variable P : Agent.Filter -> Prop.

Lemma Forall_str_filter (x : option str) (f : value -> Agent.Filter)
    (query : list Agent.Filter) :
  (forall s, s <> [] -> P (f (VStr s))) ->
  Forall P query -> Forall P (Tools.str_filter x f query).
Proof.
  intros Hf Hq. unfold Tools.str_filter.
  destruct x as [[| c s] |]; simpl; try exact Hq.
  apply Forall_app. split; [exact Hq |].
  constructor; [apply Hf; discriminate | constructor].
Qed.

Lemma Forall_num_filter (x : option Z) (f : value -> Agent.Filter)
    (query : list Agent.Filter) :
  (forall n, n <> 0 -> P (f (VInt n))) ->
  Forall P query -> Forall P (Tools.num_filter x f query).
Proof.
  intros Hf Hq. unfold Tools.num_filter.
  destruct x as [n |]; simpl; try exact Hq.
  destruct (Z.eqb_spec n 0); simpl; [exact Hq |].
  apply Forall_app. split; [exact Hq |].
  constructor; [apply Hf; assumption | constructor].
Qed.

Lemma Forall_like_filter (x : option str) (column : string)
    (query : list Agent.Filter) :
  (forall s, s <> [] -> P (Agent.ilike column (u "%" ++ s ++ u "%"))) ->
  Forall P query -> Forall P (Tools.like_filter x column query).
Proof.
  intros Hf Hq. unfold Tools.like_filter.
  destruct x as [[| c s] |]; simpl; try exact Hq.
  apply Forall_app. split; [exact Hq |].
  constructor; [apply (Hf (c :: s)); discriminate | constructor].
Qed.
End SearchFacts.

(** X21. The search tool always asks for available properties: whatever
    the criteria, the query it sends ends with the filter on the status, the
    filters before it are on other columns and carry a non-empty text or a
    number other than 0, and the result is the rows of the store, or the
    empty list when the request fails. *)
Theorem search_tool_asks_for_available (criteria : Tools.PropertySearchCriteria) :
  exists query,
    (forall execute limit,
       Tools.search execute criteria limit
       = default [] (execute (query ++ [available_only]) limit))
    /\ Forall (fun f =>
                 filter_column f <> "status"%string
                 /\ filter_value_truthy f = true)
              query.
Proof.
  exists
    (Tools.num_filter (Tools.min_surface criteria) (Agent.gte "surface")
       (Tools.num_filter (Tools.min_bedrooms criteria) (Agent.gte "bedrooms")
          (Tools.num_filter (Tools.max_price criteria) (Agent.lte "price")
             (Tools.num_filter (Tools.min_price criteria) (Agent.gte "price")
                (Tools.like_filter (Tools.neighborhood criteria) "neighborhood"
                   (Tools.like_filter (Tools.city criteria) "city"
                      (Tools.str_filter (Tools.property_type criteria)
                         (Agent.eq_ "property_type")
                         (Tools.str_filter (Tools.transaction_type criteria)
                            (Agent.eq_ "transaction_type") [])))))))).
  split.
  - intros execute limit. unfold Tools.search. cbv zeta.
    destruct (execute _ limit); reflexivity.
  - repeat first
      [ apply Forall_num_filter;
        [intros n Hn; split; [discriminate |]; simpl;
         destruct (Z.eqb_spec n 0); [contradiction | reflexivity] |]
      | apply Forall_like_filter;
        [intros s Hs; split; [discriminate |]; simpl;
         rewrite length_app; destruct s; [contradiction |];
         simpl; apply Nat.ltb_lt; lia |]
      | apply Forall_str_filter;
        [intros s Hs; split; [discriminate |]; simpl;
         destruct s; [contradiction | reflexivity] |] ].
    constructor.
Qed.

(** ** The workflow state *)

Lemma merge_spec (a b : list str) (x : str) :
  x ∈ State.merge a b <-> x ∈ a \/ x ∈ b.
Proof. unfold State.merge. rewrite elem_of_remove_dups. apply elem_of_app. Qed.

Lemma merge_NoDup (a b : list str) : NoDup (State.merge a b).
Proof. apply NoDup_remove_dups. Qed.

Lemma merged_list (old new : list str) :
  let l := if Tools.list_truthy new then State.merge old new else old in
  (forall x, x ∈ l <-> x ∈ old \/ x ∈ new) /\ (new <> [] -> NoDup l).
Proof.
  destruct new as [| y new]; simpl.
  - split; [| congruence]. intros x. rewrite elem_of_nil. tauto.
  - split; [intros x; apply merge_spec | intros _; apply merge_NoDup].
Qed.

(** X22. [update_state_with_criteria] merges lists as sets: afterwards the
    cities are those of the state together with those of the criteria,
    nothing else and nothing less, and the list has no duplicate whenever
    the criteria name a city; the same holds of the neighborhoods and of the
    amenities. *)
Theorem update_merges_lists_as_sets
    (state : State.ConversationState) (criteria : State.Extracted) :
  let state' := State.update_state_with_criteria state criteria in
  ((forall x, x ∈ State.cities state'
              <-> x ∈ State.cities state \/ x ∈ State.x_cities criteria)
   /\ (State.x_cities criteria <> [] -> NoDup (State.cities state')))
  /\ ((forall x, x ∈ State.neighborhoods state'
                 <-> x ∈ State.neighborhoods state
                     \/ x ∈ State.x_neighborhoods criteria)
      /\ (State.x_neighborhoods criteria <> [] ->
          NoDup (State.neighborhoods state')))
  /\ ((forall x, x ∈ State.amenities state'
                 <-> x ∈ State.amenities state \/ x ∈ State.x_amenities criteria)
      /\ (State.x_amenities criteria <> [] -> NoDup (State.amenities state'))).
Proof.
  cbv zeta. unfold State.update_state_with_criteria.
  cbn [State.cities State.neighborhoods State.amenities].
  split; [apply merged_list |]. split; apply merged_list.
Qed.

Lemma kept_str (new old : option str) :
  Tools.str_truthy old = true ->
  Tools.str_truthy (if Tools.str_truthy new then new else old) = true.
Proof. destruct (Tools.str_truthy new) eqn:E; auto. Qed.

Lemma kept_num (new old : option Z) :
  Tools.num_truthy old = true ->
  Tools.num_truthy (if Tools.num_truthy new then new else old) = true.
Proof. destruct (Tools.num_truthy new) eqn:E; auto. Qed.

Lemma specific_criteria_count_range
    (state : State.ConversationState) (criteria : State.Extracted) :
  let state' := State.update_state_with_criteria state criteria in
  0 <= State.specific_criteria_count state'
  <= 2 + Z.of_nat (length (State.amenities state')).
Proof.
  cbv zeta. unfold State.update_state_with_criteria.
  cbn [State.specific_criteria_count State.amenities].
  repeat match goal with
         | |- context [if ?b then _ else _] => destruct b
         end; lia.
Qed.

(** X23. [update_state_with_criteria] never clears a criterion: a
    transaction type, a property type, a budget bound, a number of bedrooms
    or a surface that counted as true before still does afterwards, because
    a value of the criteria that counts as false (missing, 0 or empty) is
    ignored; the flags [budget_defined] and [property_type_defined] are
    then true, and the count of specific criteria is not negative. *)
Theorem update_never_clears
    (state : State.ConversationState) (criteria : State.Extracted) :
  let state' := State.update_state_with_criteria state criteria in
  (Tools.str_truthy (State.transaction_type state) = true ->
   Tools.str_truthy (State.transaction_type state') = true)
  /\ (Tools.str_truthy (State.property_type state) = true ->
      Tools.str_truthy (State.property_type state') = true
      /\ State.property_type_defined state' = true)
  /\ (Tools.num_truthy (State.budget_min state) = true ->
      Tools.num_truthy (State.budget_min state') = true
      /\ State.budget_defined state' = true)
  /\ (Tools.num_truthy (State.budget_max state) = true ->
      Tools.num_truthy (State.budget_max state') = true
      /\ State.budget_defined state' = true)
  /\ (Tools.num_truthy (State.bedrooms state) = true ->
      Tools.num_truthy (State.bedrooms state') = true)
  /\ (Tools.num_truthy (State.surface_min state) = true ->
      Tools.num_truthy (State.surface_min state') = true)
  /\ 0 <= State.specific_criteria_count state'.
Proof.
  cbv zeta.
  split; [| split; [| split; [| split; [| split; [| split]]]]].
  - apply kept_str.
  - intros H. unfold State.update_state_with_criteria.
    cbn [State.property_type State.property_type_defined].
    rewrite (kept_str _ _ H). split; reflexivity.
  - intros H. unfold State.update_state_with_criteria.
    cbn [State.budget_min State.budget_defined].
    rewrite (kept_num _ _ H). split; reflexivity.
  - intros H. unfold State.update_state_with_criteria.
    cbn [State.budget_max State.budget_defined].
    rewrite (kept_num _ _ H). split; [reflexivity | apply orb_true_r].
  - apply kept_num.
  - apply kept_num.
  - apply specific_criteria_count_range.
Qed.

Section GraphFacts.
Variable env : Workflow.Env.

(** The fields that the nodes after [calculate_score] leave alone. *)
Lemma after_score_fields (state st' : State.ConversationState) :
  Workflow._generate_response env (Workflow.searched env state) = inr st' ->
  State.specific_criteria_count (Workflow.finalized env st')
  = State.specific_criteria_count state
  /\ State.engagement_level (Workflow.finalized env st')
     = State.engagement_level state
  /\ State.qualification_score (Workflow.finalized env st')
     = State.qualification_score state
  /\ State.lead_quality (Workflow.finalized env st') = State.lead_quality state
  /\ State.should_create_lead (Workflow.finalized env st')
     = State.should_create_lead state
  /\ State.contact_info_complete (Workflow.finalized env st')
     = State.contact_info_complete state
  /\ (State.should_create_lead state && State.contact_info_complete state = true ->
      State.conversation_complete (Workflow.finalized env st') = true).
Proof.
  unfold Workflow._generate_response.
  destruct (Workflow.respond env _) as [e | [reply |]]; [discriminate | |];
    cbn [bind ret]; intros H; injection H as <-;
    unfold Workflow.finalized, Workflow._should_continue_conversation,
      Workflow.searched;
    destruct (String.eqb (Workflow._should_search_properties env state) "search");
    cbn [Workflow.with_response Workflow._search_properties
         State.should_create_lead State.contact_info_complete];
    destruct (State.should_create_lead state && State.contact_info_complete state);
    cbn [orb];
    try destruct (Workflow.user_wants_to_end env _);
    repeat split; try reflexivity; try discriminate.
Qed.

Lemma scored_fields (msg : str) (existing : option State.ConversationState) :
  (forall s, existing = Some s -> sound_counts s) ->
  let state := Workflow.scored env msg existing in
  sound_counts state
  /\ 1 <= State.engagement_level state <= 10
  /\ State.qualification_score state
     = Tools.calculate_qualification_score
         (State.budget_defined state) (State.location_defined state)
         (State.property_type_defined state) (State.timeframe_defined state)
         (State.contact_info_complete state)
         (State.specific_criteria_count state) (State.engagement_level state)
  /\ State.lead_quality state
     = Tools.classify_lead_quality (State.qualification_score state)
  /\ State.should_create_lead state
     = (50 <=? State.qualification_score state)
       && State.contact_info_complete state.
Proof.
  intros Hs.
  assert (H0 : sound_counts (default State.create_initial_state existing)).
  { destruct existing as [s |]; [apply Hs; reflexivity |].
    split; simpl; lia. }
  clear Hs. destruct H0 as [Hc He]. cbv zeta.
  unfold Workflow.scored. cbv zeta.
  set (s0 := default State.create_initial_state existing) in *.
  unfold Workflow._calculate_score, Workflow.with_should_create_lead,
    State.is_lead_qualified.
  cbn [State.specific_criteria_count State.engagement_level
       State.qualification_score State.lead_quality State.should_create_lead
       State.contact_info_complete State.budget_defined State.location_defined
       State.property_type_defined State.timeframe_defined].
  assert (Hx : 0 <= State.specific_criteria_count
                      (Workflow._extract_criteria env
                         (Workflow._process_user_input env
                            (Workflow.with_user_message s0 msg)))
               /\ State.engagement_level
                    (Workflow._extract_criteria env
                       (Workflow._process_user_input env
                          (Workflow.with_user_message s0 msg)))
                  = Z.min (State.engagement_level s0 + 1) 10).
  { unfold Workflow._extract_criteria.
    destruct (Workflow.extract env _) as [x |].
    - split; [| reflexivity].
      unfold Workflow.with_personal_info. cbn [State.specific_criteria_count].
      apply specific_criteria_count_range.
    - split; [exact Hc | reflexivity]. }
  destruct Hx as [Hx1 Hx2]. unfold sound_counts.
  cbn [State.specific_criteria_count State.engagement_level].
  rewrite !Hx2.
  repeat split; try reflexivity; lia.
Qed.
End GraphFacts.

(** X24. The counters of a workflow state stay sound, and with them the
    score. Run from a new conversation, or from a state whose count of
    specific criteria and engagement level are not negative, a [run] that
    returns leaves both not negative, an engagement level from 1 to 10, a
    score from 0 to 100 with the quality that classifies it, and a request
    for a lead only with a score of at least 50 and a complete contact, in
    which case the conversation is complete. *)
Theorem run_keeps_the_score_in_range
    (env : Workflow.Env) (msg : str)
    (existing : option State.ConversationState)
    (state' : State.ConversationState) :
  (forall s, existing = Some s -> sound_counts s) ->
  Workflow.run env msg existing = inr state' ->
  sound_counts state'
  /\ 1 <= State.engagement_level state' <= 10
  /\ 0 <= State.qualification_score state' <= 100
  /\ State.lead_quality state'
     = Tools.classify_lead_quality (State.qualification_score state')
  /\ (State.should_create_lead state' = true ->
      50 <= State.qualification_score state'
      /\ State.contact_info_complete state' = true
      /\ State.conversation_complete state' = true).
Proof.
  intros Hs. unfold Workflow.run.
  destruct (Workflow._generate_response env _) as [e | st1] eqn:Hr;
    [discriminate |].
  cbn [bind ret]. intros H. injection H as <-.
  destruct (after_score_fields env _ _ Hr)
    as (Hc & He & Hq & Hl & Hd & Hi & Hf).
  destruct (scored_fields env msg existing Hs)
    as ([Sc Se] & Sr & Sq & Sl & Sd).
  cbv zeta in *. unfold sound_counts. rewrite Hc, He, Hq, Hl, Hd, Hi.
  split; [split; assumption |]. split; [exact Sr |].
  split.
  - rewrite Sq, workflow_score_points.
    set (s := Workflow.scored env msg existing) in *.
    pose proof (pts_range 25 (State.budget_defined s) ltac:(lia)).
    pose proof (pts_range 20 (State.location_defined s) ltac:(lia)).
    pose proof (pts_range 15 (State.property_type_defined s) ltac:(lia)).
    pose proof (pts_range 10 (State.timeframe_defined s) ltac:(lia)).
    pose proof (pts_range 15 (State.contact_info_complete s) ltac:(lia)).
    assert (0 <= Z.quot (State.engagement_level s) 2)
      by (apply Z.quot_pos; lia).
    lia.
  - split; [exact Sl |].
    intros Ht. rewrite Sd in Ht. apply andb_true_iff in Ht as [H1 H2].
    split; [apply Z.leb_le, H1 |]. split; [exact H2 |].
    apply Hf. rewrite Sd, H1, H2. reflexivity.
Qed.

(** X24, witness: the first message of a new conversation. *)
Lemma run_keeps_the_score_in_range_witness :
  match Workflow.run wenv0 (u "bonjour") None with
  | inr state' =>
      sound_counts state'
      /\ 1 <= State.engagement_level state' <= 10
      /\ 0 <= State.qualification_score state' <= 100
  | inl _ => False
  end.
Proof.
  destruct (Workflow.run wenv0 (u "bonjour") None) as [e | state'] eqn:H;
    [vm_compute in H; discriminate |].
  destruct (run_keeps_the_score_in_range wenv0 (u "bonjour") None state')
    as (H1 & H2 & H3 & _).
  - intros s Hs. discriminate.
  - exact H.
  - auto.
Defined.

(** ** The prompt *)

Lemma is_role_same (name : string) (c : str) : Agent.is_role name (u name, c) = true.
Proof. apply bool_decide_eq_true_2. reflexivity. Qed.

Lemma is_role_other (name other : string) (c : str) :
  u other <> u name -> Agent.is_role name (u other, c) = false.
Proof. intros H. apply bool_decide_eq_false_2. exact H. Qed.

Lemma user_not_system : u "user" <> u "system".
Proof. vm_compute. discriminate. Qed.

Lemma assistant_not_system : u "assistant" <> u "system".
Proof. vm_compute. discriminate. Qed.

Lemma assistant_not_user : u "assistant" <> u "user".
Proof. vm_compute. discriminate. Qed.

Lemma exchanges_without_system (turns : list (str * str)) (last : str) :
  let msgs :=
    flat_map (fun t => [(u "user", fst t); (u "assistant", snd t)]) turns
    ++ [(u "user", last)] in
  List.filter (Agent.is_role "system") msgs = []
  /\ List.filter (fun m => negb (Agent.is_role "system" m)) msgs = msgs.
Proof.
  cbv zeta. induction turns as [| [q a] turns [IH1 IH2]]; cbn [flat_map app List.filter fst snd].
  - rewrite (is_role_other "system" "user") by exact user_not_system.
    split; reflexivity.
  - rewrite (is_role_other "system" "user") by exact user_not_system.
    rewrite (is_role_other "system" "assistant") by exact assistant_not_system.
    cbn [negb]. rewrite IH1, IH2. split; reflexivity.
Qed.

Lemma prompt_loop_exchanges (turns : list (str * str)) (last : str) :
  forall i n prompt,
    n = (i + 2 * length turns + 1)%nat ->
    Agent.prompt_loop
      (flat_map (fun t => [(u "user", fst t); (u "assistant", snd t)]) turns
       ++ [(u "user", last)]) i n prompt
    = prompt
      ++ concat (map (fun t => fst t ++ u " [/INST] " ++ snd t ++ u "</s><s>[INST] ")
                   turns)
      ++ last ++ u " [/INST]".
Proof.
  induction turns as [| [q a] turns IH]; intros i n prompt Hn;
    cbn [flat_map app map concat Agent.prompt_loop fst snd length] in *.
  - rewrite is_role_same.
    replace (i =? n - 1)%nat with true by (symmetry; apply Nat.eqb_eq; lia).
    reflexivity.
  - rewrite is_role_same.
    replace (i =? n - 1)%nat with false by (symmetry; apply Nat.eqb_neq; lia).
    rewrite (is_role_other "user" "assistant") by exact assistant_not_user.
    rewrite is_role_same.
    replace (S i <? n - 1)%nat with true by (symmetry; apply Nat.ltb_lt; lia).
    rewrite IH by lia.
    change (u "</s><s>[INST] ") with (u "</s>" ++ u "<s>[INST] ").
    rewrite <- !app_assoc. reflexivity.
Qed.

(** X25. On a transcript that alternates the messages of the user and the
    replies and ends with a message of the user, the prompt has the Mistral
    instruction format: the system message after the first [[INST]], each
    past message of the user closed by [[/INST]] and followed by the reply
    and [</s><s>[INST]], and the message to answer closed by [[/INST]] with
    nothing after it. When the conversation was opened by the welcome of the
    assistant, the welcome stands in the first instruction block, which is
    then closed by [</s>] and not by [[/INST]]. *)
Theorem prompt_has_the_mistral_format
    (system : str) (opening : option str) (turns : list (str * str))
    (last : str) :
  Agent._build_mistral_prompt (transcript system opening turns last)
  = mistral_format system opening turns last.
Proof.
  unfold Agent._build_mistral_prompt, transcript, mistral_format. cbv zeta.
  destruct (exchanges_without_system turns last) as [H1 H2]. cbv zeta in H1, H2.
  cbn [List.filter]. rewrite is_role_same. cbn [negb snd].
  destruct opening as [greeting |]; cbn [app List.filter].
  - rewrite (is_role_other "system" "assistant") by exact assistant_not_system.
    cbn [negb]. rewrite H2.
    cbn [Agent.prompt_loop length snd].
    rewrite (is_role_other "user" "assistant") by exact assistant_not_user.
    rewrite is_role_same.
    replace (0 <? _)%nat with true
      by (symmetry; apply Nat.ltb_lt; rewrite length_app; simpl; lia).
    rewrite prompt_loop_exchanges.
    + change (u "</s><s>[INST] ") with (u "</s>" ++ u "<s>[INST] ").
      rewrite <- !app_assoc. reflexivity.
    + rewrite length_app, length_flat_map. simpl.
      assert (Hs : forall l : list (str * str),
                 list_sum (map (fun _ => 2%nat) l) = (2 * length l)%nat).
      { induction l; simpl; lia. }
      change (fun t : str * str => length [(u "user", t.1); (u "assistant", t.2)])
        with (fun _ : str * str => 2%nat).
      rewrite Hs. lia.
  - rewrite H2. rewrite prompt_loop_exchanges.
    + rewrite <- !app_assoc. reflexivity.
    + rewrite length_app, length_flat_map. simpl.
      assert (Hs : forall l : list (str * str),
                 list_sum (map (fun _ => 2%nat) l) = (2 * length l)%nat).
      { induction l; simpl; lia. }
      change (fun t : str * str => length [(u "user", t.1); (u "assistant", t.2)])
        with (fun _ : str * str => 2%nat).
      rewrite Hs. lia.
Qed.

(** X26. When [end_conversation] raises, the exception is the one of the
    summary and the conversation is not ended: it stays in the cache as it
    was found and the [conversations] table is not written. A lead filed
    before the summary stays in the [leads] table all the same, its
    identifier recorded nowhere. *)
Theorem failed_end_keeps_the_lead
    (env : Agent.Env) (id reason : string) (w : Agent.World)
    (e : exn) (w' : Agent.World) :
  Agent.end_conversation env id reason w = (inl e, w') ->
  exists st w1,
    Agent._get_conversation env id w = (Some st, w1)
    /\ Agent.generate_summary env st = inl e
    /\ Agent.cache w' !! id = Some st
    /\ Agent.conversations w' = Agent.conversations w
    /\ Agent.leads w'
       = Agent.leads
           (if negb (Agent.id_truthy (Agent.lead_id st))
               && (50 <=? Agent.qualification_score st)
            then snd (Agent._create_lead env st w1) else w).
Proof.
  unfold Agent.end_conversation.
  destruct (Agent._get_conversation env id w) as [[st |] w1] eqn:Hg; [| discriminate].
  destruct (get_conversation_found env _ _ _ _ Hg) as (Hc1 & Hl1 & _ & _ & Hf & _).
  destruct (create_lead_result env st w1) as (Hlc & Hlv & _).
  destruct (negb (Agent.id_truthy (Agent.lead_id st))
            && (50 <=? Agent.qualification_score st)) eqn:Eg.
  - destruct (Agent._create_lead env st w1) as [l w2] eqn:Hl. cbn [fst snd] in *.
    destruct (Agent.generate_summary env st) as [e0 | text] eqn:Hs;
      [| discriminate].
    intros H. injection H as <- <-. exists st, w1. rewrite Eg, Hl.
    split; [reflexivity |]. split; [exact Hs |].
    split; [rewrite Hlc; exact Hf |].
    split; [rewrite Hlv; exact Hc1 | reflexivity].
  - destruct (Agent.generate_summary env st) as [e0 | text] eqn:Hs;
      [| discriminate].
    intros H. injection H as <- <-. exists st, w1. rewrite Eg.
    split; [reflexivity |]. split; [exact Hs |].
    split; [exact Hf |]. split; [exact Hc1 | exact Hl1].
Qed.

(** X26, witness: the summary fails for the anonymous prospect, score 60. *)
Lemma failed_end_keeps_the_lead_witness :
  let w := started (Some anonymous_request) in
  match Agent.end_conversation env_no_summary "c1" "completed" w with
  | (inl e, w') =>
      exists st w1,
        Agent._get_conversation env_no_summary "c1" w = (Some st, w1)
        /\ Agent.generate_summary env_no_summary st = inl e
        /\ Agent.cache w' !! "c1" = Some st
        /\ Agent.conversations w' = Agent.conversations w
        /\ Agent.leads w'
           = Agent.leads
               (if negb (Agent.id_truthy (Agent.lead_id st))
                   && (50 <=? Agent.qualification_score st)
                then snd (Agent._create_lead env_no_summary st w1) else w)
  | _ => False
  end.
Proof.
  intros w.
  destruct (Agent.end_conversation env_no_summary "c1" "completed" w)
    as [[e | r] w'] eqn:H; [| vm_compute in H; discriminate].
  exact (failed_end_keeps_the_lead env_no_summary "c1" "completed" w e w' H).
Defined.

(** ** A store that refuses the upserts *)

Section RefusedFacts.
Variable env : Agent.Env.

Lemma create_lead_any_table st w table :
  Agent._create_lead env st (Agent.set_conversations table w)
  = (fst (Agent._create_lead env st w),
     Agent.set_conversations table (snd (Agent._create_lead env st w))).
Proof.
  unfold Agent._create_lead. proj_simpl.
  destruct (Agent.lead_data_of st); [reflexivity |].
  destruct (Agent.insert_lead env _ _); reflexivity.
Qed.

(** A save writes at most the table. *)
Lemma save_writes_the_table st w :
  exists table,
    Agent._save_conversation_to_db env st w
    = Agent.set_conversations table (Agent._save_conversation_to_db (refusing env) st w).
Proof.
  unfold Agent._save_conversation_to_db. proj_simpl.
  destruct (Agent.upsert_conversation env _ _); eexists; reflexivity.
Qed.

Lemma save_refused_any_table st w table :
  Agent._save_conversation_to_db (refusing env) st (Agent.set_conversations table w)
  = Agent.set_conversations table (Agent._save_conversation_to_db (refusing env) st w).
Proof. reflexivity. Qed.

Lemma save_any_table st w table :
  exists table',
    Agent._save_conversation_to_db env st (Agent.set_conversations table w)
    = Agent.set_conversations table'
        (Agent._save_conversation_to_db (refusing env) st w).
Proof.
  unfold Agent._save_conversation_to_db. proj_simpl.
  destruct (Agent.upsert_conversation env _ _); eexists; reflexivity.
Qed.

Lemma save_refused_conversations st w :
  Agent.conversations (Agent._save_conversation_to_db (refusing env) st w)
  = Agent.conversations w.
Proof. reflexivity. Qed.
End RefusedFacts.

(** X27. A refused upsert costs a turn nothing but the write. Had the
    [conversations] table refused every upsert, [continue_conversation]
    would have given the same outcome, result or exception, and left the same
    cache and the same [leads] table, the [conversations] table being as it
    was before the call. *)
Theorem refused_upsert_only_skips_the_write
    (env : Agent.Env) (id : string) (msg : str) (w : Agent.World) :
  let out := Agent.continue_conversation env id msg w in
  let out' := Agent.continue_conversation (refusing env) id msg w in
  fst out' = fst out
  /\ Agent.cache (snd out') = Agent.cache (snd out)
  /\ Agent.leads (snd out') = Agent.leads (snd out)
  /\ Agent.conversations (snd out') = Agent.conversations w.
Proof.
  cbv zeta. unfold Agent.continue_conversation.
  change (Agent._get_conversation (refusing env) id w)
    with (Agent._get_conversation env id w).
  destruct (Agent._get_conversation env id w) as [[st |] w1] eqn:Hg.
  2: { apply get_conversation_none in Hg as (-> & _). repeat split; reflexivity. }
  destruct (get_conversation_found env _ _ _ _ Hg) as (Hc1 & _).
  change (Agent._process_message (refusing env) st msg w1)
    with (Agent._process_message env st msg w1).
  destruct (Agent._process_message env st msg w1) as [[[e | res] st1] wp] eqn:Hp.
  - destruct (process_message_raises env st msg w1 e st1 wp Hp)
      as (_ & _ & Hv & _).
    cbn [fst snd]. proj_simpl. repeat split; try reflexivity. congruence.
  - pose proof (process_message_inv env st msg w1 res st1 wp Hp) as Hi.
    cbv zeta in Hi.
    destruct Hi as (newc & t & _ & _ & _ & _ & _ & _ & _ & _ & _ & _ & _ & _ & _
                    & _ & Hv & _).
    set (wc := Agent.set_cache (<[id := st1]> (Agent.cache wp)) wp).
    destruct (save_writes_the_table env st1 wc) as [table1 ->].
    set (wq := Agent._save_conversation_to_db (refusing env) st1 wc).
    assert (Hq : Agent.conversations wq = Agent.conversations w).
    { unfold wq. rewrite save_refused_conversations. unfold wc. proj_simpl.
      congruence. }
    destruct (truthy (Agent.should_create_lead res)
              && negb (Agent.id_truthy (Agent.lead_id st1))).
    + rewrite create_lead_any_table.
      change (Agent._create_lead (refusing env) st1 wq)
        with (Agent._create_lead env st1 wq).
      destruct (create_lead_result env st1 wq) as (_ & Hlv & _).
      destruct (Agent._create_lead env st1 wq) as [new_lead wl].
      cbn [fst snd] in *.
      match goal with
      | |- context [Agent._save_conversation_to_db env ?s
                      (Agent.set_cache ?c (Agent.set_conversations ?tb ?x))] =>
          change (Agent.set_cache c (Agent.set_conversations tb x))
            with (Agent.set_conversations tb (Agent.set_cache c x));
          destruct (save_any_table env s (Agent.set_cache c x) tb) as [table2 ->]
      end.
      proj_simpl. repeat split; try reflexivity.
      rewrite save_refused_conversations. proj_simpl. congruence.
    + cbn [fst snd]. proj_simpl. repeat split; try reflexivity. exact Hq.
Qed.

(** X28. A select that fails hides the conversation. For an identifier that
    is not in the cache, when the [conversations] table does not answer the
    select, [continue_conversation] raises [ValueError], [end_conversation]
    returns its error dictionary and [get_conversation_state] returns
    [None], as for an unknown conversation, whether the row exists or not;
    nothing is changed. *)
Theorem failed_select_hides_the_conversation
    (env : Agent.Env) (id reason : string) (msg : str) (w : Agent.World) :
  Agent.cache w !! id = None ->
  Agent.select_conversation env (Agent.conversations w) id = false ->
  Agent.continue_conversation env id msg w = (inl ValueError, w)
  /\ Agent.end_conversation env id reason w = (inr None, w)
  /\ Agent.get_conversation_state env id w = (None, w).
Proof.
  intros Hc Hs.
  assert (Hg : Agent._get_conversation env id w = (None, w)).
  { unfold Agent._get_conversation. rewrite Hc, Hs. reflexivity. }
  unfold Agent.continue_conversation, Agent.end_conversation,
    Agent.get_conversation_state.
  rewrite Hg. auto.
Qed.

(** X28, witness: conversation [c1], started and ended, is in the store and
    not in the cache. *)
Lemma failed_select_hides_the_conversation_witness :
  let w := ended None in
  is_Some (Agent.conversations w !! "c1")
  /\ Agent.continue_conversation env_offline "c1" (u "bonjour") w
     = (inl ValueError, w)
  /\ Agent.end_conversation env_offline "c1" "completed" w = (inr None, w)
  /\ Agent.get_conversation_state env_offline "c1" w = (None, w).
Proof.
  intros w. split; [by_vm |].
  apply (failed_select_hides_the_conversation env_offline "c1" "completed"
           (u "bonjour") w).
  - by_vm.
  - reflexivity.
Defined.
